(** * ccloom: recording session coordinator and recordings catalog

    A shallow embedding of [src/App.tsx] (the variant with the recordings
    list): the filename generator, the catalog scan [loadRecordings], the
    persistence routine [saveRecording] and the recording handlers, together
    with the slice of the host platform they rely on (ECMAScript dates and
    strings, the File System Access listing, the MediaRecorder callbacks). *)

From Stdlib Require Import ZArith Lia List String Ascii Bool.
From Stdlib Require Import Sorting.Sorted Sorting.Permutation.
From stdpp Require Import gmap strings pretty.
Import ListNotations.

(* ===================================================================== *)
(** ** ECMAScript time values (ECMA-262, "Date Objects")                  *)
(* ===================================================================== *)

(** A [Date] is its time value: milliseconds since 1970-01-01T00:00:00Z.
    Floor division and the non-negative remainder of ECMA-262 are [Z.div]
    and [Z.modulo] at the positive divisors used here. *)
Module JSDate.
Local Open Scope Z_scope.

Definition msPerSecond : Z := 1000.
Definition msPerMinute : Z := 60000.
Definition msPerHour : Z := 3600000.
Definition msPerDay : Z := 86400000.

Definition Day (t : Z) : Z := t / msPerDay.
Definition TimeWithinDay (t : Z) : Z := t mod msPerDay.

Definition isLeap (y : Z) : bool :=
  (y mod 4 =? 0) && (negb (y mod 100 =? 0) || (y mod 400 =? 0)).

Definition DaysInYear (y : Z) : Z := if isLeap y then 366 else 365.

Definition DayFromYear (y : Z) : Z :=
  365 * (y - 1970) + (y - 1969) / 4 - (y - 1901) / 100 + (y - 1601) / 400.

Definition TimeFromYear (y : Z) : Z := msPerDay * DayFromYear y.

(** The largest year whose first day is not after day number [d]: a
    closed-form estimate from the mean Gregorian year (146097 days per 400
    years), corrected by at most one year either way. *)
Definition YearFromDay (d : Z) : Z :=
  let y := 1970 + (d * 400) / 146097 in
  if d <? DayFromYear y then y - 1
  else if DayFromYear (y + 1) <=? d then y + 1
  else y.

Definition YearFromTime (t : Z) : Z := YearFromDay (Day t).

Definition InLeapYear (t : Z) : Z := if isLeap (YearFromTime t) then 1 else 0.

Definition DayWithinYear (t : Z) : Z := Day t - DayFromYear (YearFromTime t).

(** Number of days of the year that precede month [m] (0 = January). *)
Definition monthStart (leap : Z) (m : Z) : Z :=
  if m =? 0 then 0
  else if m =? 1 then 31
  else if m =? 2 then 59 + leap
  else if m =? 3 then 90 + leap
  else if m =? 4 then 120 + leap
  else if m =? 5 then 151 + leap
  else if m =? 6 then 181 + leap
  else if m =? 7 then 212 + leap
  else if m =? 8 then 243 + leap
  else if m =? 9 then 273 + leap
  else if m =? 10 then 304 + leap
  else 334 + leap.

Definition MonthFromTime (t : Z) : Z :=
  let d := DayWithinYear t in
  let l := InLeapYear t in
  if d <? 31 then 0
  else if d <? 59 + l then 1
  else if d <? 90 + l then 2
  else if d <? 120 + l then 3
  else if d <? 151 + l then 4
  else if d <? 181 + l then 5
  else if d <? 212 + l then 6
  else if d <? 243 + l then 7
  else if d <? 273 + l then 8
  else if d <? 304 + l then 9
  else if d <? 334 + l then 10
  else 11.

Definition DateFromTime (t : Z) : Z :=
  DayWithinYear t - monthStart (InLeapYear t) (MonthFromTime t) + 1.

Definition HourFromTime (t : Z) : Z := (t / msPerHour) mod 24.
Definition MinFromTime (t : Z) : Z := (t / msPerMinute) mod 60.
Definition SecFromTime (t : Z) : Z := (t / msPerSecond) mod 60.
Definition msFromTime (t : Z) : Z := t mod msPerSecond.

Definition MakeTime (hour min sec ms : Z) : Z :=
  hour * msPerHour + min * msPerMinute + sec * msPerSecond + ms.

Definition MakeDay (year month date : Z) : Z :=
  let ym := year + month / 12 in
  let mn := month mod 12 in
  DayFromYear ym + monthStart (if isLeap ym then 1 else 0) mn + date - 1.

Definition MakeDate (day time : Z) : Z := day * msPerDay + time.

(** The host's time zone: [LocalTZA t isUTC] is the offset of local time
    from UTC in milliseconds, at UTC time [t] when [isUTC] and at local
    time [t] otherwise. *)
Record Host := { LocalTZA : Z -> bool -> Z }.

Definition LocalTime (h : Host) (t : Z) : Z := t + LocalTZA h t true.
Definition UTC (h : Host) (t : Z) : Z := t - LocalTZA h t false.

(** [new Date(year, month, date, hours, minutes, seconds)]: the fields are
    local time, and a year from 0 to 99 stands for 1900 + year. *)
Definition newDate (h : Host) (year month date hours minutes seconds : Z) : Z :=
  let yr := if (0 <=? year) && (year <=? 99) then 1900 + year else year in
  UTC h (MakeDate (MakeDay yr month date) (MakeTime hours minutes seconds 0)).

End JSDate.

(* ===================================================================== *)
(** ** ECMAScript strings: the built-ins the code calls                   *)
(* ===================================================================== *)

Module JSString.

Definition isDigit (c : ascii) : bool :=
  let n := nat_of_ascii c in Nat.leb 48 n && Nat.leb n 57.

Definition digitChar (n : Z) : ascii :=
  ascii_of_nat (48 + Z.to_nat (n mod 10)).

Definition digitValue (c : ascii) : Z := Z.of_nat (nat_of_ascii c) - 48.

(** The [k] low decimal digits of [n], most significant first, in front
    of [acc] (zero padded, as the date formatter pads its fields). *)
Fixpoint padDigits (k : nat) (n : Z) (acc : string) : string :=
  match k with
  | O => acc
  | S k' => padDigits k' (n / 10) (String (digitChar n) acc)
  end.

Definition concat (l : list string) : string :=
  fold_right String.append EmptyString l.

(** [s.replace(/[...]/g, by)] for a character class given as a predicate. *)
Fixpoint replaceClassAll (cls : ascii -> bool) (by_ : string) (s : string) : string :=
  match s with
  | EmptyString => EmptyString
  | String c s' =>
      if cls c then String.append by_ (replaceClassAll cls by_ s')
      else String c (replaceClassAll cls by_ s')
  end.

(** [s.replace(c, by)] with a one-character string pattern: only the
    first occurrence is replaced. *)
Fixpoint replaceFirst (c : ascii) (by_ : string) (s : string) : string :=
  match s with
  | EmptyString => EmptyString
  | String x s' =>
      if Ascii.eqb x c then String.append by_ s'
      else String x (replaceFirst c by_ s')
  end.

(** [s.slice(0, n)]. *)
Definition slice0 (n : nat) (s : string) : string := String.substring 0 n s.

(** [s.endsWith(suffix)]: some tail of [s] is [suffix]. *)
Fixpoint endsWith (suffix s : string) : bool :=
  String.eqb s suffix
  || match s with
     | EmptyString => false
     | String _ s' => endsWith suffix s'
     end.

(** [parseInt(s)] on an unsigned decimal numeral, the only kind of string
    the catalog passes to it: the value of the longest prefix of decimal
    digits, [None] (NaN) when there is none. *)
Fixpoint digitsPrefix (acc : Z) (s : string) : Z :=
  match s with
  | String c s' =>
      if isDigit c then digitsPrefix (acc * 10 + digitValue c) s' else acc
  | EmptyString => acc
  end.

Definition parseInt (s : string) : option Z :=
  match s with
  | String c _ => if isDigit c then Some (digitsPrefix 0 s) else None
  | EmptyString => None
  end.

(** *** Regular expressions made of single-character atoms

    Enough for the catalog's pattern: literals, [\d], and capture groups
    around runs of atoms; every atom consumes exactly one character, so
    matching at a position needs no backtracking. *)
Inductive atom := Lit (c : ascii) | DigitClass.

Definition atomMatches (a : atom) (c : ascii) : bool :=
  match a with
  | Lit x => Ascii.eqb x c
  | DigitClass => isDigit c
  end.

Inductive piece := Plain (p : list atom) | Group (p : list atom).

Fixpoint lits (s : string) : list atom :=
  match s with
  | EmptyString => []
  | String c s' => Lit c :: lits s'
  end.

(** Consume one character per atom: the matched text and what follows. *)
Fixpoint eat (p : list atom) (s : string) : option (string * string) :=
  match p with
  | [] => Some (EmptyString, s)
  | a :: p' =>
      match s with
      | EmptyString => None
      | String c s' =>
          if atomMatches a c then
            match eat p' s' with
            | Some (m, rest) => Some (String c m, rest)
            | None => None
            end
          else None
      end
  end.

(** Match the whole expression at the head of [s]: the captured groups. *)
Fixpoint matchHere (re : list piece) (s : string) : option (list string) :=
  match re with
  | [] => Some []
  | Plain p :: re' =>
      match eat p s with
      | Some (_, rest) => matchHere re' rest
      | None => None
      end
  | Group p :: re' =>
      match eat p s with
      | Some (m, rest) =>
          match matchHere re' rest with
          | Some caps => Some (m :: caps)
          | None => None
          end
      | None => None
      end
  end.

(** [s.match(re)] for a non-global, unanchored expression: the captures of
    the leftmost match, [None] for [null]. *)
Fixpoint reMatch (re : list piece) (s : string) : option (list string) :=
  match matchHere re s with
  | Some caps => Some caps
  | None =>
      match s with
      | EmptyString => None
      | String _ s' => reMatch re s'
      end
  end.

End JSString.

(** [Date.prototype.toISOString]: [YYYY-MM-DDTHH:mm:ss.sssZ] in UTC, the
    year widened to a sign and six digits outside 0..9999. *)
Module ISO.
Import JSDate JSString.
Local Open Scope Z_scope.

Definition isoYear (y : Z) : string :=
  if (0 <=? y) && (y <=? 9999) then padDigits 4 y EmptyString
  else String (if y <? 0 then "-"%char else "+"%char)
              (padDigits 6 (Z.abs y) EmptyString).

Definition toISOString (t : Z) : string :=
  concat [ isoYear (YearFromTime t); "-"%string;
           padDigits 2 (MonthFromTime t + 1) EmptyString; "-"%string;
           padDigits 2 (DateFromTime t) EmptyString; "T"%string;
           padDigits 2 (HourFromTime t) EmptyString; ":"%string;
           padDigits 2 (MinFromTime t) EmptyString; ":"%string;
           padDigits 2 (SecFromTime t) EmptyString; "."%string;
           padDigits 3 (msFromTime t) EmptyString; "Z"%string ].

End ISO.

(* ===================================================================== *)
(** ** Artifact filenames                                                 *)
(* ===================================================================== *)

Module Filename.
Import JSDate JSString ISO.

Definition isColonOrDot (c : ascii) : bool :=
  Ascii.eqb c ":"%char || Ascii.eqb c "."%char.

(** [generateFilename], with [now] the value of [new Date()]. *)
Definition generateFilename (now : Z) : string :=
  let timestamp :=
    slice0 19 (replaceFirst "T"%char "-"%string
                 (replaceClassAll isColonOrDot "-"%string (toISOString now))) in
  concat [ "recording-"%string; timestamp; ".webm"%string ].

(** The name spelled out from the UTC fields of [t]; [generateFilename]
    produces it when the UTC year has four digits. *)
Definition filenameOfFields (t : Z) : string :=
  concat [ "recording-"%string;
           padDigits 4 (YearFromTime t) EmptyString; "-"%string;
           padDigits 2 (MonthFromTime t + 1) EmptyString; "-"%string;
           padDigits 2 (DateFromTime t) EmptyString; "-"%string;
           padDigits 2 (HourFromTime t) EmptyString; "-"%string;
           padDigits 2 (MinFromTime t) EmptyString; "-"%string;
           padDigits 2 (SecFromTime t) EmptyString; ".webm"%string ].

Definition digits (n : nat) : list atom := repeat DigitClass n.

(** [/recording-(\d{4})-(\d{2})-(\d{2})-(\d{2})-(\d{2})-(\d{2})\.webm/] *)
Definition recordingPattern : list piece :=
  [ Plain (lits "recording-"); Group (digits 4);
    Plain (lits "-"); Group (digits 2);
    Plain (lits "-"); Group (digits 2);
    Plain (lits "-"); Group (digits 2);
    Plain (lits "-"); Group (digits 2);
    Plain (lits "-"); Group (digits 2);
    Plain (lits ".webm") ].

(** A JavaScript number that may be NaN, and a [Date] that may be invalid. *)
Definition number := option Z.

Definition newDateN (h : Host) (year month date hours minutes seconds : number)
  : option Z :=
  match year, month, date, hours, minutes, seconds with
  | Some y, Some mo, Some d, Some hh, Some mi, Some s =>
      Some (newDate h y mo d hh mi s)
  | _, _, _, _, _, _ => None
  end.

Definition minus1 (n : number) : number :=
  match n with Some v => Some (v - 1)%Z | None => None end.

(** The timestamp the catalog gives an entry called [name] whose file was
    last modified at [lastModified] (lines 189-204 of [loadRecordings]). *)
Definition deriveTimestamp (h : Host) (name : string) (lastModified : Z)
  : option Z :=
  match reMatch recordingPattern name with
  | Some [year; month; day; hour; min; sec] =>
      newDateN h (parseInt year) (minus1 (parseInt month)) (parseInt day)
                 (parseInt hour) (parseInt min) (parseInt sec)
  | Some _ => None (* six groups always: destructuring never misses *)
  | None => Some lastModified
  end.

End Filename.

(* ===================================================================== *)
(** ** Recordings catalog: the folder scan                                *)
(* ===================================================================== *)

Module Catalog.
Import JSDate JSString Filename.
Local Open Scope Z_scope.

Record JSError := { errName : string; errMessage : string }.

Record File := { lastModified : Z; fileSize : Z }.

Inductive EntryKind := KindFile | KindDirectory.

(** A [FileSystemHandle] as the scan sees it; [getFile] is [None] when
    the promise of [getFile()] rejects. *)
Record Entry := {
  kind : EntryKind;
  name : string;
  getFile : option File
}.

(** What [folderHandle.values()] delivers to a [for await] loop: entries
    one by one, until the iterator is exhausted or throws. *)
Inductive Listing :=
| Done
| Yield (entry : Entry) (rest : Listing)
| Throw (err : JSError).

Record RecordingMetadata := {
  filename : string;
  timestamp : option Z;
  size : Z;
  fileHandle : Entry
}.

Definition isFileKind (k : EntryKind) : bool :=
  match k with KindFile => true | KindDirectory => false end.

(** The body of the [for await] loop (lines 181-217), threading
    [recordingsList]. *)
Fixpoint scan (h : Host) (l : Listing) (recordingsList : list RecordingMetadata)
  : JSError + list RecordingMetadata :=
  match l with
  | Done => inr recordingsList
  | Throw err => inl err
  | Yield entry rest =>
      if isFileKind (kind entry) && endsWith ".webm" (name entry) then
        match getFile entry with
        | Some file =>
            scan h rest
              (recordingsList ++
                 [ {| filename := name entry;
                      timestamp := deriveTimestamp h (name entry) (lastModified file);
                      size := fileSize file;
                      fileHandle := entry |} ])
        | None => scan h rest recordingsList
        end
      else scan h rest recordingsList
  end.

(** [Array.prototype.sort(comparefn)]. ECMA-262 leaves the algorithm to
    the engine but requires a stable sort, so for a consistent comparator
    the result is fixed; an insertion sort that keeps ties in their
    original order computes it. A NaN from the comparator counts as +0. *)
Definition sortCompare {A} (comparefn : A -> A -> number) (x y : A) : Z :=
  match comparefn x y with Some v => v | None => 0 end.

Fixpoint insertSorted {A} (comparefn : A -> A -> number) (x : A) (l : list A)
  : list A :=
  match l with
  | [] => [x]
  | y :: l' =>
      if sortCompare comparefn x y <=? 0 then x :: l
      else y :: insertSorted comparefn x l'
  end.

Fixpoint arraySort {A} (comparefn : A -> A -> number) (l : list A) : list A :=
  match l with
  | [] => []
  | x :: l' => insertSorted comparefn x (arraySort comparefn l')
  end.

(** [(a, b) => b.timestamp.getTime() - a.timestamp.getTime()] *)
Definition newestFirst (a b : RecordingMetadata) : number :=
  match timestamp b, timestamp a with
  | Some tb, Some ta => Some (tb - ta)
  | _, _ => None
  end.

(** The catalog produced by one scan of a live folder: the sorted list,
    or the error thrown by the enumeration. *)
Definition refresh (h : Host) (l : Listing) : JSError + list RecordingMetadata :=
  match scan h l [] with
  | inr recordingsList => inr (arraySort newestFirst recordingsList)
  | inl err => inl err
  end.

(** *** Vocabulary for statements about a scan *)

(** The entries a listing yields before it ends or throws. *)
Fixpoint entriesOf (l : Listing) : list Entry :=
  match l with
  | Done => []
  | Throw _ => []
  | Yield entry rest => entry :: entriesOf rest
  end.

(** The catalog record one entry contributes: none for a directory, a
    name without the suffix, or a file that cannot be opened. *)
Definition metadataOf (h : Host) (entry : Entry) : list RecordingMetadata :=
  if isFileKind (kind entry) && endsWith ".webm" (name entry) then
    match getFile entry with
    | Some file =>
        [ {| filename := name entry;
             timestamp := deriveTimestamp h (name entry) (lastModified file);
             size := fileSize file;
             fileHandle := entry |} ]
    | None => []
    end
  else [].

(** [a] may stand before [b] in a newest-first list: both timestamps are
    valid dates and [b]'s is not later than [a]'s. *)
Definition newerOrSame (a b : RecordingMetadata) : Prop :=
  exists ta tb, timestamp a = Some ta /\ timestamp b = Some tb /\ tb <= ta.

End Catalog.

(* ===================================================================== *)
(** ** The App component: state, handlers, controls                       *)
(* ===================================================================== *)

Module App.
Import JSDate JSString Filename Catalog.
Local Open Scope Z_scope.

Notation "s |> f" := (f s) (at level 45, left associativity, only parsing).

Definition MIC_ENABLED_KEY : string := "loom-clone-mic-enabled".
Definition CAMERA_ENABLED_KEY : string := "loom-clone-camera-enabled".
Definition SCREEN_ENABLED_KEY : string := "loom-clone-screen-enabled".

Definition stringOfBool (b : bool) : string := if b then "true" else "false".

(** *** Media objects *)

Inductive TrackKind := Audio | Video.

(** A [MediaStreamTrack] as delivered by the platform; [trackId] stands
    for the identity of the object. *)
Record RawTrack := { trackKind : TrackKind; trackId : nat }.

Definition isVideo (t : RawTrack) : bool :=
  match trackKind t with Video => true | Audio => false end.
Definition isAudio (t : RawTrack) : bool :=
  match trackKind t with Audio => true | Video => false end.

Definition rawTrackEqb (a b : RawTrack) : bool :=
  Nat.eqb (trackId a) (trackId b).

(** [stream.getVideoTracks()[0]] and [stream.getAudioTracks()[0]]. *)
Definition firstVideoTrack (stream : list RawTrack) : option RawTrack :=
  head (List.filter isVideo stream).
Definition firstAudioTrack (stream : list RawTrack) : option RawTrack :=
  head (List.filter isAudio stream).

(** A track of the combined stream, tagged with the capture call that
    produced it: [getDisplayMedia] (the screen handle), the camera
    [getUserMedia], or the microphone [getUserMedia]. Tracks of different
    calls are different objects. *)
Inductive Track :=
| FromScreen (t : RawTrack)
| FromCamera (t : RawTrack)
| FromMic (t : RawTrack).

Definition isScreenVideo (t : Track) : bool :=
  match t with FromScreen r => isVideo r | _ => false end.
Definition isCameraVideo (t : Track) : bool :=
  match t with FromCamera r => isVideo r | _ => false end.

(** [screenStream.getTracks().includes(track)] *)
Definition screenIncludes (screen : list RawTrack) (t : Track) : bool :=
  match t with
  | FromScreen r => existsb (rawTrackEqb r) screen
  | _ => false
  end.

Record Blob := { blobType : string; blobData : list Byte.byte }.

Definition blobSize (b : Blob) : Z := Z.of_nat (List.length (blobData b)).

(** [new Blob(parts, { type })] *)
Definition newBlob (parts : list Blob) (type : string) : Blob :=
  {| blobType := type; blobData := List.concat (map blobData parts) |}.

Record FolderHandle := { folderName : string }.

Inductive RecorderState := Inactive | Recording.

(** A [MediaRecorder] with what its [onstop] closure captured when the
    handlers were installed: [screenStream], the [folderHandle] inside
    [saveRecording], and [mimeType]. *)
Record MediaRecorder := {
  recorderStream : list Track;
  recorderMimeType : string;
  recorderState : RecorderState;
  capturedScreenStream : option (list RawTrack);
  capturedFolderHandle : option FolderHandle
}.

Definition stopRecorder (r : MediaRecorder) : MediaRecorder :=
  {| recorderStream := recorderStream r;
     recorderMimeType := recorderMimeType r;
     recorderState := Inactive;
     capturedScreenStream := capturedScreenStream r;
     capturedFolderHandle := capturedFolderHandle r |}.

(** External calls, in the order the handlers make them. *)
Inductive Effect :=
| GetUserMediaVideo (exactDeviceId : option string)
| GetUserMediaAudio (exactDeviceId : option string)
| TrackStop (t : Track)
| RecorderStart (timeslice : Z)
| RecorderStop
| SetInterval (id : nat)
| ClearInterval (id : nat)
| GetFileHandleCreate (name : string)
| FileWritten (name : string) (blob : Blob)
| Download (name : string) (blob : Blob)
| ConsoleError (what : string)
| ClearSaveSuccessLater.

(** The component's state: the [useState] cells, the [useRef] cells, and
    the parts of the browser the handlers act on ([localStorage], the armed
    interval timers, and a log of the external calls they make). *)
Record State := {
  folderHandle : option FolderHandle;
  deviceError : option string;
  selectedMicId : string;
  selectedCameraId : string;
  isMicEnabled : bool;
  isCameraEnabled : bool;
  isScreenEnabled : bool;
  screenStream : option (list RawTrack);
  isRecording : bool;
  recordingError : option string;
  recordingDuration : Z;
  saveSuccess : option string;
  recordings : list RecordingMetadata;
  isLoadingRecordings : bool;
  playbackError : option string;
  mediaRecorder : option MediaRecorder;
  recordedChunks : list Blob;
  mediaStream : option (list Track);
  recordingTimer : option nat;
  localStorage : gmap string string;
  activeIntervals : list nat;
  effects : list Effect
}.

Definition setIsMicEnabled (v : bool) (s : State) : State :=
  {| folderHandle := folderHandle s; deviceError := deviceError s;
     selectedMicId := selectedMicId s; selectedCameraId := selectedCameraId s;
     isMicEnabled := v; isCameraEnabled := isCameraEnabled s; isScreenEnabled
     := isScreenEnabled s; screenStream := screenStream s; isRecording :=
     isRecording s; recordingError := recordingError s; recordingDuration :=
     recordingDuration s; saveSuccess := saveSuccess s; recordings :=
     recordings s; isLoadingRecordings := isLoadingRecordings s; playbackError
     := playbackError s; mediaRecorder := mediaRecorder s; recordedChunks :=
     recordedChunks s; mediaStream := mediaStream s; recordingTimer :=
     recordingTimer s; localStorage := localStorage s; activeIntervals :=
     activeIntervals s; effects := effects s |}.

Definition setIsCameraEnabled (v : bool) (s : State) : State :=
  {| folderHandle := folderHandle s; deviceError := deviceError s;
     selectedMicId := selectedMicId s; selectedCameraId := selectedCameraId s;
     isMicEnabled := isMicEnabled s; isCameraEnabled := v; isScreenEnabled :=
     isScreenEnabled s; screenStream := screenStream s; isRecording :=
     isRecording s; recordingError := recordingError s; recordingDuration :=
     recordingDuration s; saveSuccess := saveSuccess s; recordings :=
     recordings s; isLoadingRecordings := isLoadingRecordings s; playbackError
     := playbackError s; mediaRecorder := mediaRecorder s; recordedChunks :=
     recordedChunks s; mediaStream := mediaStream s; recordingTimer :=
     recordingTimer s; localStorage := localStorage s; activeIntervals :=
     activeIntervals s; effects := effects s |}.

Definition setIsScreenEnabled (v : bool) (s : State) : State :=
  {| folderHandle := folderHandle s; deviceError := deviceError s;
     selectedMicId := selectedMicId s; selectedCameraId := selectedCameraId s;
     isMicEnabled := isMicEnabled s; isCameraEnabled := isCameraEnabled s;
     isScreenEnabled := v; screenStream := screenStream s; isRecording :=
     isRecording s; recordingError := recordingError s; recordingDuration :=
     recordingDuration s; saveSuccess := saveSuccess s; recordings :=
     recordings s; isLoadingRecordings := isLoadingRecordings s; playbackError
     := playbackError s; mediaRecorder := mediaRecorder s; recordedChunks :=
     recordedChunks s; mediaStream := mediaStream s; recordingTimer :=
     recordingTimer s; localStorage := localStorage s; activeIntervals :=
     activeIntervals s; effects := effects s |}.

Definition setScreenStream (v : option (list RawTrack)) (s : State) : State :=
  {| folderHandle := folderHandle s; deviceError := deviceError s;
     selectedMicId := selectedMicId s; selectedCameraId := selectedCameraId s;
     isMicEnabled := isMicEnabled s; isCameraEnabled := isCameraEnabled s;
     isScreenEnabled := isScreenEnabled s; screenStream := v; isRecording :=
     isRecording s; recordingError := recordingError s; recordingDuration :=
     recordingDuration s; saveSuccess := saveSuccess s; recordings :=
     recordings s; isLoadingRecordings := isLoadingRecordings s; playbackError
     := playbackError s; mediaRecorder := mediaRecorder s; recordedChunks :=
     recordedChunks s; mediaStream := mediaStream s; recordingTimer :=
     recordingTimer s; localStorage := localStorage s; activeIntervals :=
     activeIntervals s; effects := effects s |}.

Definition setIsRecording (v : bool) (s : State) : State :=
  {| folderHandle := folderHandle s; deviceError := deviceError s;
     selectedMicId := selectedMicId s; selectedCameraId := selectedCameraId s;
     isMicEnabled := isMicEnabled s; isCameraEnabled := isCameraEnabled s;
     isScreenEnabled := isScreenEnabled s; screenStream := screenStream s;
     isRecording := v; recordingError := recordingError s; recordingDuration
     := recordingDuration s; saveSuccess := saveSuccess s; recordings :=
     recordings s; isLoadingRecordings := isLoadingRecordings s; playbackError
     := playbackError s; mediaRecorder := mediaRecorder s; recordedChunks :=
     recordedChunks s; mediaStream := mediaStream s; recordingTimer :=
     recordingTimer s; localStorage := localStorage s; activeIntervals :=
     activeIntervals s; effects := effects s |}.

Definition setRecordingError (v : option string) (s : State) : State :=
  {| folderHandle := folderHandle s; deviceError := deviceError s;
     selectedMicId := selectedMicId s; selectedCameraId := selectedCameraId s;
     isMicEnabled := isMicEnabled s; isCameraEnabled := isCameraEnabled s;
     isScreenEnabled := isScreenEnabled s; screenStream := screenStream s;
     isRecording := isRecording s; recordingError := v; recordingDuration :=
     recordingDuration s; saveSuccess := saveSuccess s; recordings :=
     recordings s; isLoadingRecordings := isLoadingRecordings s; playbackError
     := playbackError s; mediaRecorder := mediaRecorder s; recordedChunks :=
     recordedChunks s; mediaStream := mediaStream s; recordingTimer :=
     recordingTimer s; localStorage := localStorage s; activeIntervals :=
     activeIntervals s; effects := effects s |}.

Definition setRecordingDuration (v : Z) (s : State) : State :=
  {| folderHandle := folderHandle s; deviceError := deviceError s;
     selectedMicId := selectedMicId s; selectedCameraId := selectedCameraId s;
     isMicEnabled := isMicEnabled s; isCameraEnabled := isCameraEnabled s;
     isScreenEnabled := isScreenEnabled s; screenStream := screenStream s;
     isRecording := isRecording s; recordingError := recordingError s;
     recordingDuration := v; saveSuccess := saveSuccess s; recordings :=
     recordings s; isLoadingRecordings := isLoadingRecordings s; playbackError
     := playbackError s; mediaRecorder := mediaRecorder s; recordedChunks :=
     recordedChunks s; mediaStream := mediaStream s; recordingTimer :=
     recordingTimer s; localStorage := localStorage s; activeIntervals :=
     activeIntervals s; effects := effects s |}.

Definition setSaveSuccess (v : option string) (s : State) : State :=
  {| folderHandle := folderHandle s; deviceError := deviceError s;
     selectedMicId := selectedMicId s; selectedCameraId := selectedCameraId s;
     isMicEnabled := isMicEnabled s; isCameraEnabled := isCameraEnabled s;
     isScreenEnabled := isScreenEnabled s; screenStream := screenStream s;
     isRecording := isRecording s; recordingError := recordingError s;
     recordingDuration := recordingDuration s; saveSuccess := v; recordings :=
     recordings s; isLoadingRecordings := isLoadingRecordings s; playbackError
     := playbackError s; mediaRecorder := mediaRecorder s; recordedChunks :=
     recordedChunks s; mediaStream := mediaStream s; recordingTimer :=
     recordingTimer s; localStorage := localStorage s; activeIntervals :=
     activeIntervals s; effects := effects s |}.

Definition setRecordings (v : list RecordingMetadata) (s : State) : State :=
  {| folderHandle := folderHandle s; deviceError := deviceError s;
     selectedMicId := selectedMicId s; selectedCameraId := selectedCameraId s;
     isMicEnabled := isMicEnabled s; isCameraEnabled := isCameraEnabled s;
     isScreenEnabled := isScreenEnabled s; screenStream := screenStream s;
     isRecording := isRecording s; recordingError := recordingError s;
     recordingDuration := recordingDuration s; saveSuccess := saveSuccess s;
     recordings := v; isLoadingRecordings := isLoadingRecordings s;
     playbackError := playbackError s; mediaRecorder := mediaRecorder s;
     recordedChunks := recordedChunks s; mediaStream := mediaStream s;
     recordingTimer := recordingTimer s; localStorage := localStorage s;
     activeIntervals := activeIntervals s; effects := effects s |}.

Definition setIsLoadingRecordings (v : bool) (s : State) : State :=
  {| folderHandle := folderHandle s; deviceError := deviceError s;
     selectedMicId := selectedMicId s; selectedCameraId := selectedCameraId s;
     isMicEnabled := isMicEnabled s; isCameraEnabled := isCameraEnabled s;
     isScreenEnabled := isScreenEnabled s; screenStream := screenStream s;
     isRecording := isRecording s; recordingError := recordingError s;
     recordingDuration := recordingDuration s; saveSuccess := saveSuccess s;
     recordings := recordings s; isLoadingRecordings := v; playbackError :=
     playbackError s; mediaRecorder := mediaRecorder s; recordedChunks :=
     recordedChunks s; mediaStream := mediaStream s; recordingTimer :=
     recordingTimer s; localStorage := localStorage s; activeIntervals :=
     activeIntervals s; effects := effects s |}.

Definition setPlaybackError (v : option string) (s : State) : State :=
  {| folderHandle := folderHandle s; deviceError := deviceError s;
     selectedMicId := selectedMicId s; selectedCameraId := selectedCameraId s;
     isMicEnabled := isMicEnabled s; isCameraEnabled := isCameraEnabled s;
     isScreenEnabled := isScreenEnabled s; screenStream := screenStream s;
     isRecording := isRecording s; recordingError := recordingError s;
     recordingDuration := recordingDuration s; saveSuccess := saveSuccess s;
     recordings := recordings s; isLoadingRecordings := isLoadingRecordings s;
     playbackError := v; mediaRecorder := mediaRecorder s; recordedChunks :=
     recordedChunks s; mediaStream := mediaStream s; recordingTimer :=
     recordingTimer s; localStorage := localStorage s; activeIntervals :=
     activeIntervals s; effects := effects s |}.

Definition setMediaRecorder (v : option MediaRecorder) (s : State) : State :=
  {| folderHandle := folderHandle s; deviceError := deviceError s;
     selectedMicId := selectedMicId s; selectedCameraId := selectedCameraId s;
     isMicEnabled := isMicEnabled s; isCameraEnabled := isCameraEnabled s;
     isScreenEnabled := isScreenEnabled s; screenStream := screenStream s;
     isRecording := isRecording s; recordingError := recordingError s;
     recordingDuration := recordingDuration s; saveSuccess := saveSuccess s;
     recordings := recordings s; isLoadingRecordings := isLoadingRecordings s;
     playbackError := playbackError s; mediaRecorder := v; recordedChunks :=
     recordedChunks s; mediaStream := mediaStream s; recordingTimer :=
     recordingTimer s; localStorage := localStorage s; activeIntervals :=
     activeIntervals s; effects := effects s |}.

Definition setRecordedChunks (v : list Blob) (s : State) : State :=
  {| folderHandle := folderHandle s; deviceError := deviceError s;
     selectedMicId := selectedMicId s; selectedCameraId := selectedCameraId s;
     isMicEnabled := isMicEnabled s; isCameraEnabled := isCameraEnabled s;
     isScreenEnabled := isScreenEnabled s; screenStream := screenStream s;
     isRecording := isRecording s; recordingError := recordingError s;
     recordingDuration := recordingDuration s; saveSuccess := saveSuccess s;
     recordings := recordings s; isLoadingRecordings := isLoadingRecordings s;
     playbackError := playbackError s; mediaRecorder := mediaRecorder s;
     recordedChunks := v; mediaStream := mediaStream s; recordingTimer :=
     recordingTimer s; localStorage := localStorage s; activeIntervals :=
     activeIntervals s; effects := effects s |}.

Definition setMediaStream (v : option (list Track)) (s : State) : State :=
  {| folderHandle := folderHandle s; deviceError := deviceError s;
     selectedMicId := selectedMicId s; selectedCameraId := selectedCameraId s;
     isMicEnabled := isMicEnabled s; isCameraEnabled := isCameraEnabled s;
     isScreenEnabled := isScreenEnabled s; screenStream := screenStream s;
     isRecording := isRecording s; recordingError := recordingError s;
     recordingDuration := recordingDuration s; saveSuccess := saveSuccess s;
     recordings := recordings s; isLoadingRecordings := isLoadingRecordings s;
     playbackError := playbackError s; mediaRecorder := mediaRecorder s;
     recordedChunks := recordedChunks s; mediaStream := v; recordingTimer :=
     recordingTimer s; localStorage := localStorage s; activeIntervals :=
     activeIntervals s; effects := effects s |}.

Definition setRecordingTimer (v : option nat) (s : State) : State :=
  {| folderHandle := folderHandle s; deviceError := deviceError s;
     selectedMicId := selectedMicId s; selectedCameraId := selectedCameraId s;
     isMicEnabled := isMicEnabled s; isCameraEnabled := isCameraEnabled s;
     isScreenEnabled := isScreenEnabled s; screenStream := screenStream s;
     isRecording := isRecording s; recordingError := recordingError s;
     recordingDuration := recordingDuration s; saveSuccess := saveSuccess s;
     recordings := recordings s; isLoadingRecordings := isLoadingRecordings s;
     playbackError := playbackError s; mediaRecorder := mediaRecorder s;
     recordedChunks := recordedChunks s; mediaStream := mediaStream s;
     recordingTimer := v; localStorage := localStorage s; activeIntervals :=
     activeIntervals s; effects := effects s |}.

Definition setLocalStorage (v : gmap string string) (s : State) : State :=
  {| folderHandle := folderHandle s; deviceError := deviceError s;
     selectedMicId := selectedMicId s; selectedCameraId := selectedCameraId s;
     isMicEnabled := isMicEnabled s; isCameraEnabled := isCameraEnabled s;
     isScreenEnabled := isScreenEnabled s; screenStream := screenStream s;
     isRecording := isRecording s; recordingError := recordingError s;
     recordingDuration := recordingDuration s; saveSuccess := saveSuccess s;
     recordings := recordings s; isLoadingRecordings := isLoadingRecordings s;
     playbackError := playbackError s; mediaRecorder := mediaRecorder s;
     recordedChunks := recordedChunks s; mediaStream := mediaStream s;
     recordingTimer := recordingTimer s; localStorage := v; activeIntervals :=
     activeIntervals s; effects := effects s |}.

Definition setActiveIntervals (v : list nat) (s : State) : State :=
  {| folderHandle := folderHandle s; deviceError := deviceError s;
     selectedMicId := selectedMicId s; selectedCameraId := selectedCameraId s;
     isMicEnabled := isMicEnabled s; isCameraEnabled := isCameraEnabled s;
     isScreenEnabled := isScreenEnabled s; screenStream := screenStream s;
     isRecording := isRecording s; recordingError := recordingError s;
     recordingDuration := recordingDuration s; saveSuccess := saveSuccess s;
     recordings := recordings s; isLoadingRecordings := isLoadingRecordings s;
     playbackError := playbackError s; mediaRecorder := mediaRecorder s;
     recordedChunks := recordedChunks s; mediaStream := mediaStream s;
     recordingTimer := recordingTimer s; localStorage := localStorage s;
     activeIntervals := v; effects := effects s |}.

Definition setEffects (v : list Effect) (s : State) : State :=
  {| folderHandle := folderHandle s; deviceError := deviceError s;
     selectedMicId := selectedMicId s; selectedCameraId := selectedCameraId s;
     isMicEnabled := isMicEnabled s; isCameraEnabled := isCameraEnabled s;
     isScreenEnabled := isScreenEnabled s; screenStream := screenStream s;
     isRecording := isRecording s; recordingError := recordingError s;
     recordingDuration := recordingDuration s; saveSuccess := saveSuccess s;
     recordings := recordings s; isLoadingRecordings := isLoadingRecordings s;
     playbackError := playbackError s; mediaRecorder := mediaRecorder s;
     recordedChunks := recordedChunks s; mediaStream := mediaStream s;
     recordingTimer := recordingTimer s; localStorage := localStorage s;
     activeIntervals := activeIntervals s; effects := v |}.
(** *** Small helpers for the handlers *)

Definition setItem (key value : string) (s : State) : State :=
  setLocalStorage (<[key := value]> (localStorage s)) s.

Definition emit (e : Effect) (s : State) : State :=
  setEffects (effects s ++ [e]) s.

Definition emitAll (es : list Effect) (s : State) : State :=
  setEffects (effects s ++ es) s.

Definition isSome {A} (o : option A) : bool :=
  match o with Some _ => true | None => false end.

(** Truthiness of a [string | null] cell. *)
Definition truthy (o : option string) : bool :=
  match o with Some v => negb (String.eqb v "") | None => false end.

(** *** Source toggles (lines 255-305) *)

Definition handleToggleMic (s : State) : State :=
  let newState := negb (isMicEnabled s) in
  s |> setIsMicEnabled newState
    |> setItem MIC_ENABLED_KEY (stringOfBool newState).

Definition handleToggleCamera (s : State) : State :=
  let newState := negb (isCameraEnabled s) in
  s |> setIsCameraEnabled newState
    |> setItem CAMERA_ENABLED_KEY (stringOfBool newState).

(** The answer of [getDisplayMedia({ video: true, audio: false })]: a
    stream, which then has a video track, or a rejection. *)
Inductive DisplayMedia :=
| DisplayStream (video : RawTrack) (others : list RawTrack)
| DisplayError (err : JSError).

Definition handleToggleScreen (resp : DisplayMedia) (s : State) : State :=
  if isScreenEnabled s then
    (match screenStream s with
     | Some stream =>
         s |> emitAll (map (fun t => TrackStop (FromScreen t)) stream)
           |> setScreenStream None
     | None => s
     end)
    |> setIsScreenEnabled false
    |> setItem SCREEN_ENABLED_KEY "false"
  else
    match resp with
    | DisplayStream video others =>
        s |> setScreenStream (Some (video :: others))
          |> setIsScreenEnabled true
          |> setItem SCREEN_ENABLED_KEY "true"
    | DisplayError err =>
        (if negb (String.eqb (errName err) "NotAllowedError")
         then setRecordingError
                (Some (String.append "Failed to capture screen: " (errMessage err))) s
         else s)
        |> setIsScreenEnabled false
        |> setItem SCREEN_ENABLED_KEY "false"
    end.

(** The [onended] observer installed on the screen video track. *)
Definition screenEnded (s : State) : State :=
  s |> setScreenStream None
    |> setIsScreenEnabled false
    |> setItem SCREEN_ENABLED_KEY "false".

(** *** Catalog refresh (lines 168-235) *)

Definition loadErrorMessage (err : JSError) : string :=
  if String.eqb (errName err) "NotAllowedError"
  then "Folder access was revoked. Please re-select the folder."
  else String.append "Failed to load recordings: " (errMessage err).

(** [folder] is the [folderHandle] the callback closed over, [l] what the
    folder enumerates to during this call. *)
Definition loadRecordings (h : Host) (folder : option FolderHandle) (l : Listing)
  (s : State) : State :=
  match folder with
  | None => setRecordings [] s
  | Some _ =>
      let s := s |> setIsLoadingRecordings true |> setPlaybackError None in
      (match refresh h l with
       | inr recordingsList => setRecordings recordingsList s
       | inl err =>
           s |> setPlaybackError (Some (loadErrorMessage err))
             |> setRecordings []
       end)
      |> setIsLoadingRecordings false
  end.

(** *** Persistence (lines 399-431) *)

(** How the structured write through the folder handle goes: which of
    its four awaited steps rejects, if any. *)
Inductive WriteOutcome :=
| GetFileHandleFails (err : JSError)
| CreateWritableFails (err : JSError)
| WriteFails (err : JSError)
| CloseFails (err : JSError)
| WriteSucceeds.

Record SaveInputs := {
  now : Z;
  writeOutcome : WriteOutcome;
  listing : Listing
}.

Definition downloadFallback (filename : string) (blob : Blob) (s : State) : State :=
  s |> emit (Download filename blob)
    |> setSaveSuccess (Some (String.append "Recording downloaded: " filename))
    |> emit ClearSaveSuccessLater.

Definition saveRecording (h : Host) (folder : option FolderHandle)
  (inp : SaveInputs) (blob : Blob) (s : State) : State :=
  let filename := generateFilename (now inp) in
  match folder with
  | Some _ =>
      match writeOutcome inp with
      | WriteSucceeds =>
          s |> emit (GetFileHandleCreate filename)
            |> emit (FileWritten filename blob)
            |> setSaveSuccess (Some (String.append "Recording saved: " filename))
            |> emit ClearSaveSuccessLater
            |> loadRecordings h folder (listing inp)
      | GetFileHandleFails _ =>
          s |> emit (ConsoleError "File System Access API save failed:")
            |> downloadFallback filename blob
      | CreateWritableFails _ | WriteFails _ | CloseFails _ =>
          s |> emit (GetFileHandleCreate filename)
            |> emit (ConsoleError "File System Access API save failed:")
            |> downloadFallback filename blob
      end
  | None => downloadFallback filename blob s
  end.

(** *** Starting a session (lines 434-577) *)

Record StartInputs := {
  cameraMedia : JSError + list RawTrack;
  micMedia : JSError + list RawTrack;
  isTypeSupported : string -> bool;
  constructorError : option JSError;
  startError : option JSError;
  intervalId : nat
}.

(** [id ? { deviceId: { exact: id } } : true] *)
Definition deviceConstraint (id : string) : option string :=
  if String.eqb id "" then None else Some id.

Definition optionToList {A} (o : option A) : list A :=
  match o with Some x => [x] | None => [] end.

(** The video branch of the track set (lines 459-475). *)
Definition videoTracks (inp : StartInputs) (s : State)
  : (JSError + list Track) * list Effect :=
  match isScreenEnabled s, screenStream s with
  | true, Some stream =>
      (inr (map FromScreen (optionToList (firstVideoTrack stream))), [])
  | _, _ =>
      if isCameraEnabled s then
        (match cameraMedia inp with
         | inr cameraStream =>
             inr (map FromCamera (optionToList (firstVideoTrack cameraStream)))
         | inl err => inl err
         end,
         [GetUserMediaVideo (deviceConstraint (selectedCameraId s))])
      else (inr [], [])
  end.

(** The audio branch (lines 477-487). *)
Definition audioTracks (inp : StartInputs) (s : State)
  : (JSError + list Track) * list Effect :=
  if isMicEnabled s then
    (match micMedia inp with
     | inr audioStream =>
         inr (map FromMic (optionToList (firstAudioTrack audioStream)))
     | inl err => inl err
     end,
     [GetUserMediaAudio (deviceConstraint (selectedMicId s))])
  else (inr [], []).

(** The tracks pushed onto [tracks], or the error that interrupts the
    build, with the acquisitions made on the way. *)
Definition buildTracks (inp : StartInputs) (s : State)
  : (JSError + list Track) * list Effect :=
  match videoTracks inp s with
  | (inl err, fx) => (inl err, fx)
  | (inr video, fx) =>
      match audioTracks inp s with
      | (inl err, fx') => (inl err, fx ++ fx')
      | (inr audio, fx') => (inr (video ++ audio), fx ++ fx')
      end
  end.

Definition chooseMimeType (supported : string -> bool) : string :=
  if supported "video/webm;codecs=vp9" then "video/webm;codecs=vp9"
  else if supported "video/webm;codecs=vp8" then "video/webm;codecs=vp8"
  else if supported "video/webm" then "video/webm"
  else "".

Definition startErrorMessage (err : JSError) : string :=
  if String.eqb (errName err) "NotAllowedError"
     || String.eqb (errName err) "PermissionDeniedError"
  then "Permission denied. Please allow access to your microphone and camera."
  else if String.eqb (errName err) "NotFoundError"
  then "Selected device not found. Please check your device settings."
  else if String.eqb (errName err) "NotReadableError"
  then "Device is already in use by another application."
  else String.append "Failed to start recording: " (errMessage err).

Definition armInterval (id : nat) (s : State) : State :=
  s |> emit (SetInterval id)
    |> setActiveIntervals (id :: activeIntervals s)
    |> setRecordingTimer (Some id).

Definition clearInterval (id : nat) (s : State) : State :=
  s |> emit (ClearInterval id)
    |> setActiveIntervals (List.filter (fun j => negb (Nat.eqb j id)) (activeIntervals s)).

Definition NO_SOURCE_MESSAGE : string :=
  "Please enable at least the microphone, camera, or screen recording.".
Definition NO_SCREEN_MESSAGE : string :=
  "Screen stream not available. Please re-enable screen recording.".

Definition handleStartRecording (inp : StartInputs) (s0 : State) : State :=
  let s := s0 |> setRecordingError None |> setSaveSuccess None
              |> setRecordedChunks [] in
  let hasVideoSource := isCameraEnabled s || isScreenEnabled s in
  let hasAudioSource := isMicEnabled s in
  if negb hasVideoSource && negb hasAudioSource then
    setRecordingError (Some NO_SOURCE_MESSAGE) s
  else if isScreenEnabled s && negb (isSome (screenStream s)) then
    setRecordingError (Some NO_SCREEN_MESSAGE) s
  else
    let catch (err : JSError) (s : State) :=
      setRecordingError (Some (startErrorMessage err)) s in
    let '(built, fx) := buildTracks inp s in
    let s := emitAll fx s in
    match built with
    | inl err => catch err s
    | inr tracks =>
        let s := setMediaStream (Some tracks) s in
        let mimeType := chooseMimeType (isTypeSupported inp) in
        match constructorError inp with
        | Some err => catch err s
        | None =>
            let recorder :=
              {| recorderStream := tracks;
                 recorderMimeType := mimeType;
                 recorderState := Inactive;
                 capturedScreenStream := screenStream s;
                 capturedFolderHandle := folderHandle s |} in
            let s := setMediaRecorder (Some recorder) s in
            match startError inp with
            | Some err => catch err s
            | None =>
                s |> setMediaRecorder
                       (Some {| recorderStream := tracks;
                                recorderMimeType := mimeType;
                                recorderState := Recording;
                                capturedScreenStream := screenStream s;
                                capturedFolderHandle := folderHandle s |})
                  |> emit (RecorderStart 1000)
                  |> setIsRecording true
                  |> setRecordingDuration 0
                  |> armInterval (intervalId inp)
            end
        end
    end.

(** *** The recorder's callbacks (lines 510-552) and the timer *)

Definition ondataavailable (data : option Blob) (s : State) : State :=
  match data with
  | Some d =>
      if 0 <? blobSize d then setRecordedChunks (recordedChunks s ++ [d]) s
      else s
  | None => s
  end.

(** [track => !screenStream || !screenStream.getTracks().includes(track)] *)
Definition stoppedAtFinalize (screen : option (list RawTrack)) (t : Track) : bool :=
  match screen with
  | None => true
  | Some stream => negb (screenIncludes stream t)
  end.

Definition onstop (h : Host) (r : MediaRecorder) (inp : SaveInputs) (s : State)
  : State :=
  let s :=
    match recordingTimer s with
    | Some id => s |> clearInterval id |> setRecordingTimer None
    | None => s
    end in
  let s :=
    match mediaStream s with
    | Some tracks =>
        s |> emitAll (map TrackStop
                        (List.filter (stoppedAtFinalize (capturedScreenStream r)) tracks))
          |> setMediaStream None
    | None => s
    end in
  let s :=
    match recordedChunks s with
    | [] => s
    | _ :: _ =>
        let type :=
          if String.eqb (recorderMimeType r) "" then "video/webm"%string
          else recorderMimeType r in
        saveRecording h (capturedFolderHandle r) inp
          (newBlob (recordedChunks s) type) s
    end in
  s |> setRecordedChunks [] |> setRecordingDuration 0.

Definition RECORDING_ERROR_MESSAGE : string :=
  "Recording error occurred. Please try again.".

Definition onerror (s : State) : State :=
  s |> emit (ConsoleError "MediaRecorder error:")
    |> setRecordingError (Some RECORDING_ERROR_MESSAGE)
    |> setIsRecording false.

(** One firing of the interval timer [id]:
    [setRecordingDuration(prev => prev + 1)], as long as it is armed. *)
Definition tick (id : nat) (s : State) : State :=
  if existsb (Nat.eqb id) (activeIntervals s)
  then setRecordingDuration (recordingDuration s + 1) s
  else s.



Definition handleStopRecording (s : State) : State :=
  (match mediaRecorder s with
   | Some r =>
       match recorderState r with
       | Recording =>
           s |> setMediaRecorder (Some (stopRecorder r)) |> emit RecorderStop
       | Inactive => s
       end
   | None => s
   end)
  |> setIsRecording false.

(** *** Controls: what the markup renders and when it is disabled *)

Inductive ControlId :=
| ToggleMicButton
| ToggleCameraButton
| ToggleScreenButton
| StartButton
| StopButton
| RefreshButton.

Record Control := { rendered : bool; disabled : bool }.

Definition control (s : State) (c : ControlId) : Control :=
  match c with
  | ToggleMicButton | ToggleCameraButton | ToggleScreenButton =>
      {| rendered := negb (truthy (deviceError s));
         disabled := isRecording s |}
  | StartButton =>
      {| rendered := negb (isRecording s);
         disabled :=
           negb (isSome (folderHandle s))
           || (negb (isMicEnabled s) && negb (isCameraEnabled s)
               && negb (isScreenEnabled s && isSome (screenStream s))) |}
  | StopButton =>
      {| rendered := isRecording s; disabled := false |}
  | RefreshButton =>
      {| rendered := isSome (folderHandle s) && negb (isRecording s);
         disabled := isLoadingRecordings s |}
  end.

(** A click, with the platform's answers to what its handler awaits. *)
Inductive Click :=
| ClickToggleMic
| ClickToggleCamera
| ClickToggleScreen (resp : DisplayMedia)
| ClickStart (inp : StartInputs)
| ClickStop
| ClickRefresh (l : Listing).

Definition target (c : Click) : ControlId :=
  match c with
  | ClickToggleMic => ToggleMicButton
  | ClickToggleCamera => ToggleCameraButton
  | ClickToggleScreen _ => ToggleScreenButton
  | ClickStart _ => StartButton
  | ClickStop => StopButton
  | ClickRefresh _ => RefreshButton
  end.

Definition onClick (h : Host) (c : Click) (s : State) : State :=
  match c with
  | ClickToggleMic => handleToggleMic s
  | ClickToggleCamera => handleToggleCamera s
  | ClickToggleScreen resp => handleToggleScreen resp s
  | ClickStart inp => handleStartRecording inp s
  | ClickStop => handleStopRecording s
  | ClickRefresh l => loadRecordings h (folderHandle s) l s
  end.

(** A control that is not rendered, or is rendered [disabled], does not
    deliver the click to its handler. *)
Definition click (h : Host) (c : Click) (s : State) : State :=
  let ctl := control s (target c) in
  if rendered ctl && negb (disabled ctl) then onClick h c s else s.

(** *** Vocabulary for statements about sessions *)

Definition isVideoTrack (t : Track) : bool :=
  match t with FromScreen r | FromCamera r | FromMic r => isVideo r end.

Definition requestsCamera (e : Effect) : bool :=
  match e with GetUserMediaVideo _ => true | _ => false end.

(** The artifacts a run of external calls leaves behind: a file committed
    to the folder, or a file handed to the browser's download. *)
Definition persistedBy (e : Effect) : list (string * Blob) :=
  match e with
  | FileWritten n b => [(n, b)]
  | Download n b => [(n, b)]
  | _ => []
  end.

Definition persisted (fx : list Effect) : list (string * Blob) :=
  flat_map persistedBy fx.

Definition opensFolderFile (e : Effect) : bool :=
  match e with GetFileHandleCreate _ => true | _ => false end.

End App.

(* ===================================================================== *)
(** ** Concrete hosts, files and states used in the examples              *)
(* ===================================================================== *)

Module Samples.
Import JSDate JSString Filename Catalog App.
Local Open Scope Z_scope.

(** A host on UTC and a host one hour east of it. *)
Definition utcHost : Host := {| LocalTZA := fun _ _ => 0 |}.
Definition utcPlus1Host : Host := {| LocalTZA := fun _ _ => 3600000 |}.

(** 2024-01-05T10:30:00.000Z *)
Definition jan5 : Z := 1704450600000.

(** +010000-01-01T00:00:00.000Z, the first instant after year 9999. *)
Definition year10000 : Z := 253402300800000.

Definition januaryName : string := "recording-2024-01-05-10-30-00.webm".
Definition marchName : string := "recording-2024-03-01-09-00-00.webm".

Definition fileEntry (n : string) (modified bytes : Z) : Entry :=
  {| kind := KindFile; name := n;
     getFile := Some {| lastModified := modified; fileSize := bytes |} |}.

(** An idle component with a live folder and only the microphone on. *)
Definition idle : State :=
  {| folderHandle := Some {| folderName := "Videos" |};
     deviceError := None;
     selectedMicId := ""; selectedCameraId := "";
     isMicEnabled := true; isCameraEnabled := false; isScreenEnabled := false;
     screenStream := None;
     isRecording := false; recordingError := None; recordingDuration := 0;
     saveSuccess := None;
     recordings := []; isLoadingRecordings := false; playbackError := None;
     mediaRecorder := None; recordedChunks := []; mediaStream := None;
     recordingTimer := None;
     localStorage := ∅; activeIntervals := []; effects := [] |}.

(** The platform grants the microphone and arms interval timer [id]. *)
Definition micGranted (id : nat) : StartInputs :=
  {| cameraMedia := inr [];
     micMedia := inr [ {| trackKind := Audio; trackId := 1 |} ];
     isTypeSupported := fun _ => true;
     constructorError := None; startError := None;
     intervalId := id |}.

Definition chunk : Blob :=
  {| blobType := "video/webm;codecs=vp9"; blobData := [Byte.x1a; Byte.x45] |}.

(** One second into a session: started from [idle], one chunk flushed,
    one tick of the clock. *)
Definition midSession : State :=
  idle |> click utcHost (ClickStart (micGranted 7))
       |> ondataavailable (Some chunk)
       |> tick 7.


Definition screenTrack : RawTrack := {| trackKind := Video; trackId := 10 |}.
Definition cameraTrack : RawTrack := {| trackKind := Video; trackId := 20 |}.
Definition micTrack : RawTrack := {| trackKind := Audio; trackId := 1 |}.

(** Camera switched on, then the screen shared: all three sources on. *)
Definition allSourcesOn : State :=
  idle |> click utcHost ClickToggleCamera
       |> click utcHost (ClickToggleScreen (DisplayStream screenTrack [])).

(** The platform grants camera and microphone and arms timer [id]. *)
Definition allGranted (id : nat) : StartInputs :=
  {| cameraMedia := inr [cameraTrack];
     micMedia := inr [micTrack];
     isTypeSupported := fun _ => true;
     constructorError := None; startError := None;
     intervalId := id |}.

End Samples.

(* ===================================================================== *)
(** ** Further vocabulary for statements about sessions and scans         *)
(* ===================================================================== *)

Module Observations.
Import JSDate JSString Filename Catalog App.
Local Open Scope Z_scope.

Definition isTrackStop (e : Effect) : bool :=
  match e with TrackStop _ => true | _ => false end.

(** The chunks a run of [dataavailable] events adds: the blobs that are
    present and not empty, in arrival order. *)
Definition keptData (events : list (option Blob)) : list Blob :=
  flat_map (fun d =>
              match d with
              | Some b => if 0 <? blobSize b then [b] else []
              | None => []
              end) events.

(** The recorder's [dataavailable] events delivered one after another. *)
Definition deliverData (events : list (option Blob)) (s : State) : State :=
  fold_left (fun st d => ondataavailable d st) events s.

(** The [type] the stop callback gives the blob: [mimeType || 'video/webm']. *)
Definition blobTypeOf (r : MediaRecorder) : string :=
  if String.eqb (recorderMimeType r) "" then "video/webm"
  else recorderMimeType r.

(** The external calls of one run of persistence, as [saveRecording]
    makes them for a folder handle, a write outcome, a name and a blob. *)
Definition persistenceCalls (folder : option FolderHandle) (w : WriteOutcome)
  (filename : string) (blob : Blob) : list Effect :=
  match folder with
  | Some _ =>
      match w with
      | WriteSucceeds =>
          [ GetFileHandleCreate filename; FileWritten filename blob;
            ClearSaveSuccessLater ]
      | GetFileHandleFails _ =>
          [ ConsoleError "File System Access API save failed:";
            Download filename blob; ClearSaveSuccessLater ]
      | CreateWritableFails _ | WriteFails _ | CloseFails _ =>
          [ GetFileHandleCreate filename;
            ConsoleError "File System Access API save failed:";
            Download filename blob; ClearSaveSuccessLater ]
      end
  | None => [ Download filename blob; ClearSaveSuccessLater ]
  end.

(** The external calls of the stop callback, in order: the timer, the
    tracks, persistence. *)
Definition finalizeCalls (r : MediaRecorder) (inp : SaveInputs) (s : State)
  : list Effect :=
  match recordingTimer s with Some id => [ClearInterval id] | None => [] end
  ++ match mediaStream s with
     | Some tracks =>
         map TrackStop
           (List.filter (stoppedAtFinalize (capturedScreenStream r)) tracks)
     | None => []
     end
  ++ match recordedChunks s with
     | [] => []
     | _ :: _ =>
         persistenceCalls (capturedFolderHandle r) (writeOutcome inp)
           (generateFilename (now inp))
           (newBlob (recordedChunks s) (blobTypeOf r))
     end.

(** The state the stop callback is in when it turns to the chunks: timer
    disarmed, tracks stopped, stream dropped. *)
Definition afterRelease (r : MediaRecorder) (s : State) : State :=
  let s :=
    match recordingTimer s with
    | Some id => s |> clearInterval id |> setRecordingTimer None
    | None => s
    end in
  match mediaStream s with
  | Some tracks =>
      s |> emitAll (map TrackStop
                      (List.filter (stoppedAtFinalize (capturedScreenStream r)) tracks))
        |> setMediaStream None
  | None => s
  end.

(** The error a listing ends with, if the enumeration throws. *)
Fixpoint thrownBy (l : Listing) : option JSError :=
  match l with
  | Done => None
  | Throw err => Some err
  | Yield _ rest => thrownBy rest
  end.

(** A record carries timestamp [t]. *)
Definition stampedAt (t : Z) (r : RecordingMetadata) : bool :=
  match timestamp r with Some v => v =? t | None => false end.

End Observations.

(* ===================================================================== *)
(** ** More concrete states and inputs                                    *)
(* ===================================================================== *)

Module MoreSamples.
Import JSDate JSString Filename Catalog App Samples.
Local Open Scope Z_scope.

(** Every source switched off. *)
Definition allOff : State := idle |> click utcHost ClickToggleMic.

(** Camera on and microphone on, no screen. *)
Definition cameraAndMic : State := idle |> click utcHost ClickToggleCamera.

Definition denied : JSError :=
  {| errName := "NotAllowedError"; errMessage := "Permission denied" |}.

(** The camera is refused; the microphone would have been granted. *)
Definition cameraDenied (id : nat) : StartInputs :=
  {| cameraMedia := inl denied;
     micMedia := inr [micTrack];
     isTypeSupported := fun _ => true;
     constructorError := None; startError := None;
     intervalId := id |}.

Definition emptyChunk : Blob := {| blobType := ""; blobData := [] |}.
Definition chunk2 : Blob :=
  {| blobType := "video/webm;codecs=vp9"; blobData := [Byte.xdf; Byte.xa3] |}.

(** A session recording screen and microphone, just started. *)
Definition screenSession : State :=
  allSourcesOn |> click utcHost (ClickStart (allGranted 5)).

Definition saveOk : SaveInputs :=
  {| now := jan5; writeOutcome := WriteSucceeds; listing := Done |}.

End MoreSamples.

(* ===================================================================== *)
(** ** The rest of the component: preferences, devices, folder, player    *)
(* ===================================================================== *)

Module Shell.
Import JSDate JSString Filename Catalog App.
Local Open Scope Z_scope.

Definition STORAGE_KEY : string := "loom-clone-folder-path".
Definition MIC_STORAGE_KEY : string := "loom-clone-selected-mic".
Definition CAMERA_STORAGE_KEY : string := "loom-clone-selected-camera".

(** Setters for the cells of [State] that the session handlers only read. *)
Definition setFolderHandle (v : option FolderHandle) (s : State) : State :=
  {| folderHandle := v; deviceError := deviceError s; selectedMicId :=
     selectedMicId s; selectedCameraId := selectedCameraId s; isMicEnabled :=
     isMicEnabled s; isCameraEnabled := isCameraEnabled s; isScreenEnabled :=
     isScreenEnabled s; screenStream := screenStream s; isRecording :=
     isRecording s; recordingError := recordingError s; recordingDuration :=
     recordingDuration s; saveSuccess := saveSuccess s; recordings :=
     recordings s; isLoadingRecordings := isLoadingRecordings s; playbackError
     := playbackError s; mediaRecorder := mediaRecorder s; recordedChunks :=
     recordedChunks s; mediaStream := mediaStream s; recordingTimer :=
     recordingTimer s; localStorage := localStorage s; activeIntervals :=
     activeIntervals s; effects := effects s |}.

Definition setDeviceError (v : option string) (s : State) : State :=
  {| folderHandle := folderHandle s; deviceError := v; selectedMicId :=
     selectedMicId s; selectedCameraId := selectedCameraId s; isMicEnabled :=
     isMicEnabled s; isCameraEnabled := isCameraEnabled s; isScreenEnabled :=
     isScreenEnabled s; screenStream := screenStream s; isRecording :=
     isRecording s; recordingError := recordingError s; recordingDuration :=
     recordingDuration s; saveSuccess := saveSuccess s; recordings :=
     recordings s; isLoadingRecordings := isLoadingRecordings s; playbackError
     := playbackError s; mediaRecorder := mediaRecorder s; recordedChunks :=
     recordedChunks s; mediaStream := mediaStream s; recordingTimer :=
     recordingTimer s; localStorage := localStorage s; activeIntervals :=
     activeIntervals s; effects := effects s |}.

Definition setSelectedMicId (v : string) (s : State) : State :=
  {| folderHandle := folderHandle s; deviceError := deviceError s;
     selectedMicId := v; selectedCameraId := selectedCameraId s; isMicEnabled
     := isMicEnabled s; isCameraEnabled := isCameraEnabled s; isScreenEnabled
     := isScreenEnabled s; screenStream := screenStream s; isRecording :=
     isRecording s; recordingError := recordingError s; recordingDuration :=
     recordingDuration s; saveSuccess := saveSuccess s; recordings :=
     recordings s; isLoadingRecordings := isLoadingRecordings s; playbackError
     := playbackError s; mediaRecorder := mediaRecorder s; recordedChunks :=
     recordedChunks s; mediaStream := mediaStream s; recordingTimer :=
     recordingTimer s; localStorage := localStorage s; activeIntervals :=
     activeIntervals s; effects := effects s |}.

Definition setSelectedCameraId (v : string) (s : State) : State :=
  {| folderHandle := folderHandle s; deviceError := deviceError s;
     selectedMicId := selectedMicId s; selectedCameraId := v; isMicEnabled :=
     isMicEnabled s; isCameraEnabled := isCameraEnabled s; isScreenEnabled :=
     isScreenEnabled s; screenStream := screenStream s; isRecording :=
     isRecording s; recordingError := recordingError s; recordingDuration :=
     recordingDuration s; saveSuccess := saveSuccess s; recordings :=
     recordings s; isLoadingRecordings := isLoadingRecordings s; playbackError
     := playbackError s; mediaRecorder := mediaRecorder s; recordedChunks :=
     recordedChunks s; mediaStream := mediaStream s; recordingTimer :=
     recordingTimer s; localStorage := localStorage s; activeIntervals :=
     activeIntervals s; effects := effects s |}.

Definition removeItem (key : string) (s : State) : State :=
  setLocalStorage (delete key (localStorage s)) s.

Inductive DeviceKind := AudioInput | VideoInput | AudioOutput.

(** What [enumerateDevices] reports for one device. *)
Record DeviceInfo := {
  deviceId : string;
  label : string;
  deviceKind : DeviceKind
}.

(** An entry of the microphone or camera menu. *)
Record DeviceOption := {
  optionId : string;
  optionLabel : string
}.

(** The cells of the component beyond the session and catalog state,
    with the browser's table of live object URLs and the names removed
    from the folder. *)
Record Page := {
  core : State;
  folderPath : option string;
  error : option string;
  microphones : list DeviceOption;
  cameras : list DeviceOption;
  permissionGranted : bool;
  selectedRecording : option RecordingMetadata;
  playbackUrl : option string;
  objectUrls : list string;
  removedEntries : list string
}.

Definition setCore (v : State) (p : Page) : Page :=
  {| core := v; folderPath := folderPath p; error := error p; microphones :=
     microphones p; cameras := cameras p; permissionGranted :=
     permissionGranted p; selectedRecording := selectedRecording p;
     playbackUrl := playbackUrl p; objectUrls := objectUrls p; removedEntries
     := removedEntries p |}.

Definition setFolderPath (v : option string) (p : Page) : Page :=
  {| core := core p; folderPath := v; error := error p; microphones :=
     microphones p; cameras := cameras p; permissionGranted :=
     permissionGranted p; selectedRecording := selectedRecording p;
     playbackUrl := playbackUrl p; objectUrls := objectUrls p; removedEntries
     := removedEntries p |}.

Definition setError (v : option string) (p : Page) : Page :=
  {| core := core p; folderPath := folderPath p; error := v; microphones :=
     microphones p; cameras := cameras p; permissionGranted :=
     permissionGranted p; selectedRecording := selectedRecording p;
     playbackUrl := playbackUrl p; objectUrls := objectUrls p; removedEntries
     := removedEntries p |}.

Definition setMicrophones (v : list DeviceOption) (p : Page) : Page :=
  {| core := core p; folderPath := folderPath p; error := error p; microphones
     := v; cameras := cameras p; permissionGranted := permissionGranted p;
     selectedRecording := selectedRecording p; playbackUrl := playbackUrl p;
     objectUrls := objectUrls p; removedEntries := removedEntries p |}.

Definition setCameras (v : list DeviceOption) (p : Page) : Page :=
  {| core := core p; folderPath := folderPath p; error := error p; microphones
     := microphones p; cameras := v; permissionGranted := permissionGranted p;
     selectedRecording := selectedRecording p; playbackUrl := playbackUrl p;
     objectUrls := objectUrls p; removedEntries := removedEntries p |}.

Definition setPermissionGranted (v : bool) (p : Page) : Page :=
  {| core := core p; folderPath := folderPath p; error := error p; microphones
     := microphones p; cameras := cameras p; permissionGranted := v;
     selectedRecording := selectedRecording p; playbackUrl := playbackUrl p;
     objectUrls := objectUrls p; removedEntries := removedEntries p |}.

Definition setSelectedRecording (v : option RecordingMetadata) (p : Page) : Page :=
  {| core := core p; folderPath := folderPath p; error := error p; microphones
     := microphones p; cameras := cameras p; permissionGranted :=
     permissionGranted p; selectedRecording := v; playbackUrl := playbackUrl
     p; objectUrls := objectUrls p; removedEntries := removedEntries p |}.

Definition setPlaybackUrl (v : option string) (p : Page) : Page :=
  {| core := core p; folderPath := folderPath p; error := error p; microphones
     := microphones p; cameras := cameras p; permissionGranted :=
     permissionGranted p; selectedRecording := selectedRecording p;
     playbackUrl := v; objectUrls := objectUrls p; removedEntries :=
     removedEntries p |}.

Definition setObjectUrls (v : list string) (p : Page) : Page :=
  {| core := core p; folderPath := folderPath p; error := error p; microphones
     := microphones p; cameras := cameras p; permissionGranted :=
     permissionGranted p; selectedRecording := selectedRecording p;
     playbackUrl := playbackUrl p; objectUrls := v; removedEntries :=
     removedEntries p |}.

Definition setRemovedEntries (v : list string) (p : Page) : Page :=
  {| core := core p; folderPath := folderPath p; error := error p; microphones
     := microphones p; cameras := cameras p; permissionGranted :=
     permissionGranted p; selectedRecording := selectedRecording p;
     playbackUrl := playbackUrl p; objectUrls := objectUrls p; removedEntries
     := v |}.

Definition withCore (f : State -> State) (p : Page) : Page :=
  setCore (f (core p)) p.

(** *** Initial state (lines 28-83) *)

(** [localStorage.getItem(key) || ''] *)
Definition getItemOrEmpty (ls : gmap string string) (key : string) : string :=
  match ls !! key with Some v => v | None => "" end.

(** [saved === null ? fallback : saved === 'true'] *)
Definition readFlag (ls : gmap string string) (key : string) (fallback : bool)
  : bool :=
  match ls !! key with Some v => String.eqb v "true" | None => fallback end.

Definition UNSUPPORTED_MESSAGE : string :=
  "Your browser does not support folder selection. Please use a modern browser like Chrome or Edge.".

(** The component as first rendered over the stored preferences [ls]. *)
Definition initialPage (isApiSupported : bool) (ls : gmap string string) : Page :=
  {| core :=
       {| folderHandle := None;
          deviceError := None;
          selectedMicId := getItemOrEmpty ls MIC_STORAGE_KEY;
          selectedCameraId := getItemOrEmpty ls CAMERA_STORAGE_KEY;
          isMicEnabled := readFlag ls MIC_ENABLED_KEY true;
          isCameraEnabled := readFlag ls CAMERA_ENABLED_KEY true;
          isScreenEnabled := readFlag ls SCREEN_ENABLED_KEY false;
          screenStream := None;
          isRecording := false;
          recordingError := None;
          recordingDuration := 0;
          saveSuccess := None;
          recordings := [];
          isLoadingRecordings := false;
          playbackError := None;
          mediaRecorder := None;
          recordedChunks := [];
          mediaStream := None;
          recordingTimer := None;
          localStorage := ls;
          activeIntervals := [];
          effects := [] |};
     folderPath := ls !! STORAGE_KEY;
     error := if isApiSupported then None else Some UNSUPPORTED_MESSAGE;
     microphones := [];
     cameras := [];
     permissionGranted := false;
     selectedRecording := None;
     playbackUrl := None;
     objectUrls := [];
     removedEntries := [] |}.

(** *** Device detection (lines 86-165) *)

Inductive DetectResponse :=
| DetectionUnsupported
| DetectionRejected (err : JSError)
| DevicesEnumerated (devices : list DeviceInfo).

Definition isAudioInput (d : DeviceInfo) : bool :=
  match deviceKind d with AudioInput => true | _ => false end.
Definition isVideoInput (d : DeviceInfo) : bool :=
  match deviceKind d with VideoInput => true | _ => false end.

(** [device.label || `<prefix> ${device.deviceId.slice(0, 8)}`] *)
Definition deviceOption (prefix : string) (d : DeviceInfo) : DeviceOption :=
  {| optionId := deviceId d;
     optionLabel :=
       if String.eqb (label d) "" then
         String.append prefix (String.append " " (slice0 8 (deviceId d)))
       else label d |}.

Definition detectErrorMessage (err : JSError) : string :=
  if String.eqb (errName err) "NotAllowedError"
     || String.eqb (errName err) "PermissionDeniedError"
  then "Permission denied. Please allow access to your microphone and camera to select devices."
  else if String.eqb (errName err) "NotFoundError"
  then "No microphone or camera found on your device."
  else String.append "Failed to detect devices: " (errMessage err).

(** [options.find(o => o.deviceId === id)] as a truth value. *)
Definition hasOption (id : string) (options : list DeviceOption) : bool :=
  existsb (fun o => String.eqb (optionId o) id) options.

(** The auto-selection for one kind of device: the stored id is replaced
    by the first option when it is absent or empty, or names no option. *)
Definition autoSelect (key : string) (select : string -> State -> State)
  (options : list DeviceOption) (s : State) : State :=
  match options with
  | [] => s
  | first :: _ =>
      let saved := localStorage s !! key in
      if negb (truthy saved) then
        s |> select (optionId first) |> setItem key (optionId first)
      else if negb (hasOption (getItemOrEmpty (localStorage s) key) options) then
        s |> select (optionId first) |> setItem key (optionId first)
      else s
  end.

(** The effect run at mount, over the platform's answer. The permission
    request it makes and the stops of the tracks it is handed are not
    entered in the log, which is kept for the session's calls. *)
Definition detectDevices (resp : DetectResponse) (p : Page) : Page :=
  match resp with
  | DetectionUnsupported =>
      withCore (setDeviceError
                  (Some "Your browser does not support device detection.")) p
  | DetectionRejected err =>
      p |> withCore (setDeviceError (Some (detectErrorMessage err)))
        |> setPermissionGranted false
  | DevicesEnumerated devices =>
      let mics := map (deviceOption "Microphone") (List.filter isAudioInput devices) in
      let cams := map (deviceOption "Camera") (List.filter isVideoInput devices) in
      p |> setPermissionGranted true
        |> withCore (setDeviceError None)
        |> setMicrophones mics
        |> setCameras cams
        |> withCore (autoSelect MIC_STORAGE_KEY setSelectedMicId mics)
        |> withCore (autoSelect CAMERA_STORAGE_KEY setSelectedCameraId cams)
  end.

(** *** Device menus (lines 243-252) *)

Definition handleMicChange (id : string) (s : State) : State :=
  s |> setSelectedMicId id |> setItem MIC_STORAGE_KEY id.

Definition handleCameraChange (id : string) (s : State) : State :=
  s |> setSelectedCameraId id |> setItem CAMERA_STORAGE_KEY id.

(** *** Folder selection (lines 611-638) and the effect that reloads the
    catalog when the folder handle changes (lines 238-240) *)

Definition handleSelectFolder (isApiSupported : bool)
  (resp : JSError + FolderHandle) (p : Page) : Page :=
  if negb isApiSupported then p
  else
    let p := setError None p in
    match resp with
    | inr handle =>
        p |> withCore (setFolderHandle (Some handle))
          |> setFolderPath (Some (folderName handle))
          |> withCore (setItem STORAGE_KEY (folderName handle))
    | inl err =>
        if String.eqb (errName err) "AbortError" then p
        else setError (Some (String.append "Failed to select folder: "
                               (errMessage err))) p
    end.

Definition handleClearFolder (p : Page) : Page :=
  p |> setFolderPath None
    |> withCore (setFolderHandle None)
    |> withCore (removeItem STORAGE_KEY).

(** [useEffect(() => { loadRecordings() }, [loadRecordings])], run after a
    render in which the folder handle is a new object. *)
Definition reloadCatalog (h : Host) (l : Listing) (p : Page) : Page :=
  withCore (loadRecordings h (folderHandle (core p)) l) p.

(** *** Player (lines 333-386) *)

Definition revokeObjectURL (url : string) (p : Page) : Page :=
  setObjectUrls (List.filter (fun u => negb (String.eqb u url)) (objectUrls p)) p.

(** [URL.createObjectURL] returns a fresh [blob:] URL; [uuid] is the part
    the browser makes up. *)
Definition objectUrlOf (uuid : string) : string := String.append "blob:" uuid.

Definition releasePlayback (p : Page) : Page :=
  match playbackUrl p with
  | Some url =>
      if negb (String.eqb url "") then
        p |> revokeObjectURL url |> setPlaybackUrl None
      else p
  | None => p
  end.

Definition playErrorMessage (err : JSError) : string :=
  if String.eqb (errName err) "NotAllowedError"
  then "File access was revoked. Please re-select the folder."
  else String.append "Failed to load recording: " (errMessage err).

Definition handlePlayRecording (resp : JSError + File) (uuid : string)
  (recording : RecordingMetadata) (p : Page) : Page :=
  let p := p |> releasePlayback |> withCore (setPlaybackError None) in
  match resp with
  | inr _ =>
      p |> setObjectUrls (objectUrlOf uuid :: objectUrls p)
        |> setPlaybackUrl (Some (objectUrlOf uuid))
        |> setSelectedRecording (Some recording)
  | inl err => withCore (setPlaybackError (Some (playErrorMessage err))) p
  end.

Definition handleClosePlayer (p : Page) : Page :=
  p |> releasePlayback
    |> setSelectedRecording None
    |> withCore (setPlaybackError None).

(** [selectedRecording?.filename === recording.filename] *)
Definition isSelected (recording : RecordingMetadata) (p : Page) : bool :=
  match selectedRecording p with
  | Some r => String.eqb (filename r) (filename recording)
  | None => false
  end.

(** [confirmed] is the answer to [confirm(...)]; [removal] the error with
    which [removeEntry] rejects, if it does; [l] what the folder enumerates
    to in the refresh that follows. *)
Definition handleDeleteRecording (h : Host) (confirmed : bool)
  (removal : option JSError) (l : Listing) (recording : RecordingMetadata)
  (p : Page) : Page :=
  if negb confirmed then p
  else
    let removed (p : Page) :=
      (if isSelected recording p then handleClosePlayer p else p)
      |> reloadCatalog h l in
    match folderHandle (core p), removal with
    | Some _, Some err =>
        withCore (setPlaybackError
                    (Some (String.append "Failed to delete recording: "
                             (errMessage err)))) p
    | Some _, None =>
        p |> setRemovedEntries (removedEntries p ++ [filename recording])
          |> removed
    | None, _ => removed p
    end.

(** *** Effect cleanups (lines 588-609) *)

(** The cleanup of the effect keyed on [screenStream]. React runs it when
    a render commits with another stream in [screenStream], and at
    unmount; [closed] is the stream of the render that installed it, the
    refs are read as they are when it runs. *)
Definition screenEffectCleanup (closed : option (list RawTrack)) (s : State)
  : State :=
  let s :=
    match recordingTimer s with
    | Some id => clearInterval id s
    | None => s
    end in
  let s :=
    match mediaStream s with
    | Some tracks => emitAll (map TrackStop tracks) s
    | None => s
    end in
  match closed with
  | Some stream => emitAll (map (fun t => TrackStop (FromScreen t)) stream) s
  | None => s
  end.

(** The cleanup of the effect keyed on [playbackUrl]. *)
Definition playbackEffectCleanup (closed : option string) (p : Page) : Page :=
  match closed with
  | Some url => if negb (String.eqb url "") then revokeObjectURL url p else p
  | None => p
  end.

(** Unmounting runs both cleanups over the last render. *)
Definition unmount (p : Page) : Page :=
  p |> withCore (screenEffectCleanup (screenStream (core p)))
    |> playbackEffectCleanup (playbackUrl p).

End Shell.

(* ===================================================================== *)
(** ** The component as a transition system                               *)
(* ===================================================================== *)

Module Lifecycle.
Import JSDate JSString Filename Catalog App Shell.
Local Open Scope Z_scope.

(** What can happen to a mounted component: the user's actions, each
    with the platform's answers to what its handler awaits, and the
    platform's own callbacks. List positions stand for the menu option or
    the catalog row acted on.

    An event's handler runs to completion, awaited answers included,
    before the next event is taken; two handlers suspended at the same
    time are not covered. A callback may be taken in any state, whether or
    not the platform would fire it there, which only adds runs. *)
Inductive Event :=
| Clicked (c : Click)
| MicChosen (index : nat)
| CameraChosen (index : nat)
| FolderPicked (resp : JSError + FolderHandle) (l : Listing)
| FolderCleared
| DetectionDone (resp : DetectResponse)
| PlayRequested (index : nat) (resp : JSError + File) (uuid : string)
| DeleteRequested (index : nat) (confirmed : bool) (removal : option JSError)
    (l : Listing)
| PlayerClosed
| VideoFailed
| DataAvailable (data : option Blob)
| RecorderStopped (r : MediaRecorder) (inp : SaveInputs)
| RecorderFailed
| TimerFired (id : nat)
| SuccessExpired
| ScreenShareEnded.

(** The device menus are rendered when there is no device error. *)
Definition menusShown (p : Page) : bool := negb (truthy (deviceError (core p))).

(** The rows of the recordings list are rendered for a live folder,
    outside a session and outside a refresh. *)
Definition rowsShown (p : Page) : bool :=
  isSome (folderHandle (core p)) && negb (isRecording (core p))
  && negb (isLoadingRecordings (core p)).

(** The player is rendered when a recording is selected and has a URL. *)
Definition playerShown (p : Page) : bool :=
  isSome (selectedRecording p) && truthy (playbackUrl p).

Definition VIDEO_ERROR_MESSAGE : string :=
  "Failed to play this recording. The file may be corrupted.".

(** The handler or callback an event runs. *)
Definition handle (h : Host) (isApiSupported : bool) (e : Event) (p : Page)
  : Page :=
  match e with
  | Clicked c => withCore (click h c) p
  | MicChosen index =>
      if menusShown p && isMicEnabled (core p) && negb (isRecording (core p))
      then match microphones p !! index with
           | Some o => withCore (handleMicChange (optionId o)) p
           | None => p
           end
      else p
  | CameraChosen index =>
      if menusShown p && isCameraEnabled (core p) && negb (isRecording (core p))
      then match cameras p !! index with
           | Some o => withCore (handleCameraChange (optionId o)) p
           | None => p
           end
      else p
  | FolderPicked resp l =>
      let p' := handleSelectFolder isApiSupported resp p in
      match resp with
      | inr _ => if isApiSupported then reloadCatalog h l p' else p'
      | inl _ => p'
      end
  | FolderCleared =>
      if truthy (folderPath p) then
        let p' := handleClearFolder p in
        if isSome (folderHandle (core p)) then reloadCatalog h Done p' else p'
      else p
  | DetectionDone resp => detectDevices resp p
  | PlayRequested index resp uuid =>
      if rowsShown p
      then match recordings (core p) !! index with
           | Some recording => handlePlayRecording resp uuid recording p
           | None => p
           end
      else p
  | DeleteRequested index confirmed removal l =>
      if rowsShown p
      then match recordings (core p) !! index with
           | Some recording =>
               handleDeleteRecording h confirmed removal l recording p
           | None => p
           end
      else p
  | PlayerClosed => if playerShown p then handleClosePlayer p else p
  | VideoFailed =>
      if playerShown p
      then withCore (setPlaybackError (Some VIDEO_ERROR_MESSAGE)) p
      else p
  | DataAvailable data => withCore (ondataavailable data) p
  | RecorderStopped r inp => withCore (onstop h r inp) p
  | RecorderFailed => withCore onerror p
  | TimerFired id => withCore (tick id) p
  | SuccessExpired => withCore (setSaveSuccess None) p
  | ScreenShareEnded => withCore screenEnded p
  end.

#[global] Instance TrackKind_eq_dec : EqDecision TrackKind.
Proof. solve_decision. Defined.

#[global] Instance RawTrack_eq_dec : EqDecision RawTrack.
Proof. solve_decision. Defined.

(** The render that follows: an effect whose dependency differs from the
    one of the render [before] has its cleanup run, over what that render
    closed over. Equal track identities stand for the same stream. *)
Definition commit (before p : Page) : Page :=
  let p :=
    if bool_decide (screenStream (core p) = screenStream (core before)) then p
    else withCore (screenEffectCleanup (screenStream (core before))) p in
  if bool_decide (playbackUrl p = playbackUrl before) then p
  else playbackEffectCleanup (playbackUrl before) p.

Definition step (h : Host) (isApiSupported : bool) (e : Event) (p : Page)
  : Page :=
  commit p (handle h isApiSupported e p).

Definition run (h : Host) (isApiSupported : bool) (events : list Event)
  (p : Page) : Page :=
  fold_left (fun q e => step h isApiSupported e q) events p.

(** *** Invariants *)

(** The cells a reload restores from storage, with the storage itself. *)
Definition preferenceCells (s : State) :=
  (localStorage s, isMicEnabled s, isCameraEnabled s, isScreenEnabled s,
   selectedMicId s, selectedCameraId s).

(** The screen handle with its toggle, the folder handle and the
    recording indicator. *)
Definition handleCells (s : State) :=
  (screenStream s, isScreenEnabled s, folderHandle s, isRecording s).

(** The stored preferences are the ones in force. *)
Definition preferencesStored (p : Page) : Prop :=
  let s := core p in
  let ls := localStorage s in
  isMicEnabled s = readFlag ls MIC_ENABLED_KEY true
  /\ isCameraEnabled s = readFlag ls CAMERA_ENABLED_KEY true
  /\ isScreenEnabled s = readFlag ls SCREEN_ENABLED_KEY false
  /\ selectedMicId s = getItemOrEmpty ls MIC_STORAGE_KEY
  /\ selectedCameraId s = getItemOrEmpty ls CAMERA_STORAGE_KEY
  /\ folderPath p = ls !! STORAGE_KEY.

(** The browser holds exactly the object URL being played, if any. *)
Definition urlsAccounted (p : Page) : Prop :=
  objectUrls p = match playbackUrl p with Some u => [u] | None => [] end
  /\ forall u, playbackUrl p = Some u -> u <> ""%string.

(** A screen handle is held only while the screen toggle is on. *)
Definition screenGuarded (s : State) : Prop :=
  isSome (screenStream s) = true -> isScreenEnabled s = true.

(** The menus' selections are among their options. *)
Definition selectionsListed (p : Page) : Prop :=
  (microphones p <> [] ->
   hasOption (selectedMicId (core p)) (microphones p) = true)
  /\ (cameras p <> [] ->
      hasOption (selectedCameraId (core p)) (cameras p) = true).

(** The events after which the component holds a folder handle. *)
Definition grantsFolder (isApiSupported : bool) (e : Event) : bool :=
  match e with
  | FolderPicked (inr _) _ => isApiSupported
  | _ => false
  end.

(** The external calls of the screen effect's cleanup, in order. *)
Definition cleanupCalls (closed : option (list RawTrack)) (s : State)
  : list Effect :=
  match recordingTimer s with Some id => [ClearInterval id] | None => [] end
  ++ match mediaStream s with
     | Some tracks => map TrackStop tracks
     | None => []
     end
  ++ match closed with
     | Some stream => map (fun t => TrackStop (FromScreen t)) stream
     | None => []
     end.

Definition isDownload (e : Effect) : bool :=
  match e with Download _ _ => true | _ => false end.

(** The recorder in the ref, if any, was created over a folder handle. *)
Definition recorderHasFolder (s : State) : Prop :=
  forall r, mediaRecorder s = Some r -> isSome (capturedFolderHandle r) = true.

Definition isRecorderStart (e : Effect) : bool :=
  match e with RecorderStart _ => true | _ => false end.

(** No collected chunk and no persisted artifact is empty. *)
Definition nothingEmpty (s : State) : Prop :=
  Forall (fun b => 0 < blobSize b) (recordedChunks s)
  /\ Forall (fun a => 0 < blobSize (snd a)) (persisted (effects s)).

End Lifecycle.

(* ===================================================================== *)
(** ** The elapsed-time display (lines 308-312)                           *)
(* ===================================================================== *)

Module Display.
Import JSString.
Local Open Scope Z_scope.

(** [n.toString()] for an integer-valued number. *)
Definition toStringInt (n : Z) : string := pretty n.

Fixpoint repeatChar (c : ascii) (k : nat) : string :=
  match k with
  | O => EmptyString
  | S k' => String c (repeatChar c k')
  end.

(** [s.padStart(target, c)] with a one-character filler. *)
Definition padStart (target : nat) (c : ascii) (s : string) : string :=
  String.append (repeatChar c (target - String.length s)) s.

(** [seconds] is an integer, as the tick counter it is called with, and
    far below 2^52: [Math.floor(seconds / 60)] is then the floored quotient,
    and [%] takes the sign of the dividend. *)
Definition formatDuration (seconds : Z) : string :=
  let mins := seconds / 60 in
  let secs := Z.rem seconds 60 in
  String.append (padStart 2 "0" (toStringInt mins))
    (String.append ":" (padStart 2 "0" (toStringInt secs))).

End Display.

(* ===================================================================== *)
(** ** Concrete pages used in the examples                                *)
(* ===================================================================== *)

Module PageSamples.
Import JSDate JSString Filename Catalog App Samples MoreSamples Shell Lifecycle.
Local Open Scope Z_scope.

(** A page freshly rendered over empty storage, with session state [s]. *)
Definition pageOf (s : State) : Page := setCore s (initialPage true ∅).

(** Storage that remembers a folder name from an earlier visit. *)
Definition rememberedFolder : gmap string string :=
  {[ STORAGE_KEY := "Videos"%string ]}.

Definition videos : FolderHandle := {| folderName := "Videos" |}.

(** A session over screen and microphone, started in folder [videos]. *)
Definition screenRecording : Page :=
  pageOf (setFolderHandle (Some videos) allSourcesOn)
  |> withCore (click utcHost (ClickStart (allGranted 5))).

(** A folder picked, a session started over camera and microphone, one
    chunk delivered, then the folder cleared while the session runs. *)
Definition clearedMidSession : list Event :=
  [ FolderPicked (inr videos) Done;
    Clicked (ClickStart (allGranted 7));
    DataAvailable (Some chunk);
    FolderCleared ].

(** The recorder that session holds. *)
Definition heldRecorder : MediaRecorder :=
  {| recorderStream := [FromCamera cameraTrack; FromMic micTrack];
     recorderMimeType := "video/webm;codecs=vp9";
     recorderState := Recording;
     capturedScreenStream := None;
     capturedFolderHandle := Some videos |}.

Definition januaryRecording : RecordingMetadata :=
  {| filename := januaryName;
     timestamp := Some 1704450600000;
     size := 2;
     fileHandle := fileEntry januaryName 1704450601000 2 |}.

Definition marchRecording : RecordingMetadata :=
  {| filename := marchName;
     timestamp := Some 1709283600000;
     size := 5;
     fileHandle := fileEntry marchName 1709283601000 5 |}.

(** A page listing two recordings and playing the January one. *)
Definition playing : Page :=
  pageOf (setRecordings [marchRecording; januaryRecording] idle)
  |> handlePlayRecording
       (inr {| lastModified := 1704450601000; fileSize := 2 |}) "9b2c"
       januaryRecording.

(** Storage that remembers a microphone which is no longer plugged in. *)
Definition staleMicrophone : gmap string string :=
  {[ MIC_STORAGE_KEY := "usb-headset"%string ]}.

Definition builtInMic : DeviceInfo :=
  {| deviceId := "default-mic"; label := ""; deviceKind := AudioInput |}.
Definition webcam : DeviceInfo :=
  {| deviceId := "webcam-0"; label := "HD Webcam"; deviceKind := VideoInput |}.
Definition speakers : DeviceInfo :=
  {| deviceId := "speakers"; label := "Speakers"; deviceKind := AudioOutput |}.

End PageSamples.

(* ===================================================================== *)
(** * Properties                                                          *)
(* ===================================================================== *)

(** ** Calendar arithmetic *)

Section DateFacts.
Import JSDate.
Local Open Scope Z_scope.

Lemma DayFromYear_step y : DayFromYear (y + 1) = DayFromYear y + DaysInYear y.
Proof.
  unfold DayFromYear, DaysInYear, isLeap.
  destruct (y mod 4 =? 0) eqn:E4; destruct (y mod 100 =? 0) eqn:E100;
    destruct (y mod 400 =? 0) eqn:E400; simpl;
    rewrite ?Z.eqb_eq, ?Z.eqb_neq in *;
    Z.to_euclidean_division_equations; lia.
Qed.

(** [YearFromDay] is the year that contains the day. *)
Lemma YearFromDay_spec d :
  DayFromYear (YearFromDay d) <= d < DayFromYear (YearFromDay d + 1).
Proof.
  unfold YearFromDay.
  set (y := 1970 + d * 400 / 146097).
  destruct (Z.ltb_spec d (DayFromYear y));
    [| destruct (Z.leb_spec (DayFromYear (y + 1)) d)].
  - replace (y - 1 + 1) with y by lia. split; [| lia].
    unfold DayFromYear in *. subst y. Z.to_euclidean_division_equations; lia.
  - split; [lia |].
    unfold DayFromYear in *. subst y. Z.to_euclidean_division_equations; lia.
  - lia.
Qed.

Lemma YearFromDay_unique d y :
  DayFromYear y <= d < DayFromYear (y + 1) -> YearFromDay d = y.
Proof.
  intros Hy. pose proof (YearFromDay_spec d) as Hs.
  unfold DayFromYear in *. Z.to_euclidean_division_equations; lia.
Qed.

Lemma InLeapYear_range t : 0 <= InLeapYear t <= 1.
Proof. unfold InLeapYear. destruct (isLeap _); lia. Qed.

Lemma DayWithinYear_range t : 0 <= DayWithinYear t < 365 + InLeapYear t.
Proof.
  unfold DayWithinYear, InLeapYear, YearFromTime.
  pose proof (YearFromDay_spec (Day t)) as H.
  rewrite DayFromYear_step in H. unfold DaysInYear in H.
  destruct (isLeap (YearFromDay (Day t))); lia.
Qed.

Ltac split_comparisons :=
  repeat match goal with
  | |- context [?a <? ?b] => destruct (Z.ltb_spec a b)
  | |- context [?a =? ?b] => destruct (Z.eqb_spec a b)
  | |- context [?a <=? ?b] => destruct (Z.leb_spec a b)
  end.

Lemma MonthFromTime_range t : 0 <= MonthFromTime t <= 11.
Proof. unfold MonthFromTime. split_comparisons; lia. Qed.

Lemma DateFromTime_range t : 1 <= DateFromTime t <= 31.
Proof.
  pose proof (DayWithinYear_range t). pose proof (InLeapYear_range t).
  unfold DateFromTime, MonthFromTime, monthStart.
  split_comparisons; lia.
Qed.

Lemma clock_fields_range t :
  0 <= HourFromTime t <= 23 /\ 0 <= MinFromTime t <= 59
  /\ 0 <= SecFromTime t <= 59.
Proof.
  unfold HourFromTime, MinFromTime, SecFromTime.
  Z.to_euclidean_division_equations; lia.
Qed.

(** The calendar fields of an instant determine its day number. *)
Lemma MakeDay_fields t :
  MakeDay (YearFromTime t) (MonthFromTime t) (DateFromTime t) = Day t.
Proof.
  pose proof (MonthFromTime_range t) as Hm.
  unfold MakeDay.
  replace (MonthFromTime t / 12) with 0
    by (Z.to_euclidean_division_equations; lia).
  replace (MonthFromTime t mod 12) with (MonthFromTime t)
    by (Z.to_euclidean_division_equations; lia).
  rewrite Z.add_0_r. unfold DateFromTime, DayWithinYear.
  change (if isLeap (YearFromTime t) then 1 else 0) with (InLeapYear t).
  lia.
Qed.

(** The clock fields determine the time within the day, to the second. *)
Lemma MakeTime_fields t :
  MakeTime (HourFromTime t) (MinFromTime t) (SecFromTime t) 0
  = TimeWithinDay t - msFromTime t.
Proof.
  unfold MakeTime, HourFromTime, MinFromTime, SecFromTime, TimeWithinDay,
    msFromTime, msPerHour, msPerMinute, msPerSecond, msPerDay.
  Z.to_euclidean_division_equations; lia.
Qed.

Lemma MakeDate_fields t :
  MakeDate (MakeDay (YearFromTime t) (MonthFromTime t) (DateFromTime t))
           (MakeTime (HourFromTime t) (MinFromTime t) (SecFromTime t) 0)
  = t - msFromTime t.
Proof.
  rewrite MakeDay_fields, MakeTime_fields.
  unfold MakeDate, Day, TimeWithinDay, msFromTime, msPerDay, msPerSecond.
  Z.to_euclidean_division_equations; lia.
Qed.

(** Instants of the years 0000 to 9999. *)
Lemma four_digit_year t :
  -62167219200000 <= t < 253402300800000 -> 0 <= YearFromTime t <= 9999.
Proof.
  intros Ht. unfold YearFromTime.
  pose proof (YearFromDay_spec (Day t)) as Hs.
  assert (Hd : DayFromYear 0 <= Day t < DayFromYear 10000).
  { unfold Day, msPerDay, DayFromYear. Z.to_euclidean_division_equations; lia. }
  unfold DayFromYear in *. Z.to_euclidean_division_equations; lia.
Qed.

End DateFacts.

(** ** Digits, the ISO string and the filename pattern *)

Section FilenameFacts.
Import JSDate JSString ISO Filename.
Local Open Scope Z_scope.

Lemma digitChar_cases n :
  In (digitChar n) ["0"; "1"; "2"; "3"; "4"; "5"; "6"; "7"; "8"; "9"]%char.
Proof.
  unfold digitChar.
  assert (H : 0 <= n mod 10 < 10) by (apply Z.mod_pos_bound; lia).
  assert (C : n mod 10 = 0 \/ n mod 10 = 1 \/ n mod 10 = 2 \/ n mod 10 = 3
              \/ n mod 10 = 4 \/ n mod 10 = 5 \/ n mod 10 = 6
              \/ n mod 10 = 7 \/ n mod 10 = 8 \/ n mod 10 = 9) by lia.
  repeat (destruct C as [C | C]; [rewrite C; simpl; tauto |]).
  rewrite C; simpl; tauto.
Qed.

Ltac by_digit_cases n :=
  let H := fresh in
  pose proof (digitChar_cases n) as H; simpl in H;
  repeat (destruct H as [H | H]; [rewrite <- H; reflexivity |]);
  destruct H.

Lemma isDigit_digitChar n : isDigit (digitChar n) = true.
Proof. by_digit_cases n. Qed.

Lemma isColonOrDot_digitChar n : isColonOrDot (digitChar n) = false.
Proof. by_digit_cases n. Qed.

Lemma digitChar_not_T n : Ascii.eqb (digitChar n) "T" = false.
Proof. by_digit_cases n. Qed.

Lemma digitValue_digitChar n : digitValue (digitChar n) = n mod 10.
Proof.
  unfold digitChar, digitValue.
  assert (H : 0 <= n mod 10 < 10) by (apply Z.mod_pos_bound; lia).
  rewrite nat_ascii_embedding; lia.
Qed.

(** [parseInt] reads back what the formatter padded. *)
Lemma parseInt_pad2 n :
  0 <= n < 100 -> parseInt (padDigits 2 n EmptyString) = Some n.
Proof.
  intros H. unfold padDigits, parseInt, digitsPrefix.
  rewrite !isDigit_digitChar, !digitValue_digitChar.
  f_equal. Z.to_euclidean_division_equations; lia.
Qed.

Lemma parseInt_pad4 n :
  0 <= n < 10000 -> parseInt (padDigits 4 n EmptyString) = Some n.
Proof.
  intros H. unfold padDigits, parseInt, digitsPrefix.
  rewrite !isDigit_digitChar, !digitValue_digitChar.
  f_equal. Z.to_euclidean_division_equations; lia.
Qed.

Lemma append_String c s x :
  String.append (String c s) x = String c (String.append s x).
Proof. reflexivity. Qed.

Lemma append_Empty x : String.append EmptyString x = x.
Proof. reflexivity. Qed.

Lemma replaceClassAll_skip cls b c s :
  cls c = false ->
  replaceClassAll cls b (String c s) = String c (replaceClassAll cls b s).
Proof. intros H. simpl. now rewrite H. Qed.

Lemma replaceClassAll_hit cls b c s :
  cls c = true ->
  replaceClassAll cls b (String c s)
  = String.append b (replaceClassAll cls b s).
Proof. intros H. simpl. now rewrite H. Qed.

Lemma replaceFirst_skip c b x s :
  Ascii.eqb x c = false ->
  replaceFirst c b (String x s) = String x (replaceFirst c b s).
Proof. intros H. simpl. now rewrite H. Qed.

Lemma replaceFirst_hit c b x s :
  Ascii.eqb x c = true -> replaceFirst c b (String x s) = String.append b s.
Proof. intros H. simpl. now rewrite H. Qed.

(** Replace every digit character of the goal by a variable that is only
    known to be a digit. *)
Ltac name_digits :=
  repeat match goal with
  | |- context [digitChar ?n] =>
      let c := fresh "c" in
      pose proof (isColonOrDot_digitChar n);
      pose proof (digitChar_not_T n);
      pose proof (isDigit_digitChar n);
      set (c := digitChar n) in *; clearbody c
  end.

Ltac flatten := repeat (rewrite append_String || rewrite append_Empty).

Lemma generateFilename_fields t :
  0 <= YearFromTime t <= 9999 -> generateFilename t = filenameOfFields t.
Proof.
  intros Hy. unfold generateFilename, toISOString, isoYear, filenameOfFields.
  replace ((0 <=? YearFromTime t) && (YearFromTime t <=? 9999)) with true
    by (symmetry; apply andb_true_intro; split; apply Z.leb_le; lia).
  unfold concat, fold_right, padDigits.
  name_digits. flatten.
  repeat first
    [ rewrite replaceClassAll_skip by (assumption || reflexivity)
    | rewrite replaceClassAll_hit by reflexivity; flatten ].
  repeat (rewrite replaceFirst_skip by (assumption || reflexivity)).
  rewrite replaceFirst_hit by reflexivity. flatten.
  reflexivity.
Qed.

Lemma reMatch_filenameOfFields t :
  reMatch recordingPattern (filenameOfFields t)
  = Some [ padDigits 4 (YearFromTime t) EmptyString;
           padDigits 2 (MonthFromTime t + 1) EmptyString;
           padDigits 2 (DateFromTime t) EmptyString;
           padDigits 2 (HourFromTime t) EmptyString;
           padDigits 2 (MinFromTime t) EmptyString;
           padDigits 2 (SecFromTime t) EmptyString ].
Proof.
  unfold filenameOfFields, concat, fold_right, padDigits.
  name_digits. flatten.
  unfold reMatch, recordingPattern, digits, matchHere.
  simpl repeat. simpl lits. simpl.
  repeat match goal with H : isDigit _ = true |- _ => rewrite H; clear H end.
  reflexivity.
Qed.

(** What the catalog reads from a generated name: the UTC fields of the
    instant, taken as local time. *)
Lemma deriveTimestamp_generateFilename_fields h t lastModified :
  0 <= YearFromTime t <= 9999 ->
  deriveTimestamp h (generateFilename t) lastModified
  = Some (newDate h (YearFromTime t) (MonthFromTime t) (DateFromTime t)
                    (HourFromTime t) (MinFromTime t) (SecFromTime t)).
Proof.
  intros Hy. unfold deriveTimestamp.
  rewrite generateFilename_fields, reMatch_filenameOfFields by assumption.
  pose proof (MonthFromTime_range t). pose proof (DateFromTime_range t).
  pose proof (clock_fields_range t) as (? & ? & ?).
  rewrite parseInt_pad4 by lia. rewrite !parseInt_pad2 by lia.
  unfold newDateN, minus1. do 2 f_equal. lia.
Qed.

(** From year 100 on, the timestamp read back is the instant cut to the
    second and shifted by the zone offset in force at that local time. *)
Lemma deriveTimestamp_generateFilename h t lastModified :
  100 <= YearFromTime t <= 9999 ->
  deriveTimestamp h (generateFilename t) lastModified
  = Some (t - msFromTime t - LocalTZA h (t - msFromTime t) false).
Proof.
  intros Hy. rewrite deriveTimestamp_generateFilename_fields by lia.
  unfold newDate.
  replace ((0 <=? YearFromTime t) && (YearFromTime t <=? 99)) with false
    by (symmetry; apply andb_false_iff; right; apply Z.leb_gt; lia).
  rewrite MakeDate_fields. reflexivity.
Qed.

End FilenameFacts.

(** ** Filenames and the catalog's reading of them *)

Section FilenameClaims.
Import JSDate JSString ISO Filename Catalog Samples.
Local Open Scope Z_scope.

(** C1 (the code departs from the claim). A recording persisted at
    2024-01-05T10:30:00Z is named from the UTC fields of that instant, but
    the catalog reads the same digits as local time: on a host one hour
    east of UTC the timestamp recovered by a refresh is one hour before the
    instant the file was saved at, whatever the file's modification time.
    For every host and every instant of the years 0100 to 9999 the
    recovered timestamp is the instant, cut to the second, minus the zone
    offset, so it is the instant itself exactly when that offset is zero. *)
Theorem C1_roundtrip_shifts_by_zone_offset :
  generateFilename jan5 = "recording-2024-01-05-10-30-00.webm"%string
  /\ (forall modified bytes,
        refresh utcPlus1Host
          (Yield (fileEntry (generateFilename jan5) modified bytes) Done)
        = inr [ {| filename := generateFilename jan5;
                   timestamp := Some (jan5 - 3600000);
                   size := bytes;
                   fileHandle := fileEntry (generateFilename jan5) modified bytes |} ])
  /\ jan5 - 3600000 <> jan5
  /\ (forall h t modified,
        100 <= YearFromTime t <= 9999 ->
        deriveTimestamp h (generateFilename t) modified
        = Some (t - msFromTime t - LocalTZA h (t - msFromTime t) false)
        /\ (deriveTimestamp h (generateFilename t) modified
            = Some (t - msFromTime t)
            <-> LocalTZA h (t - msFromTime t) false = 0)).
Proof.
  split; [reflexivity |]. split; [| split; [discriminate |]].
  - intros modified bytes. reflexivity.
  - intros h t modified Hy.
    rewrite (deriveTimestamp_generateFilename h t modified Hy).
    split; [reflexivity |]. split.
    + intros [= H]. lia.
    + intros ->. f_equal. lia.
Qed.

(** C10, as stated, fails at the first instant of year 10000: the ISO
    string then starts with a sign and six year digits, the name cut from
    it does not match the catalog's pattern, and the catalog falls back to
    the modification time. *)
Lemma C10_year_10000_counterexample :
  generateFilename year10000 = "recording-+010000-01-01-00-00.webm"%string
  /\ reMatch recordingPattern (generateFilename year10000) = None
  /\ (forall h modified,
        deriveTimestamp h (generateFilename year10000) modified = Some modified).
Proof.
  split; [reflexivity |]. split; [reflexivity |].
  intros h modified. reflexivity.
Qed.

(** C10, amended. For every instant of the UTC years 0000 to 9999 the
    generated name matches the catalog's pattern, its six groups being the
    padded UTC fields, and the catalog's timestamp is computed from those
    fields and never from the modification time. *)
Theorem C10_generated_name_matches_pattern t :
  -62167219200000 <= t < 253402300800000 ->
  reMatch recordingPattern (generateFilename t)
  = Some [ padDigits 4 (YearFromTime t) EmptyString;
           padDigits 2 (MonthFromTime t + 1) EmptyString;
           padDigits 2 (DateFromTime t) EmptyString;
           padDigits 2 (HourFromTime t) EmptyString;
           padDigits 2 (MinFromTime t) EmptyString;
           padDigits 2 (SecFromTime t) EmptyString ]
  /\ (forall h modified,
        deriveTimestamp h (generateFilename t) modified
        = Some (newDate h (YearFromTime t) (MonthFromTime t) (DateFromTime t)
                          (HourFromTime t) (MinFromTime t) (SecFromTime t))).
Proof.
  intros Ht. pose proof (four_digit_year t Ht) as Hy. split.
  - rewrite generateFilename_fields by assumption.
    apply reMatch_filenameOfFields.
  - intros h modified.
    now apply deriveTimestamp_generateFilename_fields.
Qed.

Lemma C10_generated_name_matches_pattern_witness :
  reMatch recordingPattern (generateFilename jan5)
  = Some [ "2024"; "01"; "05"; "10"; "30"; "00" ]%string
  /\ (forall h modified,
        deriveTimestamp h (generateFilename jan5) modified
        = Some (newDate h 2024 0 5 10 30 0)).
Proof.
  apply (C10_generated_name_matches_pattern jan5). unfold jan5. lia.
Defined.

End FilenameClaims.

(** ** The catalog scan and its order *)

Section CatalogFacts.
Import JSDate JSString Filename Catalog.
Local Open Scope Z_scope.

Lemma parseInt_digit_head c m : isDigit c = true -> is_Some (parseInt (String c m)).
Proof. intros H. unfold parseInt. rewrite H. eauto. Qed.

Lemma eat_digit_head p s m rest :
  eat (DigitClass :: p) s = Some (m, rest) -> is_Some (parseInt m).
Proof.
  destruct s as [| c s]; simpl; [discriminate |].
  destruct (isDigit c) eqn:Hc; [| discriminate].
  destruct (eat p s) as [[m' rest'] |]; [| discriminate].
  intros [= <- <-]. now apply parseInt_digit_head.
Qed.

Lemma reMatch_matchHere re s caps :
  reMatch re s = Some caps -> exists s', matchHere re s' = Some caps.
Proof.
  induction s as [| c s IH]; simpl.
  - destruct (matchHere re EmptyString) eqn:E; [| discriminate].
    intros [= <-]. eauto.
  - destruct (matchHere re (String c s)) eqn:E.
    + intros [= <-]. eauto.
    + exact IH.
Qed.

(** A match of the catalog's pattern delivers six numerals. *)
Lemma matchHere_recordingPattern s caps :
  matchHere recordingPattern s = Some caps ->
  exists y mo d hh mi se,
    caps = [y; mo; d; hh; mi; se]
    /\ is_Some (parseInt y) /\ is_Some (parseInt mo) /\ is_Some (parseInt d)
    /\ is_Some (parseInt hh) /\ is_Some (parseInt mi) /\ is_Some (parseInt se).
Proof.
  unfold recordingPattern, digits. cbn [matchHere repeat].
  repeat match goal with
  | |- context [match eat ?p ?x with _ => _ end] =>
      let E := fresh "E" in
      destruct (eat p x) as [[? ?] |] eqn:E; [| discriminate]
  end.
  intros [= <-]. do 6 eexists. split; [reflexivity |].
  repeat split; eapply eat_digit_head; eassumption.
Qed.

(** Every timestamp the catalog derives is a valid date. *)
Lemma deriveTimestamp_valid h n modified :
  is_Some (deriveTimestamp h n modified).
Proof.
  unfold deriveTimestamp.
  destruct (reMatch recordingPattern n) as [caps |] eqn:E; [| eauto].
  apply reMatch_matchHere in E as [s' E].
  apply matchHere_recordingPattern in E
    as (y & mo & d & hh & mi & se & -> & [? ->] & [? ->] & [? ->]
        & [? ->] & [? ->] & [? ->]).
  simpl. eauto.
Qed.

Lemma deriveTimestamp_unmatched h n modified :
  reMatch recordingPattern n = None ->
  deriveTimestamp h n modified = Some modified.
Proof. intros E. unfold deriveTimestamp. now rewrite E. Qed.

(** The loop collects, in enumeration order, one record per readable
    [.webm] file, unless the enumeration throws. *)
Lemma scan_collects h l : forall acc recordingsList,
  scan h l acc = inr recordingsList ->
  recordingsList = acc ++ flat_map (metadataOf h) (entriesOf l).
Proof.
  induction l as [| entry rest IH | err]; intros acc recordingsList; simpl.
  - intros [= <-]. now rewrite app_nil_r.
  - unfold metadataOf.
    destruct (isFileKind (kind entry) && endsWith ".webm" (name entry));
      [destruct (getFile entry) as [file |] |]; intros H; apply IH in H;
      rewrite H; simpl; now rewrite <- ?app_assoc.
  - discriminate.
Qed.

Lemma metadataOf_valid h entry r :
  In r (metadataOf h entry) -> is_Some (timestamp r).
Proof.
  unfold metadataOf.
  destruct (isFileKind (kind entry) && endsWith ".webm" (name entry));
    [destruct (getFile entry) as [file |] |]; simpl; try tauto.
  intros [<- | []]. simpl. apply deriveTimestamp_valid.
Qed.

Lemma insertSorted_Permutation {A} (cmp : A -> A -> number) x l :
  Permutation (insertSorted cmp x l) (x :: l).
Proof.
  induction l as [| y l IH]; simpl; [reflexivity |].
  destruct (sortCompare cmp x y <=? 0); [reflexivity |].
  rewrite IH. apply perm_swap.
Qed.

Lemma arraySort_Permutation {A} (cmp : A -> A -> number) l :
  Permutation (arraySort cmp l) l.
Proof.
  induction l as [| x l IH]; simpl; [reflexivity |].
  rewrite insertSorted_Permutation. now constructor.
Qed.

Lemma newerOrSame_trans a b c :
  newerOrSame a b -> newerOrSame b c -> newerOrSame a c.
Proof.
  intros (ta & tb & Ha & Hb & Hab) (tb' & tc & Hb' & Hc & Hbc).
  rewrite Hb in Hb'. injection Hb' as <-.
  exists ta, tc. repeat split; trivial. lia.
Qed.

Lemma newestFirst_decides a b :
  is_Some (timestamp a) -> is_Some (timestamp b) ->
  if sortCompare newestFirst a b <=? 0 then newerOrSame a b
  else newerOrSame b a.
Proof.
  intros [ta Ha] [tb Hb]. unfold sortCompare, newestFirst.
  rewrite Ha, Hb.
  destruct (Z.leb_spec (tb - ta) 0); [exists ta, tb | exists tb, ta];
    repeat split; trivial; lia.
Qed.

Lemma insertSorted_sorted x l :
  is_Some (timestamp x) -> Forall (fun r => is_Some (timestamp r)) l ->
  StronglySorted newerOrSame l ->
  StronglySorted newerOrSame (insertSorted newestFirst x l).
Proof.
  intros Hx Hl Hs. induction Hs as [| y l Hs IH Hy]; simpl.
  - repeat constructor.
  - inversion Hl as [| ? ? Hvy Hvl]; subst.
    pose proof (newestFirst_decides x y Hx Hvy) as Hd.
    destruct (sortCompare newestFirst x y <=? 0).
    + constructor; [now constructor |].
      constructor; [assumption |].
      eapply List.Forall_impl; [| exact Hy].
      intros z Hz. eapply newerOrSame_trans; eassumption.
    + constructor; [now apply IH |].
      eapply Permutation_Forall;
        [symmetry; apply insertSorted_Permutation |].
      now constructor.
Qed.

Lemma arraySort_sorted l :
  Forall (fun r => is_Some (timestamp r)) l ->
  StronglySorted newerOrSame (arraySort newestFirst l).
Proof.
  induction 1 as [| x l Hx Hl IH]; simpl; [constructor |].
  apply insertSorted_sorted; trivial.
  eapply Permutation_Forall; [symmetry; apply arraySort_Permutation |].
  assumption.
Qed.

Lemma refresh_inr h l recordingsList :
  refresh h l = inr recordingsList ->
  recordingsList
  = arraySort newestFirst (flat_map (metadataOf h) (entriesOf l)).
Proof.
  unfold refresh. destruct (scan h l []) as [err | collected] eqn:E;
    [discriminate |].
  apply scan_collects in E. simpl in E. subst collected.
  now intros [= <-].
Qed.

End CatalogFacts.

Section CatalogClaims.
Import JSDate JSString Filename Catalog Samples.
Local Open Scope Z_scope.

Lemma scan_Yield_readable h entry rest acc file :
  kind entry = KindFile ->
  endsWith ".webm" (name entry) = true ->
  getFile entry = Some file ->
  scan h (Yield entry rest) acc
  = scan h rest
      (acc ++ [ {| filename := name entry;
                   timestamp := deriveTimestamp h (name entry) (lastModified file);
                   size := fileSize file;
                   fileHandle := entry |} ]).
Proof. intros Hk He Hf. simpl. now rewrite Hk, He, Hf. Qed.

(** The local-time reading of the two names of the example. *)
Lemma deriveTimestamp_januaryName h modified :
  deriveTimestamp h januaryName modified
  = Some (1704450600000 - LocalTZA h 1704450600000 false).
Proof. reflexivity. Qed.

Lemma deriveTimestamp_marchName h modified :
  deriveTimestamp h marchName modified
  = Some (1709283600000 - LocalTZA h 1709283600000 false).
Proof. reflexivity. Qed.

(** C7. A refresh returns the records of the folder's readable [.webm]
    files sorted newest first: in the result every record's timestamp is
    at least that of each record after it, and the result is a
    rearrangement of what the scan collected. In particular, on any host
    whose zone offset stays within a day, a folder holding
    recording-2024-01-05-10-30-00.webm and recording-2024-03-01-09-00-00.webm
    is listed March first, whichever way the folder enumerates them. *)
Theorem C7_refresh_newest_first :
  (forall h l recordingsList,
     refresh h l = inr recordingsList ->
     StronglySorted newerOrSame recordingsList
     /\ Permutation recordingsList (flat_map (metadataOf h) (entriesOf l)))
  /\ (forall h m1 b1 m2 b2,
        (forall t, - msPerDay < LocalTZA h t false < msPerDay) ->
        let january := fileEntry januaryName m1 b1 in
        let march := fileEntry marchName m2 b2 in
        (exists r, refresh h (Yield january (Yield march Done)) = inr r
                   /\ map filename r = [marchName; januaryName])
        /\ (exists r, refresh h (Yield march (Yield january Done)) = inr r
                      /\ map filename r = [marchName; januaryName])).
Proof.
  split.
  - intros h l recordingsList H. apply refresh_inr in H. subst. split.
    + apply arraySort_sorted. apply List.Forall_forall. intros r Hr.
      apply in_flat_map in Hr as (entry & _ & Hr).
      eapply metadataOf_valid; eassumption.
    + apply arraySort_Permutation.
  - intros h m1 b1 m2 b2 Hzone january march.
    pose proof (Hzone 1704450600000) as Hj.
    pose proof (Hzone 1709283600000) as Hm.
    unfold msPerDay in *.
    split; eexists; unfold refresh;
      (split;
       [ subst january march;
         do 2 (erewrite scan_Yield_readable by reflexivity);
         reflexivity |]);
      cbn [arraySort insertSorted app name january march fileEntry];
      unfold sortCompare, newestFirst; cbn [timestamp];
      rewrite !deriveTimestamp_januaryName, !deriveTimestamp_marchName;
      repeat match goal with
      | |- context [?a <=? ?b] => destruct (Z.leb_spec a b); try lia
      end;
      reflexivity.
Qed.

Lemma C7_refresh_newest_first_witness :
  (exists r,
     refresh utcPlus1Host
       (Yield (fileEntry januaryName 0 10) (Yield (fileEntry marchName 0 20) Done))
     = inr r
     /\ map filename r = [marchName; januaryName])
  /\ StronglySorted newerOrSame
       [ {| filename := marchName; timestamp := Some 1709280000000;
            size := 20; fileHandle := fileEntry marchName 0 20 |};
         {| filename := januaryName; timestamp := Some 1704447000000;
            size := 10; fileHandle := fileEntry januaryName 0 10 |} ].
Proof.
  destruct C7_refresh_newest_first as [sorted example]. split.
  - apply (example utcPlus1Host 0 10 0 20).
    intros t. unfold msPerDay. simpl. lia.
  - apply (sorted utcPlus1Host
             (Yield (fileEntry januaryName 0 10)
                (Yield (fileEntry marchName 0 20) Done))).
    reflexivity.
Defined.

(** C8. A readable file of the folder whose name ends in [.webm] but
    does not match the generated-name pattern is kept by a refresh: its
    record is in the result, with the file's modification time as its
    timestamp. *)
Theorem C8_unmatched_name_listed_by_mtime h l recordingsList entry file :
  refresh h l = inr recordingsList ->
  In entry (entriesOf l) ->
  kind entry = KindFile ->
  endsWith ".webm" (name entry) = true ->
  getFile entry = Some file ->
  reMatch recordingPattern (name entry) = None ->
  In {| filename := name entry;
        timestamp := Some (lastModified file);
        size := fileSize file;
        fileHandle := entry |} recordingsList.
Proof.
  intros H Hin Hk He Hf Hm. apply refresh_inr in H. subst.
  eapply Permutation_in; [symmetry; apply arraySort_Permutation |].
  apply in_flat_map. exists entry. split; [assumption |].
  unfold metadataOf. rewrite Hk, He, Hf. simpl. left.
  now rewrite deriveTimestamp_unmatched.
Qed.

Lemma C8_unmatched_name_listed_by_mtime_witness :
  In {| filename := "holiday.webm"; timestamp := Some 1700000000000;
        size := 42; fileHandle := fileEntry "holiday.webm" 1700000000000 42 |}
     [ {| filename := marchName; timestamp := Some 1709280000000;
          size := 20; fileHandle := fileEntry marchName 0 20 |};
       {| filename := "holiday.webm"; timestamp := Some 1700000000000;
          size := 42; fileHandle := fileEntry "holiday.webm" 1700000000000 42 |} ].
Proof.
  apply (C8_unmatched_name_listed_by_mtime utcPlus1Host
           (Yield (fileEntry "holiday.webm" 1700000000000 42)
              (Yield (fileEntry marchName 0 20) Done))
           _ (fileEntry "holiday.webm" 1700000000000 42)
           {| lastModified := 1700000000000; fileSize := 42 |});
    try reflexivity.
  simpl. tauto.
Defined.

End CatalogClaims.

(** ** Sessions: toggles, start, finalize, errors, persistence *)

Section SessionClaims.
Import JSDate JSString Filename Catalog App Samples.
Local Open Scope Z_scope.

(** C9. While a session is recording the microphone and camera toggles
    are rendered disabled, so a click on either changes nothing: the
    enabled flags and the stored preferences keep their values. The toggle
    handlers never touch the recorder or its stream, so a change made
    while idle is only read when the next session builds its tracks. *)
Theorem C9_toggles_disabled_while_recording h s :
  isRecording s = true ->
  (click h ClickToggleMic s = s /\ click h ClickToggleCamera s = s)
  /\ isMicEnabled (click h ClickToggleMic s) = isMicEnabled s
  /\ isCameraEnabled (click h ClickToggleCamera s) = isCameraEnabled s
  /\ localStorage (click h ClickToggleMic s) !! MIC_ENABLED_KEY
     = localStorage s !! MIC_ENABLED_KEY
  /\ localStorage (click h ClickToggleCamera s) !! CAMERA_ENABLED_KEY
     = localStorage s !! CAMERA_ENABLED_KEY
  /\ (forall s0,
        mediaRecorder (handleToggleMic s0) = mediaRecorder s0
        /\ mediaStream (handleToggleMic s0) = mediaStream s0
        /\ mediaRecorder (handleToggleCamera s0) = mediaRecorder s0
        /\ mediaStream (handleToggleCamera s0) = mediaStream s0).
Proof.
  intros Hrec.
  assert (Hmic : click h ClickToggleMic s = s).
  { unfold click. simpl. rewrite Hrec. now rewrite andb_false_r. }
  assert (Hcam : click h ClickToggleCamera s = s).
  { unfold click. simpl. rewrite Hrec. now rewrite andb_false_r. }
  rewrite Hmic, Hcam. repeat split; reflexivity.
Qed.

Lemma C9_toggles_disabled_while_recording_witness :
  click utcHost ClickToggleMic midSession = midSession
  /\ click utcHost ClickToggleCamera midSession = midSession.
Proof.
  apply (C9_toggles_disabled_while_recording utcHost midSession).
  reflexivity.
Defined.

(** C2, as stated, fails. One second into a session the start handler
    is not a no-op: it empties the chunk sequence, starts another recorder
    and arms a second timer beside the first, resets the clock, and reports
    no validation error. A click on the start control reports none either. *)
Lemma C2_start_while_recording_counterexample :
  isRecording midSession = true
  /\ recordedChunks midSession = [chunk]
  /\ recordingDuration midSession = 1
  /\ recordedChunks (handleStartRecording (micGranted 8) midSession) = []
  /\ recordingDuration (handleStartRecording (micGranted 8) midSession) = 0
  /\ activeIntervals (handleStartRecording (micGranted 8) midSession) = [8%nat; 7%nat]
  /\ List.filter (fun e => match e with RecorderStart _ => true | _ => false end)
       (effects (handleStartRecording (micGranted 8) midSession))
     = [RecorderStart 1000; RecorderStart 1000]
  /\ recordingError (handleStartRecording (micGranted 8) midSession) = None
  /\ recordingError (click utcHost (ClickStart (micGranted 8)) midSession) = None.
Proof. repeat split; reflexivity. Qed.

(** C2, amended. While a session is recording the start control is not
    rendered (the stop control is shown in its place), so a start request
    is not delivered: the state, with its recorder, chunk sequence, clock
    and error message, is exactly what it was. *)
Theorem C2_start_not_offered_while_recording h inp s :
  isRecording s = true ->
  rendered (control s StartButton) = false
  /\ rendered (control s StopButton) = true
  /\ click h (ClickStart inp) s = s.
Proof.
  intros Hrec. unfold click. simpl. rewrite Hrec. repeat split; reflexivity.
Qed.

Lemma C2_start_not_offered_while_recording_witness :
  rendered (control midSession StartButton) = false
  /\ rendered (control midSession StopButton) = true
  /\ click utcHost (ClickStart (micGranted 8)) midSession = midSession.
Proof.
  apply (C2_start_not_offered_while_recording utcHost (micGranted 8) midSession).
  reflexivity.
Defined.

Lemma head_filter_holds {A} (f : A -> bool) (l : list A) x :
  head (List.filter f l) = Some x -> f x = true.
Proof.
  intros H. assert (Hin : In x (List.filter f l)).
  { destruct (List.filter f l); simpl in H; [discriminate |].
    injection H as ->. now left. }
  now apply filter_In in Hin.
Qed.

Lemma firstVideoTrack_isVideo stream t :
  firstVideoTrack stream = Some t -> isVideo t = true.
Proof. apply head_filter_holds. Qed.

Lemma firstAudioTrack_not_video stream t :
  firstAudioTrack stream = Some t -> isVideo t = false.
Proof.
  intros H. apply head_filter_holds in H. unfold isAudio, isVideo in *.
  now destruct (trackKind t).
Qed.

(** The track set only depends on the toggles, the screen handle and the
    selected devices, none of which the reset at the top of the start
    handler touches. *)
Lemma buildTracks_after_reset inp s :
  buildTracks inp
    (s |> setRecordingError None |> setSaveSuccess None |> setRecordedChunks [])
  = buildTracks inp s.
Proof. reflexivity. Qed.

Ltac split_build inp s :=
  unfold buildTracks, videoTracks, audioTracks;
  destruct (isScreenEnabled s) eqn:Hscreen;
  destruct (screenStream s) as [stream |] eqn:Hstream;
  destruct (isCameraEnabled s) eqn:Hcamera;
  destruct (isMicEnabled s) eqn:Hmic;
  destruct (cameraMedia inp) as [cameraErr | cameraStream] eqn:Hcam;
  destruct (micMedia inp) as [micErr | audioStream] eqn:Haudio.

Ltac split_first_tracks :=
  repeat match goal with
  | |- context [firstVideoTrack ?o] => destruct (firstVideoTrack o)
  | |- context [firstAudioTrack ?o] => destruct (firstAudioTrack o)
  end.

(** C3. Whatever the toggles are, the track set built for a session
    never holds a screen video track together with a camera video track.
    With the screen enabled and its handle live, the camera is not
    requested and the only video track is the screen's; a camera video
    track is only present when the camera is enabled and the screen is not
    contributing. A session that starts records exactly this track set. *)
Theorem C3_screen_preempts_camera inp s :
  (forall tracks fx,
     buildTracks inp s = (inr tracks, fx) ->
     existsb isScreenVideo tracks && existsb isCameraVideo tracks = false)
  /\ (forall stream,
        isScreenEnabled s = true -> screenStream s = Some stream ->
        existsb requestsCamera (snd (buildTracks inp s)) = false
        /\ forall tracks,
             fst (buildTracks inp s) = inr tracks ->
             List.filter isVideoTrack tracks
             = map FromScreen (optionToList (firstVideoTrack stream)))
  /\ (forall tracks,
        fst (buildTracks inp s) = inr tracks ->
        existsb isCameraVideo tracks = true ->
        isCameraEnabled s = true
        /\ isScreenEnabled s && isSome (screenStream s) = false)
  /\ (isRecording s = false ->
      isRecording (handleStartRecording inp s) = true ->
      exists tracks r,
        fst (buildTracks inp s) = inr tracks
        /\ mediaStream (handleStartRecording inp s) = Some tracks
        /\ mediaRecorder (handleStartRecording inp s) = Some r
        /\ recorderStream r = tracks).
Proof.
  split; [| split; [| split]].
  - intros tracks fx. split_build inp s; intros [= <- <-];
      split_first_tracks; simpl; rewrite ?andb_false_r; reflexivity.
  - intros stream Hon Hlive.
    unfold buildTracks, videoTracks, audioTracks. rewrite Hon, Hlive.
    split.
    + destruct (isMicEnabled s); [destruct (micMedia inp) |]; reflexivity.
    + intros tracks.
      destruct (firstVideoTrack stream) as [v |] eqn:Hv;
        [apply firstVideoTrack_isVideo in Hv |];
        (destruct (isMicEnabled s);
         [ destruct (micMedia inp) as [e | audioStream];
           [discriminate |];
           destruct (firstAudioTrack audioStream) as [a |] eqn:Ha;
           [apply firstAudioTrack_not_video in Ha |] |]);
        simpl; intros [= <-]; simpl; rewrite ?Hv, ?Ha; reflexivity.
  - intros tracks. split_build inp s; intros [= <-]; simpl;
      split_first_tracks; simpl; try discriminate; intros _;
      split; reflexivity.
  - intros Hidle. unfold handleStartRecording.
    rewrite buildTracks_after_reset.
    cbn [isCameraEnabled isScreenEnabled isMicEnabled screenStream
         setRecordingError setSaveSuccess setRecordedChunks].
    destruct (negb (isCameraEnabled s || isScreenEnabled s)
              && negb (isMicEnabled s));
      [simpl; congruence |].
    destruct (isScreenEnabled s && negb (isSome (screenStream s)));
      [simpl; congruence |].
    destruct (buildTracks inp s) as [[err | tracks] fx];
      [simpl; congruence |].
    destruct (constructorError inp); [simpl; congruence |].
    destruct (startError inp); [simpl; congruence |].
    intros _. simpl. exists tracks. eexists. repeat split; reflexivity.
Qed.

Lemma C3_screen_preempts_camera_witness :
  List.filter isVideoTrack [FromScreen screenTrack; FromMic micTrack]
  = map FromScreen (optionToList (firstVideoTrack [screenTrack])).
Proof.
  destruct (C3_screen_preempts_camera (allGranted 9) allSourcesOn)
    as (_ & Hscreen & _).
  destruct (Hscreen [screenTrack] eq_refl eq_refl) as [_ Hvideo].
  apply Hvideo. reflexivity.
Defined.

(** *** Persistence *)

Lemma persisted_app fx fx' : persisted (fx ++ fx') = persisted fx ++ persisted fx'.
Proof. apply flat_map_app. Qed.

(** A catalog refresh makes no external call recorded in the log and
    leaves the session cells alone. *)
Lemma loadRecordings_frame h folder l s :
  effects (loadRecordings h folder l s) = effects s
  /\ saveSuccess (loadRecordings h folder l s) = saveSuccess s
  /\ recordingError (loadRecordings h folder l s) = recordingError s.
Proof.
  unfold loadRecordings. destruct folder; [destruct (refresh h l) |];
    repeat split; reflexivity.
Qed.

(** C6. Persistence generates one filename and uses it on both paths.
    With no live folder handle, or when any step of the structured write
    rejects, exactly one artifact results, the download of the blob under
    that same name, and the success message names it; when the structured
    write succeeds the one artifact is the file in the folder. Either way
    a success message is set and no session error is raised. *)
Theorem C6_persistence_falls_back_with_same_name h folder inp blob s :
  let filename := generateFilename (now inp) in
  let s' := saveRecording h folder inp blob s in
  exists new,
    effects s' = effects s ++ new
    /\ (forall n, In (GetFileHandleCreate n) new -> n = filename)
    /\ (folder = None \/ writeOutcome inp <> WriteSucceeds ->
        persisted new = [(filename, blob)]
        /\ In (Download filename blob) new
        /\ saveSuccess s'
           = Some (String.append "Recording downloaded: " filename))
    /\ (folder <> None -> writeOutcome inp = WriteSucceeds ->
        persisted new = [(filename, blob)]
        /\ In (FileWritten filename blob) new
        /\ saveSuccess s' = Some (String.append "Recording saved: " filename))
    /\ recordingError s' = recordingError s.
Proof.
  intros filename s'. subst s'. unfold saveRecording. fold filename.
  destruct folder as [folder |]; [destruct (writeOutcome inp) eqn:Hw |].
  all: try (destruct (loadRecordings_frame h (Some folder) (listing inp)
              (s |> emit (GetFileHandleCreate filename)
                 |> emit (FileWritten filename blob)
                 |> setSaveSuccess
                      (Some (String.append "Recording saved: " filename))
                 |> emit ClearSaveSuccessLater))
              as (-> & -> & ->)).
  all: eexists; split;
    [ unfold downloadFallback; simpl; rewrite <- ?app_assoc; reflexivity |].
  all: simpl; repeat split; try reflexivity; try tauto; try congruence.
  all: try (intros n Hn; simpl in Hn; intuition congruence).
  all: try (intros [? | ?]; congruence).
  all: match goal with
       | H : _ \/ _ |- _ => exfalso; destruct H; congruence
       end.
Qed.

Lemma C6_persistence_falls_back_with_same_name_witness :
  exists new,
    effects (saveRecording utcHost (Some {| folderName := "Videos" |})
               {| now := jan5;
                  writeOutcome :=
                    WriteFails {| errName := "QuotaExceededError";
                                  errMessage := "disk full" |};
                  listing := Done |}
               chunk idle)
    = effects idle ++ new
    /\ persisted new = [(januaryName, chunk)]
    /\ In (Download januaryName chunk) new.
Proof.
  destruct (C6_persistence_falls_back_with_same_name utcHost
              (Some {| folderName := "Videos" |})
              {| now := jan5;
                 writeOutcome :=
                   WriteFails {| errName := "QuotaExceededError";
                                 errMessage := "disk full" |};
                 listing := Done |}
              chunk idle)
    as (new & Hfx & _ & Hfall & _).
  exists new. split; [exact Hfx |].
  destruct Hfall as (Hp & Hd & _); [right; discriminate |].
  split; [exact Hp | exact Hd].
Defined.

(** *** Finalize *)

Lemma saveRecording_persists_once h folder inp blob s :
  exists new,
    effects (saveRecording h folder inp blob s) = effects s ++ new
    /\ persisted new = [(generateFilename (now inp), blob)].
Proof.
  unfold saveRecording.
  destruct folder as [folder |]; [destruct (writeOutcome inp) |].
  all: try (destruct (loadRecordings_frame h (Some folder) (listing inp)
              (s |> emit (GetFileHandleCreate (generateFilename (now inp)))
                 |> emit (FileWritten (generateFilename (now inp)) blob)
                 |> setSaveSuccess
                      (Some (String.append "Recording saved: "
                               (generateFilename (now inp))))
                 |> emit ClearSaveSuccessLater))
              as (-> & _)).
  all: eexists; split;
    [ unfold downloadFallback; simpl; rewrite <- ?app_assoc; reflexivity
    | reflexivity ].
Qed.

Lemma TrackStop_persists_nothing tracks :
  persisted (map TrackStop tracks) = []
  /\ existsb opensFolderFile (map TrackStop tracks) = false.
Proof. induction tracks as [| t tracks [IH1 IH2]]; simpl; auto. Qed.

Lemma buildTracks_persists_nothing inp s :
  persisted (snd (buildTracks inp s)) = [].
Proof. split_build inp s; reflexivity. Qed.

Lemma handleStartRecording_persists_nothing inp s :
  exists fx,
    effects (handleStartRecording inp s) = effects s ++ fx
    /\ persisted fx = [].
Proof.
  unfold handleStartRecording. rewrite buildTracks_after_reset.
  cbn [isCameraEnabled isScreenEnabled isMicEnabled screenStream
       setRecordingError setSaveSuccess setRecordedChunks].
  destruct (negb (isCameraEnabled s || isScreenEnabled s)
            && negb (isMicEnabled s));
    [exists []; simpl; now rewrite app_nil_r |].
  destruct (isScreenEnabled s && negb (isSome (screenStream s)));
    [exists []; simpl; now rewrite app_nil_r |].
  pose proof (buildTracks_persists_nothing inp s) as Hb.
  destruct (buildTracks inp s) as [[err | tracks] fx]; simpl in Hb;
    [exists fx; simpl; auto |].
  destruct (constructorError inp); [exists fx; simpl; auto |].
  destruct (startError inp); [exists fx; simpl; auto |].
  eexists. split; [simpl; rewrite <- ?app_assoc; reflexivity |].
  rewrite persisted_app, Hb. reflexivity.
Qed.

Lemma handleStopRecording_persists_nothing s :
  exists fx,
    effects (handleStopRecording s) = effects s ++ fx /\ persisted fx = [].
Proof.
  unfold handleStopRecording.
  destruct (mediaRecorder s) as [r |]; [destruct (recorderState r) |].
  - exists []. simpl. now rewrite app_nil_r.
  - exists [RecorderStop]. simpl. auto.
  - exists []. simpl. now rewrite app_nil_r.
Qed.

Lemma ondataavailable_effects data s :
  effects (ondataavailable data s) = effects s.
Proof.
  unfold ondataavailable.
  destruct data as [d |]; [destruct (0 <? blobSize d) |]; reflexivity.
Qed.

Lemma onstop_persists h r inp s :
  exists new,
    effects (onstop h r inp s) = effects s ++ new
    /\ match recordedChunks s with
       | [] => persisted new = [] /\ existsb opensFolderFile new = false
       | _ :: _ =>
           exists blob,
             persisted new = [(generateFilename (now inp), blob)]
             /\ blobData blob = List.concat (map blobData (recordedChunks s))
       end.
Proof.
  unfold onstop.
  set (s1 := match recordingTimer s with
             | Some id => s |> clearInterval id |> setRecordingTimer None
             | None => s
             end).
  assert (H1 : exists fx1,
             effects s1 = effects s ++ fx1 /\ persisted fx1 = []
             /\ existsb opensFolderFile fx1 = false
             /\ recordedChunks s1 = recordedChunks s).
  { subst s1. destruct (recordingTimer s) as [id |].
    - exists [ClearInterval id]. simpl. auto.
    - exists []. simpl. rewrite app_nil_r. auto. }
  destruct H1 as (fx1 & He1 & Hp1 & Ho1 & Hc1).
  set (s2 := match mediaStream s1 with
             | Some tracks =>
                 s1 |> emitAll (map TrackStop
                          (List.filter
                             (stoppedAtFinalize (capturedScreenStream r)) tracks))
                    |> setMediaStream None
             | None => s1
             end).
  assert (H2 : exists fx2,
             effects s2 = effects s1 ++ fx2 /\ persisted fx2 = []
             /\ existsb opensFolderFile fx2 = false
             /\ recordedChunks s2 = recordedChunks s1).
  { subst s2. destruct (mediaStream s1) as [tracks |].
    - eexists. split; [reflexivity |].
      destruct (TrackStop_persists_nothing
                  (List.filter (stoppedAtFinalize (capturedScreenStream r)) tracks)).
      auto.
    - exists []. simpl. rewrite app_nil_r. auto. }
  destruct H2 as (fx2 & He2 & Hp2 & Ho2 & Hc2).
  rewrite <- Hc1, <- Hc2.
  destruct (recordedChunks s2) as [| c chunks] eqn:Hchunks.
  - exists (fx1 ++ fx2). cbn [effects setRecordedChunks setRecordingDuration].
    rewrite He2, He1, app_assoc. split; [reflexivity |].
    rewrite persisted_app, Hp1, Hp2, existsb_app, Ho1, Ho2. auto.
  - match goal with
    | |- context [saveRecording h ?f inp ?b s2] =>
        destruct (saveRecording_persists_once h f inp b s2) as (fx3 & He3 & Hp3);
        exists (fx1 ++ fx2 ++ fx3); split;
          [ cbn [effects setRecordedChunks setRecordingDuration];
            rewrite He3, He2, He1, <- !app_assoc; reflexivity
          | exists b; split;
              [ rewrite !persisted_app, Hp1, Hp2, Hp3; reflexivity
              | reflexivity ] ]
    end.
Qed.

(** C4. When a session finalizes, the stop callback persists exactly
    one artifact (the concatenated chunks, under the generated filename)
    if the chunk sequence is non-empty, and with an empty sequence it
    neither opens a file in the folder nor triggers a download. Hence a
    start followed at once by a stop, with the recorder's final data event
    in between, leaves no artifact or exactly one, and none precisely when
    no chunk was collected. *)
Theorem C4_finalize_persists_once_or_not_at_all :
  (forall h r inp s,
     exists new,
       effects (onstop h r inp s) = effects s ++ new
       /\ match recordedChunks s with
          | [] => persisted new = [] /\ existsb opensFolderFile new = false
          | _ :: _ =>
              exists blob,
                persisted new = [(generateFilename (now inp), blob)]
                /\ blobData blob = List.concat (map blobData (recordedChunks s))
          end)
  /\ (forall h r start final save s,
        let s3 := s |> handleStartRecording start |> handleStopRecording
                    |> ondataavailable final in
        exists fx,
          effects (onstop h r save s3) = effects s ++ fx
          /\ (List.length (persisted fx) <= 1)%nat
          /\ (persisted fx = [] <-> recordedChunks s3 = [])).
Proof.
  split; [exact onstop_persists |].
  intros h r start final save s s3.
  destruct (handleStartRecording_persists_nothing start s) as (fx1 & He1 & Hp1).
  destruct (handleStopRecording_persists_nothing (handleStartRecording start s))
    as (fx2 & He2 & Hp2).
  pose proof (ondataavailable_effects final
                (handleStopRecording (handleStartRecording start s))) as He3.
  destruct (onstop_persists h r save s3) as (new & He4 & Hnew).
  exists (fx1 ++ fx2 ++ new). split.
  - rewrite He4. subst s3. rewrite He3, He2, He1, <- !app_assoc. reflexivity.
  - rewrite !persisted_app, Hp1, Hp2. simpl.
    destruct (recordedChunks s3) as [| c chunks].
    + destruct Hnew as [-> _]. simpl. split; [lia | tauto].
    + destruct Hnew as (blob & -> & _). simpl. split; [lia |].
      split; discriminate.
Qed.

Lemma C4_finalize_persists_once_or_not_at_all_witness :
  exists fx,
    effects (onstop utcHost
               {| recorderStream := [FromMic micTrack];
                  recorderMimeType := "video/webm;codecs=vp9";
                  recorderState := Inactive;
                  capturedScreenStream := None;
                  capturedFolderHandle := Some {| folderName := "Videos" |} |}
               {| now := jan5; writeOutcome := WriteSucceeds; listing := Done |}
               (idle |> handleStartRecording (micGranted 7)
                     |> handleStopRecording
                     |> ondataavailable (Some chunk)))
    = effects idle ++ fx
    /\ (List.length (persisted fx) <= 1)%nat.
Proof.
  destruct C4_finalize_persists_once_or_not_at_all as [_ scenario].
  destruct (scenario utcHost
              {| recorderStream := [FromMic micTrack];
                 recorderMimeType := "video/webm;codecs=vp9";
                 recorderState := Inactive;
                 capturedScreenStream := None;
                 capturedFolderHandle := Some {| folderName := "Videos" |} |}
              (micGranted 7) (Some chunk)
              {| now := jan5; writeOutcome := WriteSucceeds; listing := Done |}
              idle)
    as (fx & Hfx & Hlen & _).
  exists fx. split; [exact Hfx | exact Hlen].
Defined.

End SessionClaims.

(** ** Sessions: validation, start, data, finalize, stop, screen toggle *)

Section SessionBehaviour.
Import JSDate JSString Filename Catalog App Samples Observations MoreSamples.
Local Open Scope Z_scope.

(** X1. A start with no source enabled, or with the screen toggle on but no
    live screen handle, is refused before any device is requested: the
    matching message is shown and recorder, stream, timer and recording
    flag are untouched. The reset at the top of the handler has already
    run, though: the chunk list is emptied and the success message cleared. *)
Theorem start_refused_by_validation inp s :
  (isMicEnabled s = false /\ isCameraEnabled s = false
   /\ isScreenEnabled s = false)
  \/ (isScreenEnabled s = true /\ screenStream s = None) ->
  let s' := handleStartRecording inp s in
  recordingError s'
  = Some (if isScreenEnabled s then NO_SCREEN_MESSAGE else NO_SOURCE_MESSAGE)
  /\ effects s' = effects s
  /\ mediaRecorder s' = mediaRecorder s
  /\ mediaStream s' = mediaStream s
  /\ recordingTimer s' = recordingTimer s
  /\ activeIntervals s' = activeIntervals s
  /\ isRecording s' = isRecording s
  /\ recordedChunks s' = []
  /\ saveSuccess s' = None.
Proof.
  intros [(Hm & Hc & Hs) | (Hs & Hn)] s'; subst s'; unfold handleStartRecording;
    cbn [isCameraEnabled isScreenEnabled isMicEnabled screenStream
         setRecordingError setSaveSuccess setRecordedChunks].
  - rewrite Hm, Hc, Hs. simpl. repeat split; reflexivity.
  - rewrite Hs, Hn. rewrite orb_true_r. simpl. repeat split; reflexivity.
Qed.

Lemma start_refused_by_validation_witness :
  recordingError (handleStartRecording (micGranted 3) allOff)
  = Some NO_SOURCE_MESSAGE
  /\ effects (handleStartRecording (micGranted 3) allOff) = effects allOff.
Proof.
  destruct (start_refused_by_validation (micGranted 3) allOff) as (H1 & H2 & _).
  - left. repeat split; reflexivity.
  - split; [exact H1 | exact H2].
Defined.

(** X2. When a device request is rejected while the track set is built, the
    start stops there: the message is the one for the error's class, the
    only external calls are the requests made up to the rejection, and no
    recorder, stream or timer is installed. In particular a rejected
    camera means the microphone is never asked for. *)
Theorem start_abandoned_on_rejected_device inp s err fx :
  isMicEnabled s || isCameraEnabled s || isScreenEnabled s = true ->
  (isScreenEnabled s = true -> isSome (screenStream s) = true) ->
  buildTracks inp s = (inl err, fx) ->
  let s' := handleStartRecording inp s in
  recordingError s' = Some (startErrorMessage err)
  /\ effects s' = effects s ++ fx
  /\ mediaRecorder s' = mediaRecorder s
  /\ mediaStream s' = mediaStream s
  /\ recordingTimer s' = recordingTimer s
  /\ activeIntervals s' = activeIntervals s
  /\ isRecording s' = isRecording s
  /\ (forall cameraErr,
        cameraMedia inp = inl cameraErr -> isCameraEnabled s = true ->
        isScreenEnabled s = false ->
        err = cameraErr
        /\ fx = [GetUserMediaVideo (deviceConstraint (selectedCameraId s))]).
Proof.
  intros Hsrc Hlive Hb s'. subst s'. unfold handleStartRecording.
  rewrite buildTracks_after_reset, Hb.
  cbn [isCameraEnabled isScreenEnabled isMicEnabled screenStream
       setRecordingError setSaveSuccess setRecordedChunks].
  replace (negb (isCameraEnabled s || isScreenEnabled s)
           && negb (isMicEnabled s)) with false
    by (destruct (isMicEnabled s), (isCameraEnabled s), (isScreenEnabled s);
        simpl in *; congruence).
  replace (isScreenEnabled s && negb (isSome (screenStream s))) with false
    by (destruct (isScreenEnabled s); [rewrite Hlive |]; reflexivity).
  simpl. do 7 (split; [reflexivity |]).
  intros cameraErr Hcamera Hon Hoff. revert Hb.
  unfold buildTracks, videoTracks. rewrite Hoff, Hcamera, Hon.
  simpl. now intros [= <- <-].
Qed.

Lemma start_abandoned_on_rejected_device_witness :
  recordingError (handleStartRecording (cameraDenied 4) cameraAndMic)
  = Some "Permission denied. Please allow access to your microphone and camera."%string
  /\ effects (handleStartRecording (cameraDenied 4) cameraAndMic)
     = effects cameraAndMic ++ [GetUserMediaVideo None].
Proof.
  destruct (start_abandoned_on_rejected_device (cameraDenied 4) cameraAndMic
              denied [GetUserMediaVideo None]) as (H1 & H2 & _);
    try reflexivity.
  - discriminate.
  - split; [exact H1 | exact H2].
Defined.

(** X3. The encoding is the first of vp9, vp8 and plain webm that the
    platform supports, and the empty identifier (platform default) exactly
    when it supports none of them. *)
Theorem chooseMimeType_first_supported supported :
  let m := chooseMimeType supported in
  (supported "video/webm;codecs=vp9" = true -> m = "video/webm;codecs=vp9"%string)
  /\ (supported "video/webm;codecs=vp9" = false ->
      supported "video/webm;codecs=vp8" = true ->
      m = "video/webm;codecs=vp8"%string)
  /\ (supported "video/webm;codecs=vp9" = false ->
      supported "video/webm;codecs=vp8" = false ->
      supported "video/webm" = true -> m = "video/webm"%string)
  /\ (m = ""%string <->
      supported "video/webm;codecs=vp9" = false
      /\ supported "video/webm;codecs=vp8" = false
      /\ supported "video/webm" = false)
  /\ (m <> ""%string -> supported m = true).
Proof.
  unfold chooseMimeType.
  destruct (supported "video/webm;codecs=vp9") eqn:H9;
    destruct (supported "video/webm;codecs=vp8") eqn:H8;
    destruct (supported "video/webm") eqn:H0; simpl;
    repeat split; try congruence; try discriminate;
    try (intros (? & ? & ?); discriminate); try tauto.
Qed.

Lemma chooseMimeType_first_supported_witness :
  chooseMimeType (fun m => String.eqb m "video/webm") = "video/webm"%string.
Proof.
  destruct (chooseMimeType_first_supported (fun m => String.eqb m "video/webm"))
    as (_ & _ & H & _).
  apply H; reflexivity.
Defined.

(** X4. A start that passes validation, gets its tracks and meets no
    exception leaves the session recording: the clock at 0 with its timer
    armed, an empty chunk list, no message, and a recorder over exactly the
    built tracks that flushes data every 1000 ms, with the screen handle
    and the folder handle of that moment captured for the stop callback. *)
Theorem start_succeeds inp s tracks fx :
  isMicEnabled s || isCameraEnabled s || isScreenEnabled s = true ->
  (isScreenEnabled s = true -> isSome (screenStream s) = true) ->
  buildTracks inp s = (inr tracks, fx) ->
  constructorError inp = None ->
  startError inp = None ->
  let s' := handleStartRecording inp s in
  isRecording s' = true
  /\ recordingDuration s' = 0
  /\ recordedChunks s' = []
  /\ recordingError s' = None
  /\ saveSuccess s' = None
  /\ mediaStream s' = Some tracks
  /\ mediaRecorder s'
     = Some {| recorderStream := tracks;
               recorderMimeType := chooseMimeType (isTypeSupported inp);
               recorderState := Recording;
               capturedScreenStream := screenStream s;
               capturedFolderHandle := folderHandle s |}
  /\ recordingTimer s' = Some (intervalId inp)
  /\ activeIntervals s' = intervalId inp :: activeIntervals s
  /\ effects s'
     = effects s ++ fx ++ [RecorderStart 1000; SetInterval (intervalId inp)].
Proof.
  intros Hsrc Hlive Hb Hc Hst s'. subst s'. unfold handleStartRecording.
  rewrite buildTracks_after_reset, Hb, Hc, Hst.
  cbn [isCameraEnabled isScreenEnabled isMicEnabled screenStream
       setRecordingError setSaveSuccess setRecordedChunks].
  replace (negb (isCameraEnabled s || isScreenEnabled s)
           && negb (isMicEnabled s)) with false
    by (destruct (isMicEnabled s), (isCameraEnabled s), (isScreenEnabled s);
        simpl in *; congruence).
  replace (isScreenEnabled s && negb (isSome (screenStream s))) with false
    by (destruct (isScreenEnabled s); [rewrite Hlive |]; reflexivity).
  simpl. repeat split; try reflexivity.
  now rewrite <- !app_assoc.
Qed.

Lemma start_succeeds_witness :
  isRecording (handleStartRecording (allGranted 5) allSourcesOn) = true
  /\ mediaStream (handleStartRecording (allGranted 5) allSourcesOn)
     = Some [FromScreen screenTrack; FromMic micTrack].
Proof.
  destruct (start_succeeds (allGranted 5) allSourcesOn
              [FromScreen screenTrack; FromMic micTrack]
              [GetUserMediaAudio None])
    as (H1 & _ & _ & _ & _ & H6 & _); try reflexivity.
  split; [exact H1 | exact H6].
Defined.

(** *** Data events *)

Lemma ondataavailable_frame data s :
  effects (ondataavailable data s) = effects s
  /\ mediaStream (ondataavailable data s) = mediaStream s
  /\ recordingTimer (ondataavailable data s) = recordingTimer s
  /\ mediaRecorder (ondataavailable data s) = mediaRecorder s
  /\ isRecording (ondataavailable data s) = isRecording s.
Proof.
  unfold ondataavailable.
  destruct data as [d |]; [destruct (0 <? blobSize d) |];
    repeat split; reflexivity.
Qed.

Lemma deliverData_chunks events : forall s,
  recordedChunks (deliverData events s) = recordedChunks s ++ keptData events.
Proof.
  induction events as [| d events IH]; intros s; simpl.
  - now rewrite app_nil_r.
  - unfold deliverData in *. simpl. rewrite IH. unfold ondataavailable.
    destruct d as [b |]; [destruct (0 <? blobSize b) |]; simpl;
      now rewrite <- ?app_assoc.
Qed.

Lemma deliverData_frame events : forall s,
  effects (deliverData events s) = effects s
  /\ mediaStream (deliverData events s) = mediaStream s
  /\ recordingTimer (deliverData events s) = recordingTimer s.
Proof.
  induction events as [| d events IH]; intros s; simpl; [auto |].
  unfold deliverData in *. simpl.
  destruct (IH (ondataavailable d s)) as (-> & -> & ->).
  destruct (ondataavailable_frame d s) as (-> & -> & -> & _). auto.
Qed.

(** *** Finalize *)

Lemma loadRecordings_session h folder l s :
  effects (loadRecordings h folder l s) = effects s
  /\ mediaStream (loadRecordings h folder l s) = mediaStream s
  /\ recordingTimer (loadRecordings h folder l s) = recordingTimer s
  /\ activeIntervals (loadRecordings h folder l s) = activeIntervals s
  /\ mediaRecorder (loadRecordings h folder l s) = mediaRecorder s
  /\ isRecording (loadRecordings h folder l s) = isRecording s
  /\ recordedChunks (loadRecordings h folder l s) = recordedChunks s
  /\ recordingDuration (loadRecordings h folder l s) = recordingDuration s
  /\ saveSuccess (loadRecordings h folder l s) = saveSuccess s
  /\ recordingError (loadRecordings h folder l s) = recordingError s.
Proof.
  unfold loadRecordings. destruct folder; [destruct (refresh h l) |];
    repeat split; reflexivity.
Qed.

Lemma saveRecording_session h folder inp blob s :
  effects (saveRecording h folder inp blob s)
  = effects s ++ persistenceCalls folder (writeOutcome inp)
                   (generateFilename (now inp)) blob
  /\ mediaStream (saveRecording h folder inp blob s) = mediaStream s
  /\ recordingTimer (saveRecording h folder inp blob s) = recordingTimer s
  /\ activeIntervals (saveRecording h folder inp blob s) = activeIntervals s
  /\ mediaRecorder (saveRecording h folder inp blob s) = mediaRecorder s
  /\ isRecording (saveRecording h folder inp blob s) = isRecording s
  /\ recordingError (saveRecording h folder inp blob s) = recordingError s.
Proof.
  unfold saveRecording, persistenceCalls.
  destruct folder as [folder |]; [destruct (writeOutcome inp) |].
  all: try match goal with
       | |- context [loadRecordings ?hh ?f ?l ?x] =>
           destruct (loadRecordings_session hh f l x)
             as (-> & -> & -> & -> & -> & -> & _ & _ & _ & ->)
       end.
  all: unfold downloadFallback; simpl; rewrite <- ?app_assoc;
    repeat split; reflexivity.
Qed.

(** What the stop callback does, call by call, and the state it leaves:
    timer disarmed, stream dropped, chunk list and clock reset; the
    recording flag and the recorder are not its business. *)
Lemma onstop_trace h r inp s :
  effects (onstop h r inp s) = effects s ++ finalizeCalls r inp s
  /\ recordingTimer (onstop h r inp s) = None
  /\ mediaStream (onstop h r inp s) = None
  /\ recordedChunks (onstop h r inp s) = []
  /\ recordingDuration (onstop h r inp s) = 0
  /\ isRecording (onstop h r inp s) = isRecording s
  /\ mediaRecorder (onstop h r inp s) = mediaRecorder s.
Proof.
  unfold onstop, finalizeCalls. cbv zeta.
  set (s1 := match recordingTimer s with
             | Some id => s |> clearInterval id |> setRecordingTimer None
             | None => s
             end).
  assert (H1 : effects s1
               = effects s
                 ++ match recordingTimer s with
                    | Some id => [ClearInterval id]
                    | None => []
                    end
               /\ recordingTimer s1 = None
               /\ mediaStream s1 = mediaStream s
               /\ recordedChunks s1 = recordedChunks s
               /\ isRecording s1 = isRecording s
               /\ mediaRecorder s1 = mediaRecorder s).
  { subst s1. destruct (recordingTimer s) as [id |] eqn:Ht; simpl;
      rewrite ?app_nil_r; repeat split; trivial. }
  destruct H1 as (He1 & Ht1 & Hm1 & Hc1 & Hi1 & Hr1).
  set (s2 := match mediaStream s1 with
             | Some tracks =>
                 s1 |> emitAll (map TrackStop
                          (List.filter
                             (stoppedAtFinalize (capturedScreenStream r)) tracks))
                    |> setMediaStream None
             | None => s1
             end).
  assert (H2 : effects s2
               = effects s1
                 ++ match mediaStream s with
                    | Some tracks =>
                        map TrackStop
                          (List.filter
                             (stoppedAtFinalize (capturedScreenStream r)) tracks)
                    | None => []
                    end
               /\ recordingTimer s2 = None
               /\ mediaStream s2 = None
               /\ recordedChunks s2 = recordedChunks s
               /\ isRecording s2 = isRecording s
               /\ mediaRecorder s2 = mediaRecorder s).
  { subst s2. rewrite <- Hm1, <- Hc1, <- Hi1, <- Hr1, <- Ht1.
    destruct (mediaStream s1) as [tracks |] eqn:Hms; simpl;
      rewrite ?app_nil_r; repeat split; trivial. }
  destruct H2 as (He2 & Ht2 & Hm2 & Hc2 & Hi2 & Hr2).
  rewrite Hc2.
  destruct (recordedChunks s) as [| c chunks] eqn:Hc.
  - cbn [effects recordingTimer mediaStream recordedChunks recordingDuration
         isRecording mediaRecorder setRecordedChunks setRecordingDuration].
    rewrite He2, He1, Ht2, Hm2, Hi2, Hr2, app_nil_r, <- app_assoc.
    repeat split; reflexivity.
  - destruct (saveRecording_session h (capturedFolderHandle r) inp
                (newBlob (c :: chunks)
                   (if String.eqb (recorderMimeType r) "" then "video/webm"%string
                    else recorderMimeType r)) s2)
      as (He & Hms & Hrt & _ & Hmr & Hir & _).
    cbn [effects recordingTimer mediaStream recordedChunks recordingDuration
         isRecording mediaRecorder setRecordedChunks setRecordingDuration].
    rewrite He, Hms, Hrt, Hmr, Hir, He2, He1, Ht2, Hm2, Hi2, Hr2.
    unfold blobTypeOf. rewrite <- !app_assoc.
    repeat split; reflexivity.
Qed.

Lemma persisted_persistenceCalls folder w filename blob :
  persisted (persistenceCalls folder w filename blob) = [(filename, blob)]
  /\ List.filter isTrackStop (persistenceCalls folder w filename blob) = [].
Proof. destruct folder; [destruct w |]; split; reflexivity. Qed.

Lemma filter_isTrackStop_map tracks :
  List.filter isTrackStop (map TrackStop tracks) = map TrackStop tracks.
Proof. induction tracks as [| t l IH]; simpl; [| rewrite IH]; reflexivity. Qed.

Lemma finalizeCalls_summary r inp s :
  persisted (finalizeCalls r inp s)
  = match recordedChunks s with
    | [] => []
    | _ :: _ =>
        [(generateFilename (now inp), newBlob (recordedChunks s) (blobTypeOf r))]
    end
  /\ List.filter isTrackStop (finalizeCalls r inp s)
     = match mediaStream s with
       | Some tracks =>
           map TrackStop
             (List.filter (stoppedAtFinalize (capturedScreenStream r)) tracks)
       | None => []
       end.
Proof.
  unfold finalizeCalls.
  rewrite !persisted_app, !List.filter_app.
  assert (Ht : forall o : option nat,
             persisted (match o with Some id => [ClearInterval id] | None => [] end) = []
             /\ List.filter isTrackStop
                  (match o with Some id => [ClearInterval id] | None => [] end) = [])
    by (intros [id |]; split; reflexivity).
  destruct (Ht (recordingTimer s)) as [-> ->].
  destruct (mediaStream s) as [tracks |].
  - destruct (TrackStop_persists_nothing
                (List.filter (stoppedAtFinalize (capturedScreenStream r)) tracks))
      as [-> _].
    rewrite filter_isTrackStop_map.
    destruct (recordedChunks s) as [| c chunks]; simpl;
      [now rewrite app_nil_r |].
    destruct (persisted_persistenceCalls (capturedFolderHandle r)
                (writeOutcome inp) (generateFilename (now inp))
                (newBlob (c :: chunks) (blobTypeOf r))) as [-> ->].
    now rewrite app_nil_r.
  - destruct (recordedChunks s) as [| c chunks]; simpl; [auto |].
    destruct (persisted_persistenceCalls (capturedFolderHandle r)
                (writeOutcome inp) (generateFilename (now inp))
                (newBlob (c :: chunks) (blobTypeOf r))) as [-> ->].
    auto.
Qed.

(** X5. From an empty chunk list, whatever data events arrive before the
    stop event, the artifact persisted at finalize is one blob whose bytes
    are those of the non-empty chunks in arrival order, typed with the
    session's encoding ([video/webm] when none was pinned); if every event
    was empty or without data, nothing is persisted. *)
Theorem finalize_persists_delivered_data h r inp events s :
  recordedChunks s = [] ->
  exists calls,
    effects (onstop h r inp (deliverData events s)) = effects s ++ calls
    /\ persisted calls
       = match keptData events with
         | [] => []
         | _ :: _ =>
             [(generateFilename (now inp),
               {| blobType := blobTypeOf r;
                  blobData := List.concat (map blobData (keptData events)) |})]
         end.
Proof.
  intros Hempty.
  destruct (onstop_trace h r inp (deliverData events s)) as (He & _).
  destruct (deliverData_frame events s) as (Hfx & _).
  pose proof (deliverData_chunks events s) as Hch.
  rewrite Hempty in Hch. simpl in Hch.
  exists (finalizeCalls r inp (deliverData events s)).
  split; [now rewrite He, Hfx |].
  destruct (finalizeCalls_summary r inp (deliverData events s)) as [-> _].
  rewrite Hch. reflexivity.
Qed.

Lemma finalize_persists_delivered_data_witness :
  exists calls,
    effects (onstop utcHost
               {| recorderStream := [FromMic micTrack];
                  recorderMimeType := "";
                  recorderState := Inactive;
                  capturedScreenStream := None;
                  capturedFolderHandle := None |}
               saveOk
               (deliverData [Some chunk; Some emptyChunk; None; Some chunk2]
                  (handleStartRecording (micGranted 7) idle)))
    = effects (handleStartRecording (micGranted 7) idle) ++ calls
    /\ persisted calls
       = [(januaryName,
           {| blobType := "video/webm";
              blobData := [Byte.x1a; Byte.x45; Byte.xdf; Byte.xa3] |})].
Proof.
  apply (finalize_persists_delivered_data utcHost
           {| recorderStream := [FromMic micTrack];
              recorderMimeType := "";
              recorderState := Inactive;
              capturedScreenStream := None;
              capturedFolderHandle := None |}
           saveOk [Some chunk; Some emptyChunk; None; Some chunk2]
           (handleStartRecording (micGranted 7) idle)).
  reflexivity.
Defined.

(** X6. At finalize the stop callback stops every camera and microphone
    track of the session's stream and leaves alone every track that
    belongs to the screen handle it captured at start; with no captured
    handle it stops them all. It then drops the stream, disarms the timer
    and resets the chunk list and the clock. *)
Theorem finalize_releases_all_but_screen_handle h r inp s tracks :
  mediaStream s = Some tracks ->
  let s' := onstop h r inp s in
  (exists calls,
     effects s' = effects s ++ calls
     /\ (forall t, In (TrackStop t) calls
                   <-> In t tracks
                       /\ stoppedAtFinalize (capturedScreenStream r) t = true)
     /\ (forall t, In (FromCamera t) tracks -> In (TrackStop (FromCamera t)) calls)
     /\ (forall t, In (FromMic t) tracks -> In (TrackStop (FromMic t)) calls)
     /\ (forall t stream,
           capturedScreenStream r = Some stream -> In t stream ->
           ~ In (TrackStop (FromScreen t)) calls)
     /\ (capturedScreenStream r = None ->
         forall t, In t tracks -> In (TrackStop t) calls))
  /\ mediaStream s' = None
  /\ recordingTimer s' = None
  /\ recordedChunks s' = []
  /\ recordingDuration s' = 0.
Proof.
  intros Hm s'. subst s'.
  destruct (onstop_trace h r inp s) as (He & Ht & Hms & Hc & Hd & _).
  split; [| auto].
  exists (finalizeCalls r inp s). split; [exact He |].
  destruct (finalizeCalls_summary r inp s) as [_ Hstops]. rewrite Hm in Hstops.
  assert (Hin : forall t, In (TrackStop t) (finalizeCalls r inp s)
                          <-> In t tracks
                              /\ stoppedAtFinalize (capturedScreenStream r) t = true).
  { intros t. rewrite <- filter_In.
    transitivity (In (TrackStop t)
                    (List.filter isTrackStop (finalizeCalls r inp s))).
    - rewrite filter_In. simpl. tauto.
    - rewrite Hstops, in_map_iff. split.
      + intros (x & [= ->] & Hx). exact Hx.
      + intros Hx. eauto. }
  split; [exact Hin |]. repeat split.
  - intros t Hx. apply Hin. split; [exact Hx |].
    unfold stoppedAtFinalize. now destruct (capturedScreenStream r).
  - intros t Hx. apply Hin. split; [exact Hx |].
    unfold stoppedAtFinalize. now destruct (capturedScreenStream r).
  - intros t stream Hcap Hx Hstop. apply Hin in Hstop as [_ Hstop].
    unfold stoppedAtFinalize in Hstop. rewrite Hcap in Hstop.
    apply negb_true_iff in Hstop. simpl in Hstop.
    assert (Hex : existsb (rawTrackEqb t) stream = true).
    { apply existsb_exists. exists t. split; [exact Hx |].
      unfold rawTrackEqb. apply Nat.eqb_refl. }
    congruence.
  - intros Hcap t Hx. apply Hin. split; [exact Hx |].
    unfold stoppedAtFinalize. now rewrite Hcap.
Qed.

Lemma finalize_releases_all_but_screen_handle_witness :
  exists calls,
    effects (onstop utcHost
               {| recorderStream := [FromScreen screenTrack; FromMic micTrack];
                  recorderMimeType := "video/webm;codecs=vp9";
                  recorderState := Recording;
                  capturedScreenStream := Some [screenTrack];
                  capturedFolderHandle := Some {| folderName := "Videos" |} |}
               saveOk screenSession)
    = effects screenSession ++ calls
    /\ In (TrackStop (FromMic micTrack)) calls
    /\ ~ In (TrackStop (FromScreen screenTrack)) calls.
Proof.
  destruct (finalize_releases_all_but_screen_handle utcHost
              {| recorderStream := [FromScreen screenTrack; FromMic micTrack];
                 recorderMimeType := "video/webm;codecs=vp9";
                 recorderState := Recording;
                 capturedScreenStream := Some [screenTrack];
                 capturedFolderHandle := Some {| folderName := "Videos" |} |}
              saveOk screenSession
              [FromScreen screenTrack; FromMic micTrack] eq_refl)
    as ((calls & He & _ & _ & Hmic & Hscreen & _) & _).
  exists calls. split; [exact He |]. split.
  - apply Hmic. simpl. tauto.
  - apply (Hscreen screenTrack [screenTrack] eq_refl). simpl. tauto.
Defined.

(** *** Stop *)

(** X7. Stopping is idempotent. The first stop of a recording recorder
    calls the recorder's [stop] once and marks it inactive; a stop with no
    recorder, or with one that is already inactive, only clears the
    recording flag. *)
Theorem stop_is_idempotent s :
  handleStopRecording (handleStopRecording s) = handleStopRecording s
  /\ isRecording (handleStopRecording s) = false
  /\ effects (handleStopRecording s)
     = effects s
       ++ match mediaRecorder s with
          | Some r =>
              match recorderState r with
              | Recording => [RecorderStop]
              | Inactive => []
              end
          | None => []
          end
  /\ recordedChunks (handleStopRecording s) = recordedChunks s
  /\ recordingTimer (handleStopRecording s) = recordingTimer s.
Proof.
  unfold handleStopRecording.
  destruct s as [fh de smi sci me ce se ss ir re rd sv rs il pe mr rc ms rt ls ai fx].
  destruct mr as [[st mt [|] cs cf] |]; simpl;
    rewrite ?app_nil_r; repeat split; reflexivity.
Qed.

(** *** Screen toggle *)

(** X8. Provided a live screen handle only exists while the screen toggle is
    on, every use of the screen toggle leaves flag, handle and stored
    preference in agreement: the screen is enabled exactly when a handle
    is held, and the preference slot holds that flag. Switching off stops
    every track of the handle; switching on makes no call that is logged,
    a cancelled picker (NotAllowedError) leaves the session message alone
    and any other failure replaces it. *)
Theorem toggleScreen_keeps_flag_handle_preference_in_step resp s :
  (isSome (screenStream s) = true -> isScreenEnabled s = true) ->
  let s' := handleToggleScreen resp s in
  isScreenEnabled s' = isSome (screenStream s')
  /\ localStorage s' !! SCREEN_ENABLED_KEY
     = Some (stringOfBool (isScreenEnabled s'))
  /\ (isScreenEnabled s = true ->
      isScreenEnabled s' = false
      /\ recordingError s' = recordingError s
      /\ effects s'
         = effects s
           ++ match screenStream s with
              | Some stream => map (fun t => TrackStop (FromScreen t)) stream
              | None => []
              end)
  /\ (isScreenEnabled s = false ->
      effects s' = effects s
      /\ match resp with
         | DisplayStream video others =>
             screenStream s' = Some (video :: others)
             /\ recordingError s' = recordingError s
         | DisplayError err =>
             screenStream s' = None
             /\ recordingError s'
                = if String.eqb (errName err) "NotAllowedError"
                  then recordingError s
                  else Some (String.append "Failed to capture screen: "
                               (errMessage err))
         end).
Proof.
  intros Hinv s'. subst s'. unfold handleToggleScreen.
  destruct (isScreenEnabled s) eqn:Hon.
  - destruct (screenStream s) as [stream |] eqn:Hs;
      cbn [isScreenEnabled screenStream localStorage setItem setLocalStorage
           setIsScreenEnabled setScreenStream emitAll setEffects isSome
           stringOfBool effects recordingError];
      rewrite lookup_insert_eq, ?app_nil_r, ?Hs;
      repeat split; try reflexivity; discriminate.
  - assert (Hs : screenStream s = None).
    { destruct (screenStream s); [| reflexivity].
      specialize (Hinv eq_refl). discriminate. }
    destruct resp as [video others | err];
      [| destruct (String.eqb (errName err) "NotAllowedError") eqn:Hname];
      cbn [negb isScreenEnabled screenStream localStorage setItem
           setLocalStorage setIsScreenEnabled setScreenStream setRecordingError
           isSome stringOfBool effects recordingError];
      rewrite lookup_insert_eq, ?Hs;
      repeat split; try reflexivity; discriminate.
Qed.

Lemma toggleScreen_keeps_flag_handle_preference_in_step_witness :
  isScreenEnabled (handleToggleScreen (DisplayError denied) allSourcesOn)
  = isSome (screenStream (handleToggleScreen (DisplayError denied) allSourcesOn))
  /\ localStorage (handleToggleScreen (DisplayError denied) allSourcesOn)
       !! SCREEN_ENABLED_KEY
     = Some "false"%string.
Proof.
  destruct (toggleScreen_keeps_flag_handle_preference_in_step
              (DisplayError denied) allSourcesOn) as (H1 & H2 & _).
  - reflexivity.
  - split; [exact H1 | exact H2].
Defined.

End SessionBehaviour.

(** ** The catalog: what is listed, in which order, and when nothing is *)

Section CatalogBehaviour.
Import JSDate JSString ISO Filename Catalog App Samples Observations MoreSamples.
Local Open Scope Z_scope.

Lemma scan_outcome h l : forall acc,
  scan h l acc
  = match thrownBy l with
    | Some err => inl err
    | None => inr (acc ++ flat_map (metadataOf h) (entriesOf l))
    end.
Proof.
  induction l as [| entry rest IH | err]; intros acc; simpl.
  - now rewrite app_nil_r.
  - unfold metadataOf.
    destruct (isFileKind (kind entry) && endsWith ".webm" (name entry));
      [destruct (getFile entry) as [file |] |]; rewrite IH;
      destruct (thrownBy rest); simpl; rewrite <- ?app_assoc; reflexivity.
  - reflexivity.
Qed.

Lemma refresh_outcome h l :
  refresh h l
  = match thrownBy l with
    | Some err => inl err
    | None =>
        inr (arraySort newestFirst (flat_map (metadataOf h) (entriesOf l)))
    end.
Proof.
  unfold refresh. rewrite scan_outcome. now destruct (thrownBy l).
Qed.

Lemma loadRecordings_completed h f l s :
  thrownBy l = None ->
  recordings (loadRecordings h (Some f) l s)
  = arraySort newestFirst (flat_map (metadataOf h) (entriesOf l))
  /\ playbackError (loadRecordings h (Some f) l s) = None.
Proof.
  intros Hl. unfold loadRecordings. rewrite refresh_outcome, Hl. simpl. auto.
Qed.

(** X9. A refresh is all or nothing. Without a live folder handle the list
    is emptied and nothing else changes. With one, an enumeration that
    throws at any point empties the list, even if readable recordings were
    yielded before the throw, and shows the access-revoked message for a
    NotAllowedError and the generic one otherwise; an enumeration that
    completes installs the sorted records and clears the message. Either
    way the loading flag ends up off. *)
Theorem loadRecordings_is_all_or_nothing h folder l s :
  let s' := loadRecordings h folder l s in
  match folder with
  | None =>
      recordings s' = [] /\ playbackError s' = playbackError s
      /\ isLoadingRecordings s' = isLoadingRecordings s
  | Some _ =>
      isLoadingRecordings s' = false
      /\ match thrownBy l with
         | Some err =>
             recordings s' = []
             /\ playbackError s' = Some (loadErrorMessage err)
         | None =>
             recordings s'
             = arraySort newestFirst (flat_map (metadataOf h) (entriesOf l))
             /\ playbackError s' = None
         end
  end.
Proof.
  unfold loadRecordings. destruct folder as [f |]; [| simpl; auto].
  rewrite refresh_outcome. destruct (thrownBy l); simpl; auto.
Qed.

(** X10. Every record of a refreshed catalog stands for a file entry of the
    folder whose name ends in [.webm] and whose file could be opened, and
    carries that file's name and size; directories, other names and
    unreadable files never appear, so the catalog is no longer than the
    enumeration. *)
Theorem catalog_lists_only_readable_webm_files h l recordingsList :
  refresh h l = inr recordingsList ->
  (List.length recordingsList <= List.length (entriesOf l))%nat
  /\ forall r,
       In r recordingsList ->
       exists file,
         In (fileHandle r) (entriesOf l)
         /\ kind (fileHandle r) = KindFile
         /\ filename r = name (fileHandle r)
         /\ endsWith ".webm" (filename r) = true
         /\ getFile (fileHandle r) = Some file
         /\ size r = fileSize file
         /\ timestamp r = deriveTimestamp h (filename r) (lastModified file).
Proof.
  intros H. apply refresh_inr in H. subst. split.
  - rewrite (Permutation_length (arraySort_Permutation newestFirst _)).
    induction (entriesOf l) as [| e es IH]; simpl; [lia |].
    rewrite length_app. unfold metadataOf at 1.
    destruct (isFileKind (kind e) && endsWith ".webm" (name e));
      [destruct (getFile e) |]; simpl; lia.
  - intros r Hr.
    eapply Permutation_in in Hr; [| apply arraySort_Permutation].
    apply in_flat_map in Hr as (entry & Hin & Hr).
    unfold metadataOf in Hr.
    destruct (isFileKind (kind entry)) eqn:Hk; [| contradiction].
    destruct (endsWith ".webm" (name entry)) eqn:He; [| contradiction].
    destruct (getFile entry) as [file |] eqn:Hf; [| contradiction].
    destruct Hr as [<- | []]. simpl. exists file.
    repeat split; trivial. now destruct (kind entry).
Qed.

Lemma catalog_lists_only_readable_webm_files_witness :
  le (List.length
        [ {| filename := marchName; timestamp := Some 1709280000000;
             size := 20; fileHandle := fileEntry marchName 0 20 |} ])
     (List.length
        (entriesOf
           (Yield {| kind := KindDirectory; name := "old.webm"; getFile := None |}
              (Yield (fileEntry "notes.txt" 0 5)
                 (Yield (fileEntry marchName 0 20) Done))))).
Proof.
  apply (catalog_lists_only_readable_webm_files utcPlus1Host
           (Yield {| kind := KindDirectory; name := "old.webm"; getFile := None |}
              (Yield (fileEntry "notes.txt" 0 5)
                 (Yield (fileEntry marchName 0 20) Done)))).
  reflexivity.
Defined.

Lemma filter_stampedAt_insertSorted t x l :
  List.filter (stampedAt t) (insertSorted newestFirst x l)
  = List.filter (stampedAt t) (x :: l).
Proof.
  induction l as [| y l IH]; [reflexivity |].
  cbn [insertSorted].
  destruct (Z.leb_spec (sortCompare newestFirst x y) 0) as [Hle | Hgt];
    [reflexivity |].
  cbn [List.filter]. rewrite IH. cbn [List.filter].
  destruct (stampedAt t x) eqn:Hx; [| reflexivity].
  destruct (stampedAt t y) eqn:Hy; [| reflexivity].
  exfalso. unfold stampedAt in Hx, Hy. unfold sortCompare, newestFirst in Hgt.
  destruct (timestamp x) as [tx |]; [| discriminate].
  destruct (timestamp y) as [ty |]; [| discriminate].
  apply Z.eqb_eq in Hx, Hy. lia.
Qed.

(** X11. Recordings with the same timestamp keep the order in which the folder
    enumerated them: the sort is stable. *)
Theorem catalog_keeps_enumeration_order_among_ties h l recordingsList t :
  refresh h l = inr recordingsList ->
  List.filter (stampedAt t) recordingsList
  = List.filter (stampedAt t) (flat_map (metadataOf h) (entriesOf l)).
Proof.
  intros H. apply refresh_inr in H. subst.
  induction (flat_map (metadataOf h) (entriesOf l)) as [| x xs IH];
    [reflexivity |].
  cbn [arraySort]. rewrite filter_stampedAt_insertSorted.
  cbn [List.filter]. now rewrite IH.
Qed.

Lemma catalog_keeps_enumeration_order_among_ties_witness :
  List.filter (stampedAt 1700000000000)
    [ {| filename := marchName; timestamp := Some 1709280000000;
         size := 20; fileHandle := fileEntry marchName 0 20 |};
      {| filename := "b.webm"; timestamp := Some 1700000000000;
         size := 2; fileHandle := fileEntry "b.webm" 1700000000000 2 |};
      {| filename := "a.webm"; timestamp := Some 1700000000000;
         size := 1; fileHandle := fileEntry "a.webm" 1700000000000 1 |} ]
  = List.filter (stampedAt 1700000000000)
      (flat_map (metadataOf utcPlus1Host)
         (entriesOf
            (Yield (fileEntry "b.webm" 1700000000000 2)
               (Yield (fileEntry marchName 0 20)
                  (Yield (fileEntry "a.webm" 1700000000000 1) Done))))).
Proof.
  apply (catalog_keeps_enumeration_order_among_ties utcPlus1Host
           (Yield (fileEntry "b.webm" 1700000000000 2)
              (Yield (fileEntry marchName 0 20)
                 (Yield (fileEntry "a.webm" 1700000000000 1) Done)))).
  reflexivity.
Defined.

(** *** Generated names *)

Lemma second_fixes_fields t1 t2 :
  t1 / 1000 = t2 / 1000 ->
  Day t1 = Day t2 /\ HourFromTime t1 = HourFromTime t2
  /\ MinFromTime t1 = MinFromTime t2 /\ SecFromTime t1 = SecFromTime t2.
Proof.
  intros H.
  unfold Day, HourFromTime, MinFromTime, SecFromTime, msPerDay, msPerHour,
    msPerMinute, msPerSecond.
  rewrite H.
  assert (Hd : forall t k, 0 < k -> t / (1000 * k) = t / 1000 / k)
    by (intros; now rewrite Z.div_div by lia).
  change 86400000 with (1000 * 86400). change 3600000 with (1000 * 3600).
  change 60000 with (1000 * 60).
  rewrite !Hd by lia. rewrite H. auto.
Qed.

Lemma day_fixes_calendar t1 t2 :
  Day t1 = Day t2 ->
  YearFromTime t1 = YearFromTime t2 /\ MonthFromTime t1 = MonthFromTime t2
  /\ DateFromTime t1 = DateFromTime t2.
Proof.
  intros H.
  assert (Hy : YearFromTime t1 = YearFromTime t2)
    by (unfold YearFromTime; now rewrite H).
  assert (Hl : InLeapYear t1 = InLeapYear t2)
    by (unfold InLeapYear; now rewrite Hy).
  assert (Hw : DayWithinYear t1 = DayWithinYear t2)
    by (unfold DayWithinYear; now rewrite H, Hy).
  assert (Hm : MonthFromTime t1 = MonthFromTime t2)
    by (unfold MonthFromTime; now rewrite Hw, Hl).
  repeat split; trivial.
  unfold DateFromTime. now rewrite Hw, Hl, Hm.
Qed.

(** X12. Between years 0100 and 9999 a generated name identifies the second
    it was generated in and nothing finer: two instants get the same name
    exactly when they fall in the same second, so two recordings finalized
    within one second share a name and any others do not. *)
Theorem generateFilename_names_the_second t1 t2 :
  100 <= YearFromTime t1 <= 9999 ->
  100 <= YearFromTime t2 <= 9999 ->
  (generateFilename t1 = generateFilename t2 <-> t1 / 1000 = t2 / 1000).
Proof.
  intros H1 H2. split.
  - intros Heq.
    pose proof (deriveTimestamp_generateFilename utcHost t1 0 H1) as E1.
    pose proof (deriveTimestamp_generateFilename utcHost t2 0 H2) as E2.
    rewrite Heq, E2 in E1. injection E1 as E1. simpl in E1.
    unfold msFromTime, msPerSecond in E1.
    Z.to_euclidean_division_equations; lia.
  - intros Heq.
    rewrite !generateFilename_fields by lia.
    destruct (second_fixes_fields t1 t2 Heq) as (Hd & Hh & Hm & Hs).
    destruct (day_fixes_calendar t1 t2 Hd) as (Hy & Hmo & Hda).
    unfold filenameOfFields. now rewrite Hy, Hmo, Hda, Hh, Hm, Hs.
Qed.

Lemma generateFilename_names_the_second_witness :
  generateFilename jan5 = generateFilename (jan5 + 999)
  <-> jan5 / 1000 = (jan5 + 999) / 1000.
Proof.
  apply (generateFilename_names_the_second jan5 (jan5 + 999));
    vm_compute; split; discriminate.
Defined.

(** X13. On a host whose zone offset does not change, the timestamps the
    catalog reads from generated names (years 0100 to 9999) follow the
    order of the instants they were generated at, second by second: the
    zone shift moves every recording alike and never reorders them. *)
Theorem generated_names_sort_chronologically h offset t1 t2 m1 m2 :
  (forall x, LocalTZA h x false = offset) ->
  100 <= YearFromTime t1 <= 9999 ->
  100 <= YearFromTime t2 <= 9999 ->
  t1 / 1000 <= t2 / 1000 ->
  exists s1 s2,
    deriveTimestamp h (generateFilename t1) m1 = Some s1
    /\ deriveTimestamp h (generateFilename t2) m2 = Some s2
    /\ s1 <= s2
    /\ (t1 / 1000 < t2 / 1000 -> s1 < s2)
    /\ s2 - s1 = 1000 * (t2 / 1000 - t1 / 1000).
Proof.
  intros Hzone H1 H2 Hle.
  rewrite !deriveTimestamp_generateFilename by assumption.
  rewrite !Hzone. do 2 eexists. split; [reflexivity |].
  split; [reflexivity |].
  unfold msFromTime, msPerSecond.
  Z.to_euclidean_division_equations; lia.
Qed.

Lemma generated_names_sort_chronologically_witness :
  exists s1 s2,
    deriveTimestamp utcPlus1Host (generateFilename jan5) 0 = Some s1
    /\ deriveTimestamp utcPlus1Host (generateFilename (jan5 + 61500)) 0 = Some s2
    /\ s1 <= s2.
Proof.
  destruct (generated_names_sort_chronologically utcPlus1Host 3600000
              jan5 (jan5 + 61500) 0 0) as (s1 & s2 & E1 & E2 & Hle & _);
    [ intros x; reflexivity
    | vm_compute; split; discriminate
    | vm_compute; split; discriminate
    | vm_compute; discriminate
    | exists s1, s2; auto ].
Defined.

Lemma endsWith_append_l suffix p s :
  endsWith suffix s = true -> endsWith suffix (String.append p s) = true.
Proof.
  intros H. induction p as [| c p IH]; [exact H |].
  cbn [String.append endsWith]. change (String c p +:+ s) with (String c (p +:+ s)).
  cbn [endsWith]. rewrite IH. apply orb_true_r.
Qed.

(** Whatever the instant, a generated name carries the suffix the
    catalog filters on. *)
Lemma generateFilename_endsWith_webm t :
  endsWith ".webm" (generateFilename t) = true.
Proof.
  unfold generateFilename, concat. cbn [fold_right].
  apply endsWith_append_l, endsWith_append_l. reflexivity.
Qed.

(** X14. A recording written through the folder handle shows up in the
    catalog that the same call refreshes: if the folder then enumerates
    the new file and lets it be opened, the list holds a record under the
    generated name, stamped from that name, and the saved message is up. *)
Theorem saved_recording_appears_in_catalog h folder inp blob s entry file :
  writeOutcome inp = WriteSucceeds ->
  thrownBy (listing inp) = None ->
  In entry (entriesOf (listing inp)) ->
  kind entry = KindFile ->
  name entry = generateFilename (now inp) ->
  getFile entry = Some file ->
  let s' := saveRecording h (Some folder) inp blob s in
  In {| filename := generateFilename (now inp);
        timestamp := deriveTimestamp h (generateFilename (now inp))
                       (lastModified file);
        size := fileSize file;
        fileHandle := entry |} (recordings s')
  /\ saveSuccess s'
     = Some (String.append "Recording saved: " (generateFilename (now inp)))
  /\ playbackError s' = None.
Proof.
  intros Hw Hthrow Hin Hk Hn Hf s'. subst s'.
  unfold saveRecording. rewrite Hw.
  match goal with
  | |- context [loadRecordings h (Some ?f) ?l ?x] =>
      destruct (loadRecordings_completed h f l x Hthrow) as (Hr & Hp);
      destruct (loadRecordings_session h (Some f) l x)
        as (_ & _ & _ & _ & _ & _ & _ & _ & Hs & _)
  end.
  split; [| split; [rewrite Hs; reflexivity | exact Hp]].
  rewrite Hr.
  eapply Permutation_in; [symmetry; apply arraySort_Permutation |].
  apply in_flat_map. exists entry. split; [exact Hin |].
  unfold metadataOf. rewrite Hk, Hf, Hn, generateFilename_endsWith_webm.
  simpl. now left.
Qed.

Lemma saved_recording_appears_in_catalog_witness :
  In {| filename := januaryName;
        timestamp := Some 1704450600000;
        size := 2;
        fileHandle := fileEntry januaryName 1704450601000 2 |}
     (recordings
        (saveRecording utcHost (Some {| folderName := "Videos" |})
           {| now := jan5; writeOutcome := WriteSucceeds;
              listing := Yield (fileEntry januaryName 1704450601000 2) Done |}
           chunk idle)).
Proof.
  apply (saved_recording_appears_in_catalog utcHost {| folderName := "Videos" |}
           {| now := jan5; writeOutcome := WriteSucceeds;
              listing := Yield (fileEntry januaryName 1704450601000 2) Done |}
           chunk idle (fileEntry januaryName 1704450601000 2)
           {| lastModified := 1704450601000; fileSize := 2 |});
    try reflexivity.
  simpl. tauto.
Defined.

End CatalogBehaviour.

(** ** Invariants of the running component *)

Section LifecycleFacts.
Import JSDate JSString Filename Catalog App Samples Observations MoreSamples.
Import Shell Lifecycle PageSamples.
Local Open Scope Z_scope.

Lemma run_invariant h api (P : Page -> Prop) :
  (forall e p, P p -> P (step h api e p)) ->
  forall events p, P p -> P (run h api events p).
Proof.
  intros Hstep events. unfold run.
  induction events as [| e events IH]; intros p Hp; simpl; [exact Hp |].
  apply IH, Hstep, Hp.
Qed.

Lemma run_invariant_on h api (ok : Event -> Prop) (P : Page -> Prop) :
  (forall e p, ok e -> P p -> P (step h api e p)) ->
  forall events p, Forall ok events -> P p -> P (run h api events p).
Proof.
  intros Hstep events. unfold run.
  induction events as [| e events IH]; intros p Hok Hp; simpl; [exact Hp |].
  inversion Hok; subst. apply IH; [assumption |]. now apply Hstep.
Qed.

(** A property survives the render if it survives each cleanup. *)
Lemma commit_cases (P : Page -> Prop) before p :
  P p ->
  (forall q, P q ->
     P (withCore (screenEffectCleanup (screenStream (core before))) q)) ->
  (forall q, playbackUrl q <> playbackUrl before -> P q ->
     P (playbackEffectCleanup (playbackUrl before) q)) ->
  P (commit before p).
Proof.
  intros Hp Hscreen Hurl. unfold commit. cbv zeta.
  repeat case_bool_decide; auto.
Qed.

Lemma screenEffectCleanup_cells closed s :
  preferenceCells (screenEffectCleanup closed s) = preferenceCells s
  /\ handleCells (screenEffectCleanup closed s) = handleCells s
  /\ recordedChunks (screenEffectCleanup closed s) = recordedChunks s
  /\ folderHandle (screenEffectCleanup closed s) = folderHandle s
  /\ recordingTimer (screenEffectCleanup closed s) = recordingTimer s
  /\ activeIntervals (screenEffectCleanup closed s)
     = match recordingTimer s with
       | Some id =>
           List.filter (fun j => negb (Nat.eqb j id)) (activeIntervals s)
       | None => activeIntervals s
       end
  /\ effects (screenEffectCleanup closed s) = effects s ++ cleanupCalls closed s.
Proof.
  unfold screenEffectCleanup, cleanupCalls. cbv zeta.
  destruct (recordingTimer s) as [id |] eqn:Ht;
    cbn [mediaStream clearInterval emit setEffects setActiveIntervals];
    destruct (mediaStream s) as [tracks |] eqn:Hm;
    destruct closed as [stream |]; simpl;
    rewrite <- ?app_assoc, ?app_nil_r, ?Ht; simpl; repeat split; reflexivity.
Qed.

Lemma screenEffectCleanup_recorder closed s :
  mediaRecorder (screenEffectCleanup closed s) = mediaRecorder s.
Proof.
  unfold screenEffectCleanup. cbv zeta.
  destruct (recordingTimer s) as [id |];
    cbn [mediaStream clearInterval emit setEffects setActiveIntervals];
    destruct (mediaStream s) as [tracks |];
    destruct closed as [stream |]; reflexivity.
Qed.

Lemma cleanupCalls_quiet closed s :
  persisted (cleanupCalls closed s) = []
  /\ existsb isRecorderStart (cleanupCalls closed s) = false.
Proof.
  unfold cleanupCalls. rewrite !persisted_app, !existsb_app.
  assert (Hstops : forall tracks,
             persisted (map TrackStop tracks) = []
             /\ existsb isRecorderStart (map TrackStop tracks) = false)
    by (induction tracks as [| t tracks [IH1 IH2]]; simpl; auto).
  destruct (recordingTimer s), (mediaStream s) as [tracks |],
    closed as [stream |]; simpl;
    rewrite <- ?(map_map FromScreen TrackStop);
    repeat match goal with
           | |- context [map TrackStop ?l] =>
               destruct (Hstops l) as [-> ->]
           end; auto.
Qed.

(** *** Handlers that leave the preferences alone *)

Lemma loadRecordings_preferenceCells h folder l s :
  preferenceCells (loadRecordings h folder l s) = preferenceCells s.
Proof.
  unfold loadRecordings. destruct folder; [destruct (refresh h l) |];
    reflexivity.
Qed.

Lemma saveRecording_preferenceCells h folder inp blob s :
  preferenceCells (saveRecording h folder inp blob s) = preferenceCells s.
Proof.
  unfold saveRecording.
  destruct folder as [f |]; [destruct (writeOutcome inp) |];
    rewrite ?loadRecordings_preferenceCells; reflexivity.
Qed.

Lemma onstop_preferenceCells h r inp s :
  preferenceCells (onstop h r inp s) = preferenceCells s.
Proof.
  unfold onstop. cbv zeta.
  set (s1 := match recordingTimer s with
             | Some id => s |> clearInterval id |> setRecordingTimer None
             | None => s
             end).
  assert (H1 : preferenceCells s1 = preferenceCells s)
    by (subst s1; destruct (recordingTimer s); reflexivity).
  set (s2 := match mediaStream s1 with
             | Some tracks =>
                 s1 |> emitAll (map TrackStop
                          (List.filter
                             (stoppedAtFinalize (capturedScreenStream r)) tracks))
                    |> setMediaStream None
             | None => s1
             end).
  assert (H2 : preferenceCells s2 = preferenceCells s1)
    by (subst s2; destruct (mediaStream s1); reflexivity).
  rewrite <- H1, <- H2.
  destruct (recordedChunks s2); [reflexivity |].
  match goal with
  | |- context [saveRecording ?hh ?f ?i ?b ?x] =>
      rewrite <- (saveRecording_preferenceCells hh f i b x)
  end.
  reflexivity.
Qed.

Lemma handleStartRecording_preferenceCells inp s :
  preferenceCells (handleStartRecording inp s) = preferenceCells s.
Proof.
  unfold handleStartRecording. rewrite buildTracks_after_reset.
  cbn [isCameraEnabled isScreenEnabled isMicEnabled screenStream
       setRecordingError setSaveSuccess setRecordedChunks].
  repeat case_match; reflexivity.
Qed.

Lemma handleStopRecording_preferenceCells s :
  preferenceCells (handleStopRecording s) = preferenceCells s.
Proof. unfold handleStopRecording. repeat case_match; reflexivity. Qed.

Lemma ondataavailable_preferenceCells data s :
  preferenceCells (ondataavailable data s) = preferenceCells s.
Proof. unfold ondataavailable. repeat case_match; reflexivity. Qed.

Lemma tick_preferenceCells id s : preferenceCells (tick id s) = preferenceCells s.
Proof. unfold tick. case_match; reflexivity. Qed.

Lemma preferences_frame p p' :
  preferenceCells (core p') = preferenceCells (core p) ->
  folderPath p' = folderPath p ->
  preferencesStored p -> preferencesStored p'.
Proof.
  unfold preferencesStored, preferenceCells.
  intros [= -> -> -> -> -> ->] ->. exact id.
Qed.

Lemma stringOfBool_is_true b : String.eqb (stringOfBool b) "true" = b.
Proof. now destruct b. Qed.

(** Rewrite lookups in a store after [setItem] and [removeItem]. *)
Ltac lookups :=
  repeat first
    [ rewrite lookup_insert_eq
    | rewrite lookup_delete_eq
    | rewrite lookup_insert_ne by (intros E; discriminate E)
    | rewrite lookup_delete_ne by (intros E; discriminate E) ].

Ltac stored Hp :=
  let H1 := fresh in let H2 := fresh in let H3 := fresh in
  let H4 := fresh in let H5 := fresh in let H6 := fresh in
  destruct Hp as (H1 & H2 & H3 & H4 & H5 & H6);
  unfold preferencesStored, readFlag, getItemOrEmpty in *;
  cbn [core folderPath localStorage isMicEnabled isCameraEnabled
       isScreenEnabled selectedMicId selectedCameraId withCore setCore
       setFolderPath setError setItem removeItem setLocalStorage
       setIsMicEnabled setIsCameraEnabled setIsScreenEnabled setScreenStream
       setRecordingError setSelectedMicId setSelectedCameraId setFolderHandle
       setDeviceError setPermissionGranted setMicrophones setCameras
       emitAll setEffects] in *;
  lookups; rewrite ?stringOfBool_is_true;
  repeat split; try assumption; try reflexivity.

Lemma handleToggleScreen_preferencesStored resp p :
  preferencesStored p ->
  preferencesStored (withCore (handleToggleScreen resp) p).
Proof.
  intros Hp. unfold withCore, handleToggleScreen.
  destruct (isScreenEnabled (core p));
    [ destruct (screenStream (core p))
    | destruct resp as [v o | err];
      [| destruct (negb (String.eqb (errName err) "NotAllowedError"))] ];
    stored Hp.
Qed.

Lemma autoSelect_mic_preferencesStored options p :
  preferencesStored p ->
  preferencesStored (withCore (autoSelect MIC_STORAGE_KEY setSelectedMicId options) p).
Proof.
  intros Hp. unfold withCore, autoSelect.
  destruct options as [| first rest]; [now destruct p |].
  repeat case_match; try (now destruct p); stored Hp.
Qed.

Lemma autoSelect_camera_preferencesStored options p :
  preferencesStored p ->
  preferencesStored
    (withCore (autoSelect CAMERA_STORAGE_KEY setSelectedCameraId options) p).
Proof.
  intros Hp. unfold withCore, autoSelect.
  destruct options as [| first rest]; [now destruct p |].
  repeat case_match; try (now destruct p); stored Hp.
Qed.

Lemma setCore_core p : setCore (core p) p = p.
Proof. now destruct p. Qed.

Lemma reloadCatalog_preferencesStored h l p :
  preferencesStored p -> preferencesStored (reloadCatalog h l p).
Proof.
  apply preferences_frame; [| reflexivity].
  apply loadRecordings_preferenceCells.
Qed.

Lemma handle_preferencesStored h api e p :
  preferencesStored p -> preferencesStored (handle h api e p).
Proof.
  intros Hp. destruct e; cbn [handle].
  - (* a click on one of the six controls *)
    unfold withCore, click. cbv zeta.
    case_match; [| now rewrite setCore_core].
    destruct c; cbn [onClick].
    + unfold handleToggleMic. stored Hp.
    + unfold handleToggleCamera. stored Hp.
    + exact (handleToggleScreen_preferencesStored resp p Hp).
    + apply (preferences_frame p);
        [apply handleStartRecording_preferenceCells | reflexivity | exact Hp].
    + apply (preferences_frame p);
        [apply handleStopRecording_preferenceCells | reflexivity | exact Hp].
    + apply (preferences_frame p);
        [apply loadRecordings_preferenceCells | reflexivity | exact Hp].
  - repeat case_match; try exact Hp. unfold handleMicChange. stored Hp.
  - repeat case_match; try exact Hp. unfold handleCameraChange. stored Hp.
  - (* folder picked *)
    unfold handleSelectFolder, reloadCatalog.
    destruct api; [| destruct resp; exact Hp].
    destruct resp as [err | handle]; cbn [negb].
    + case_match; stored Hp.
    + apply reloadCatalog_preferencesStored. stored Hp.
  - (* folder cleared *)
    unfold handleClearFolder, reloadCatalog.
    case_match; [| exact Hp].
    case_match; [apply reloadCatalog_preferencesStored |]; stored Hp.
  - (* device detection *)
    unfold detectDevices. destruct resp as [| err | devices].
    + stored Hp.
    + stored Hp.
    + apply autoSelect_camera_preferencesStored,
        autoSelect_mic_preferencesStored.
      stored Hp.
  - (* play *)
    repeat case_match; try exact Hp;
      apply (preferences_frame p); try exact Hp;
      unfold handlePlayRecording, releasePlayback; repeat case_match;
      reflexivity.
  - (* delete *)
    repeat case_match; try exact Hp;
      apply (preferences_frame p); try exact Hp;
      unfold handleDeleteRecording, reloadCatalog, handleClosePlayer,
        releasePlayback;
      repeat case_match;
      cbn [core folderPath withCore setCore setRemovedEntries
           setSelectedRecording setPlaybackUrl revokeObjectURL setObjectUrls];
      rewrite ?loadRecordings_preferenceCells; reflexivity.
  - case_match; [| exact Hp].
    apply (preferences_frame p); try exact Hp;
      unfold handleClosePlayer, releasePlayback; repeat case_match; reflexivity.
  - case_match; [| exact Hp]. now apply (preferences_frame p).
  - apply (preferences_frame p);
      [apply ondataavailable_preferenceCells | reflexivity | exact Hp].
  - apply (preferences_frame p);
      [apply onstop_preferenceCells | reflexivity | exact Hp].
  - now apply (preferences_frame p).
  - apply (preferences_frame p);
      [apply tick_preferenceCells | reflexivity | exact Hp].
  - now apply (preferences_frame p).
  - unfold screenEnded. stored Hp.
Qed.

Lemma step_preferencesStored h api e p :
  preferencesStored p -> preferencesStored (step h api e p).
Proof.
  intros Hp. unfold step.
  apply commit_cases; [now apply handle_preferencesStored | |].
  - intros q. apply preferences_frame; [| reflexivity].
    apply screenEffectCleanup_cells.
  - intros q _. apply preferences_frame;
      unfold playbackEffectCleanup; repeat case_match; reflexivity.
Qed.

Lemma initialPage_preferencesStored api ls :
  preferencesStored (initialPage api ls).
Proof. repeat split. Qed.

(** X15. With each handler running to completion before the next event: at any
    point of any run of the component from its first render, a
    reload would find in storage exactly the preferences in force: the
    three source toggles, the two selected devices and the folder's
    display name come back as they are. The folder handle and the screen
    handle do not come back, and no session is running after a reload. *)
Theorem reload_restores_preferences h api ls events :
  let p := run h api events (initialPage api ls) in
  let reloaded := initialPage api (localStorage (core p)) in
  isMicEnabled (core reloaded) = isMicEnabled (core p)
  /\ isCameraEnabled (core reloaded) = isCameraEnabled (core p)
  /\ isScreenEnabled (core reloaded) = isScreenEnabled (core p)
  /\ selectedMicId (core reloaded) = selectedMicId (core p)
  /\ selectedCameraId (core reloaded) = selectedCameraId (core p)
  /\ folderPath reloaded = folderPath p
  /\ folderHandle (core reloaded) = None
  /\ screenStream (core reloaded) = None
  /\ isRecording (core reloaded) = false.
Proof.
  intros p reloaded.
  assert (Hp : preferencesStored p).
  { apply run_invariant; [apply step_preferencesStored |].
    apply initialPage_preferencesStored. }
  destruct Hp as (H1 & H2 & H3 & H4 & H5 & H6).
  subst reloaded. simpl. rewrite H1, H2, H3, H4, H5, H6.
  repeat split; reflexivity.
Qed.

(** *** Object URLs *)

Lemma releasePlayback_accounted p :
  urlsAccounted p ->
  objectUrls (releasePlayback p) = []
  /\ playbackUrl (releasePlayback p) = None
  /\ core (releasePlayback p) = core p
  /\ selectedRecording (releasePlayback p) = selectedRecording p.
Proof.
  intros [Hurls Hne]. unfold releasePlayback.
  destruct (playbackUrl p) as [u |] eqn:Hu; [| auto].
  specialize (Hne u eq_refl).
  destruct (String.eqb_spec u ""); [contradiction |].
  cbn [negb objectUrls playbackUrl core selectedRecording revokeObjectURL
       setObjectUrls setPlaybackUrl].
  rewrite Hurls. simpl. rewrite String.eqb_refl. auto.
Qed.

Lemma objectUrlOf_nonempty uuid : objectUrlOf uuid <> ""%string.
Proof. discriminate. Qed.

Lemma urls_frame p p' :
  objectUrls p' = objectUrls p -> playbackUrl p' = playbackUrl p ->
  urlsAccounted p -> urlsAccounted p'.
Proof. unfold urlsAccounted. now intros -> ->. Qed.

Lemma handleClosePlayer_accounted p :
  urlsAccounted p -> urlsAccounted (handleClosePlayer p).
Proof.
  intros Hp. destruct (releasePlayback_accounted p Hp) as (H1 & H2 & _).
  unfold handleClosePlayer, urlsAccounted.
  cbn [objectUrls playbackUrl withCore setCore setSelectedRecording].
  rewrite H1, H2. split; [reflexivity | discriminate].
Qed.

Lemma handlePlayRecording_accounted resp uuid recording p :
  urlsAccounted p -> urlsAccounted (handlePlayRecording resp uuid recording p).
Proof.
  intros Hp. destruct (releasePlayback_accounted p Hp) as (H1 & H2 & _).
  unfold handlePlayRecording, urlsAccounted. cbv zeta.
  destruct resp as [err | file];
    cbn [objectUrls playbackUrl withCore setCore setSelectedRecording
         setObjectUrls setPlaybackUrl];
    rewrite ?H1, ?H2; split; try reflexivity; try discriminate.
  intros u [= <-]. apply objectUrlOf_nonempty.
Qed.

Lemma handleDeleteRecording_accounted h confirmed removal l recording p :
  urlsAccounted p ->
  urlsAccounted (handleDeleteRecording h confirmed removal l recording p).
Proof.
  intros Hp. unfold handleDeleteRecording, reloadCatalog.
  destruct confirmed; cbn [negb]; [| exact Hp].
  destruct (folderHandle (core p)); [destruct removal |].
  - now apply (urls_frame p).
  - unfold isSelected.
    cbn [selectedRecording setRemovedEntries].
    destruct (selectedRecording p) as [r |];
      [destruct (String.eqb (filename r) (filename recording)) |].
    + apply (urls_frame (handleClosePlayer (setRemovedEntries
               (removedEntries p ++ [filename recording]) p)));
        [reflexivity | reflexivity |].
      apply handleClosePlayer_accounted. now apply (urls_frame p).
    + now apply (urls_frame p).
    + now apply (urls_frame p).
  - unfold isSelected.
    destruct (selectedRecording p) as [r |];
      [destruct (String.eqb (filename r) (filename recording)) |].
    + apply (urls_frame (handleClosePlayer p)); [reflexivity | reflexivity |].
      now apply handleClosePlayer_accounted.
    + now apply (urls_frame p).
    + now apply (urls_frame p).
Qed.

Lemma handle_urlsAccounted h api e p :
  urlsAccounted p -> urlsAccounted (handle h api e p).
Proof.
  intros Hp. destruct e; cbn [handle].
  - now apply (urls_frame p).
  - repeat case_match; try exact Hp; now apply (urls_frame p).
  - repeat case_match; try exact Hp; now apply (urls_frame p).
  - unfold handleSelectFolder, reloadCatalog.
    repeat case_match; try exact Hp; now apply (urls_frame p).
  - unfold handleClearFolder, reloadCatalog.
    repeat case_match; try exact Hp; now apply (urls_frame p).
  - unfold detectDevices. destruct resp; now apply (urls_frame p).
  - repeat case_match; try exact Hp. now apply handlePlayRecording_accounted.
  - repeat case_match; try exact Hp. now apply handleDeleteRecording_accounted.
  - case_match; [now apply handleClosePlayer_accounted | exact Hp].
  - case_match; [now apply (urls_frame p) | exact Hp].
  - now apply (urls_frame p).
  - now apply (urls_frame p).
  - now apply (urls_frame p).
  - now apply (urls_frame p).
  - now apply (urls_frame p).
  - now apply (urls_frame p).
Qed.

(** The cleanup keyed on [playbackUrl] revokes a URL that the handler has
    revoked already: it never takes the one being played. *)
Lemma playbackEffectCleanup_accounted closed p :
  playbackUrl p <> closed -> urlsAccounted p ->
  playbackEffectCleanup closed p = p.
Proof.
  intros Hne [Hurls _]. unfold playbackEffectCleanup.
  destruct closed as [url |]; [| reflexivity].
  destruct (negb (String.eqb url "")); [| reflexivity].
  unfold revokeObjectURL. rewrite Hurls.
  destruct (playbackUrl p) as [u |] eqn:Hu; simpl.
  - destruct (String.eqb_spec u url) as [-> | _]; [congruence |].
    simpl. rewrite <- Hurls. now destruct p.
  - rewrite <- Hurls. now destruct p.
Qed.

Lemma step_urlsAccounted h api e p :
  urlsAccounted p -> urlsAccounted (step h api e p).
Proof.
  intros Hp. unfold step.
  apply commit_cases; [now apply handle_urlsAccounted | |].
  - intros q. now apply urls_frame.
  - intros q Hne Hq. now rewrite playbackEffectCleanup_accounted.
Qed.

(** X16. With each handler running to completion before the next event, object
    URLs made for playback do not pile up: at any point of any run, the
    ones the browser still holds are exactly the one being played, or
    none when nothing is played; every earlier one has been revoked, and
    unmounting revokes the last. *)
Theorem object_urls_are_released h api ls events :
  let p := run h api events (initialPage api ls) in
  objectUrls p = match playbackUrl p with Some u => [u] | None => [] end
  /\ (List.length (objectUrls p) <= 1)%nat
  /\ objectUrls (unmount p) = [].
Proof.
  intros p.
  assert (Hp : urlsAccounted p).
  { apply run_invariant; [apply step_urlsAccounted |].
    split; [reflexivity | discriminate]. }
  destruct Hp as [Hurls Hne]. split; [exact Hurls |].
  split; [rewrite Hurls; destruct (playbackUrl p); simpl; lia |].
  unfold unmount, playbackEffectCleanup.
  destruct (playbackUrl p) as [u |] eqn:Hu; [| exact Hurls].
  specialize (Hne u eq_refl).
  destruct (String.eqb_spec u ""); [contradiction |].
  cbn [negb objectUrls revokeObjectURL setObjectUrls withCore setCore].
  rewrite Hurls. simpl. now rewrite String.eqb_refl.
Qed.

(** *** Screen handle *)

Lemma handles_frame s s' :
  handleCells s' = handleCells s -> screenGuarded s -> screenGuarded s'.
Proof.
  unfold screenGuarded, handleCells. now intros [= -> -> _ _].
Qed.

Lemma loadRecordings_handleCells h folder l s :
  handleCells (loadRecordings h folder l s) = handleCells s.
Proof.
  unfold loadRecordings. destruct folder; [destruct (refresh h l) |];
    reflexivity.
Qed.

Lemma onstop_after_release h r inp s :
  onstop h r inp s
  = (match recordedChunks (afterRelease r s) with
     | [] => afterRelease r s
     | _ :: _ =>
         saveRecording h (capturedFolderHandle r) inp
           (newBlob (recordedChunks (afterRelease r s)) (blobTypeOf r))
           (afterRelease r s)
     end)
    |> setRecordedChunks [] |> setRecordingDuration 0.
Proof. reflexivity. Qed.

Lemma afterRelease_handleCells r s :
  handleCells (afterRelease r s) = handleCells s.
Proof.
  unfold afterRelease. cbv zeta.
  destruct (recordingTimer s) as [id |] eqn:Ht;
    cbn [mediaStream clearInterval setRecordingTimer emit setEffects
         setActiveIntervals];
    destruct (mediaStream s) as [tracks |]; reflexivity.
Qed.

Lemma saveRecording_handleCells h folder inp blob s :
  handleCells (saveRecording h folder inp blob s) = handleCells s.
Proof.
  unfold saveRecording.
  destruct folder as [f |]; [destruct (writeOutcome inp) |];
    rewrite ?loadRecordings_handleCells; reflexivity.
Qed.

Lemma onstop_handleCells h r inp s :
  handleCells (onstop h r inp s) = handleCells s.
Proof.
  pose proof (afterRelease_handleCells r s) as Hc.
  rewrite onstop_after_release.
  destruct (recordedChunks (afterRelease r s)) as [| b rest].
  - exact Hc.
  - rewrite <- Hc.
    rewrite <- (saveRecording_handleCells h (capturedFolderHandle r) inp
                  (newBlob (b :: rest) (blobTypeOf r)) (afterRelease r s)).
    reflexivity.
Qed.

Lemma handleToggleScreen_guarded resp s :
  screenGuarded s -> screenGuarded (handleToggleScreen resp s).
Proof.
  intros Hscreen. unfold screenGuarded, handleToggleScreen in *.
  destruct (isScreenEnabled s) eqn:Hon.
  - destruct (screenStream s) eqn:Hs; simpl; rewrite ?Hs; discriminate.
  - assert (Hs : screenStream s = None)
      by (destruct (screenStream s); [specialize (Hscreen eq_refl) |];
          congruence).
    destruct resp as [v o | err]; [| case_match]; simpl; auto;
      rewrite Hs; discriminate.
Qed.

Lemma handleStartRecording_handleCells inp s :
  screenStream (handleStartRecording inp s) = screenStream s
  /\ isScreenEnabled (handleStartRecording inp s) = isScreenEnabled s
  /\ folderHandle (handleStartRecording inp s) = folderHandle s.
Proof.
  unfold handleStartRecording. rewrite buildTracks_after_reset.
  cbn [isCameraEnabled isScreenEnabled isMicEnabled screenStream
       setRecordingError setSaveSuccess setRecordedChunks].
  repeat case_match; repeat split; reflexivity.
Qed.

Lemma click_guarded h c s : screenGuarded s -> screenGuarded (click h c s).
Proof.
  intros Hp. unfold click. cbv zeta. case_match; [| exact Hp].
  destruct c; cbn [onClick].
  - exact Hp.
  - exact Hp.
  - now apply handleToggleScreen_guarded.
  - destruct (handleStartRecording_handleCells inp s) as (Hs & He & _).
    unfold screenGuarded. now rewrite Hs, He.
  - unfold screenGuarded, handleStopRecording in *.
    repeat case_match; exact Hp.
  - apply (handles_frame s); [| exact Hp]. apply loadRecordings_handleCells.
Qed.

Lemma handle_screenGuarded h api e p :
  screenGuarded (core p) -> screenGuarded (core (handle h api e p)).
Proof.
  intros Hp. destruct e; cbn [handle].
  - now apply click_guarded.
  - repeat case_match; exact Hp.
  - repeat case_match; exact Hp.
  - unfold handleSelectFolder, reloadCatalog.
    repeat case_match; try exact Hp;
      cbn [core withCore setCore setFolderPath setError];
      match goal with
      | |- screenGuarded (loadRecordings ?hh ?f ?ll ?s) =>
          apply (handles_frame s);
          [apply loadRecordings_handleCells | exact Hp]
      end.
  - unfold handleClearFolder, reloadCatalog.
    repeat case_match; try exact Hp;
      cbn [core withCore setCore setFolderPath setError];
      match goal with
      | |- screenGuarded (loadRecordings ?hh ?f ?ll ?s) =>
          apply (handles_frame s);
          [apply loadRecordings_handleCells | exact Hp]
      end.
  - unfold detectDevices, autoSelect.
    destruct resp; try exact Hp;
      cbn [core withCore setCore setPermissionGranted setMicrophones setCameras];
      repeat case_match; exact Hp.
  - repeat case_match; try exact Hp.
    unfold handlePlayRecording, releasePlayback. repeat case_match; exact Hp.
  - repeat case_match; try exact Hp.
    unfold handleDeleteRecording, reloadCatalog, handleClosePlayer,
      releasePlayback.
    repeat case_match; try exact Hp;
      cbn [core folderPath withCore setCore setRemovedEntries
           setSelectedRecording setPlaybackUrl revokeObjectURL setObjectUrls];
      match goal with
      | |- screenGuarded (loadRecordings ?hh ?f ?ll ?s) =>
          apply (handles_frame s);
          [apply loadRecordings_handleCells | exact Hp]
      end.
  - case_match; [| exact Hp].
    unfold handleClosePlayer, releasePlayback. repeat case_match; exact Hp.
  - case_match; exact Hp.
  - cbn [core withCore setCore]. unfold ondataavailable.
    repeat case_match; exact Hp.
  - apply (handles_frame (core p)); [| exact Hp]. apply onstop_handleCells.
  - exact Hp.
  - cbn [core withCore setCore]. unfold tick. case_match; exact Hp.
  - exact Hp.
  - cbn [core withCore setCore]. unfold screenGuarded. simpl. discriminate.
Qed.

Lemma step_screenGuarded h api e p :
  screenGuarded (core p) -> screenGuarded (core (step h api e p)).
Proof.
  intros Hp. unfold step.
  apply (commit_cases (fun q => screenGuarded (core q)));
    [now apply handle_screenGuarded | |].
  - intros q. apply handles_frame. apply screenEffectCleanup_cells.
  - intros q _. apply handles_frame.
    unfold playbackEffectCleanup. repeat case_match; reflexivity.
Qed.

(** X17. With each handler running to completion before the next event: at any
    point of any run, a screen-capture handle is held only while the screen
    toggle is on. The converse fails after a reload, which restores the
    toggle without a handle. *)
Theorem screen_handle_only_while_toggle_on h api ls events :
  let s := core (run h api events (initialPage api ls)) in
  isSome (screenStream s) = true -> isScreenEnabled s = true.
Proof.
  intros s. subst s.
  apply (run_invariant h api (fun p => screenGuarded (core p)));
    [apply step_screenGuarded |].
  unfold screenGuarded. simpl. discriminate.
Qed.

Lemma screen_handle_only_while_toggle_on_witness :
  isScreenEnabled
    (core (run utcHost true
             [Clicked (ClickToggleScreen (DisplayStream screenTrack []))]
             (initialPage true ∅)))
  = true.
Proof.
  apply (screen_handle_only_while_toggle_on utcHost true ∅
           [Clicked (ClickToggleScreen (DisplayStream screenTrack []))]).
  reflexivity.
Defined.

(** *** Empty artifacts *)

Lemma quiet_frame s s' :
  recordedChunks s' = recordedChunks s \/ recordedChunks s' = [] ->
  (exists fx, effects s' = effects s ++ fx /\ persisted fx = []) ->
  nothingEmpty s -> nothingEmpty s'.
Proof.
  intros Hc (fx & He & Hfx) [Hchunks Hfiles]. split.
  - destruct Hc as [-> | ->]; [exact Hchunks | constructor].
  - now rewrite He, persisted_app, Hfx, app_nil_r.
Qed.

Lemma still_frame s s' :
  recordedChunks s' = recordedChunks s -> effects s' = effects s ->
  nothingEmpty s -> nothingEmpty s'.
Proof.
  intros Hc He. apply quiet_frame; [now left |].
  exists []. now rewrite app_nil_r.
Qed.

Lemma handleStartRecording_chunks inp s :
  recordedChunks (handleStartRecording inp s) = [].
Proof.
  unfold handleStartRecording. rewrite buildTracks_after_reset.
  cbn [isCameraEnabled isScreenEnabled isMicEnabled screenStream
       setRecordingError setSaveSuccess setRecordedChunks].
  repeat case_match; reflexivity.
Qed.

Lemma blobSize_newBlob parts type :
  parts <> [] -> Forall (fun b => 0 < blobSize b) parts ->
  0 < blobSize (newBlob parts type).
Proof.
  intros Hne Hall. destruct Hall as [| b rest Hb _]; [congruence |].
  unfold blobSize, newBlob in *. cbn [blobData map List.concat].
  rewrite length_app. lia.
Qed.

Lemma onstop_nothingEmpty h r inp s :
  nothingEmpty s -> nothingEmpty (onstop h r inp s).
Proof.
  intros [Hchunks Hfiles]. unfold nothingEmpty.
  destruct (onstop_trace h r inp s) as (-> & _ & _ & -> & _).
  split; [constructor |].
  rewrite persisted_app. apply Forall_app. split; [exact Hfiles |].
  destruct (finalizeCalls_summary r inp s) as [-> _].
  destruct (recordedChunks s) as [| b rest] eqn:Hc; constructor; [| constructor].
  cbn [snd]. now apply blobSize_newBlob.
Qed.

Lemma handle_nothingEmpty h api e p :
  nothingEmpty (core p) -> nothingEmpty (core (handle h api e p)).
Proof.
  intros Hp. destruct e; cbn [handle].
  - cbn [core withCore setCore]. unfold click. cbv zeta.
    case_match; [| exact Hp]. destruct c; cbn [onClick].
    + exact Hp.
    + exact Hp.
    + apply (quiet_frame (core p)); [left | | exact Hp].
      * unfold handleToggleScreen. repeat case_match; reflexivity.
      * unfold handleToggleScreen.
        repeat case_match;
          first [ exists []; simpl; now rewrite app_nil_r
                | eexists; split; [reflexivity |];
                  rewrite <- (map_map FromScreen TrackStop);
                  apply TrackStop_persists_nothing ].
    + apply (quiet_frame (core p)); [right | | exact Hp].
      * apply handleStartRecording_chunks.
      * apply handleStartRecording_persists_nothing.
    + apply (quiet_frame (core p)); [left | | exact Hp].
      * unfold handleStopRecording. repeat case_match; reflexivity.
      * apply handleStopRecording_persists_nothing.
    + destruct (loadRecordings_session h (folderHandle (core p)) l (core p))
        as (He & _ & _ & _ & _ & _ & Hc & _).
      now apply (still_frame (core p)).
  - repeat case_match; exact Hp.
  - repeat case_match; exact Hp.
  - unfold handleSelectFolder, reloadCatalog.
    repeat case_match; try exact Hp;
      cbn [core withCore setCore setFolderPath setError];
      match goal with
      | |- nothingEmpty (loadRecordings ?hh ?f ?ll ?s) =>
          destruct (loadRecordings_session hh f ll s)
            as (He & _ & _ & _ & _ & _ & Hc & _);
          apply (still_frame s); [exact Hc | exact He | exact Hp]
      end.
  - unfold handleClearFolder, reloadCatalog.
    repeat case_match; try exact Hp;
      cbn [core withCore setCore setFolderPath setError];
      match goal with
      | |- nothingEmpty (loadRecordings ?hh ?f ?ll ?s) =>
          destruct (loadRecordings_session hh f ll s)
            as (He & _ & _ & _ & _ & _ & Hc & _);
          apply (still_frame s); [exact Hc | exact He | exact Hp]
      end.
  - unfold detectDevices, autoSelect.
    destruct resp; apply (still_frame (core p)); try exact Hp;
      cbn [core withCore setCore setPermissionGranted setMicrophones setCameras];
      repeat case_match; reflexivity.
  - repeat case_match; try exact Hp.
    apply (still_frame (core p)); [| | exact Hp];
      unfold handlePlayRecording, releasePlayback; repeat case_match;
      reflexivity.
  - repeat case_match; try exact Hp.
    unfold handleDeleteRecording, reloadCatalog, handleClosePlayer,
      releasePlayback.
    repeat case_match; try exact Hp;
      cbn [core folderPath withCore setCore setRemovedEntries
           setSelectedRecording setPlaybackUrl revokeObjectURL setObjectUrls];
      match goal with
      | |- nothingEmpty (loadRecordings ?hh ?f ?ll ?s) =>
          destruct (loadRecordings_session hh f ll s)
            as (He & _ & _ & _ & _ & _ & Hc & _);
          apply (still_frame s); [exact Hc | exact He | exact Hp]
      end.
  - case_match; [| exact Hp].
    unfold handleClosePlayer, releasePlayback. repeat case_match; exact Hp.
  - case_match; exact Hp.
  - cbn [core withCore setCore]. unfold ondataavailable.
    destruct data as [d |]; [| exact Hp].
    destruct (0 <? blobSize d) eqn:Hd; [| exact Hp].
    destruct Hp as [Hchunks Hfiles]. split; [| exact Hfiles].
    cbn [recordedChunks setRecordedChunks]. apply Forall_app. split; auto.
    constructor; [lia | constructor].
  - now apply onstop_nothingEmpty.
  - apply (quiet_frame (core p)); [now left | | exact Hp].
    eexists. split; reflexivity.
  - cbn [core withCore setCore]. unfold tick. case_match; exact Hp.
  - exact Hp.
  - exact Hp.
Qed.

Lemma step_nothingEmpty h api e p :
  nothingEmpty (core p) -> nothingEmpty (core (step h api e p)).
Proof.
  intros Hp. unfold step.
  apply (commit_cases (fun q => nothingEmpty (core q)));
    [now apply handle_nothingEmpty | |].
  - intros q.
    destruct (screenEffectCleanup_cells (screenStream (core p)) (core q))
      as (_ & _ & Hc & _ & _ & _ & He).
    apply quiet_frame; [now left |].
    eexists. split; [exact He | apply cleanupCalls_quiet].
  - intros q _. apply still_frame;
      unfold playbackEffectCleanup; repeat case_match; reflexivity.
Qed.

(** X18. With each handler running to completion before the next event:
    whatever happens between mount and now, no blob written through the
    folder handle and no blob offered for download is empty, and no empty
    chunk is waiting to be assembled. A session that delivered no data
    persists nothing. (The entry that [getFileHandle] creates before a
    later step of the write fails is not a written blob.) *)
Theorem no_empty_recording_is_ever_saved h api ls events :
  let s := core (run h api events (initialPage api ls)) in
  Forall (fun b => 0 < blobSize b) (recordedChunks s)
  /\ Forall (fun a => 0 < blobSize (snd a)) (persisted (effects s)).
Proof.
  intros s. subst s.
  apply (run_invariant h api (fun p => nothingEmpty (core p)));
    [apply step_nothingEmpty |].
  split; constructor.
Qed.

(** *** Device menus *)

Lemma hasOption_lookup options (i : nat) o :
  options !! i = Some o -> hasOption (optionId o) options = true.
Proof.
  unfold hasOption. intros Hi. apply existsb_exists. exists o.
  split; [| apply String.eqb_refl].
  apply list_elem_of_In. eapply list_elem_of_lookup_2, Hi.
Qed.

Lemma hasOption_first o rest : hasOption (optionId o) (o :: rest) = true.
Proof. unfold hasOption. simpl. now rewrite String.eqb_refl. Qed.

Lemma selections_frame p p' :
  microphones p' = microphones p -> cameras p' = cameras p ->
  selectedMicId (core p') = selectedMicId (core p) ->
  selectedCameraId (core p') = selectedCameraId (core p) ->
  selectionsListed p -> selectionsListed p'.
Proof. unfold selectionsListed. now intros -> -> -> ->. Qed.

Lemma autoSelect_mic_listed options s :
  selectedMicId s = getItemOrEmpty (localStorage s) MIC_STORAGE_KEY ->
  options <> [] ->
  hasOption (selectedMicId (autoSelect MIC_STORAGE_KEY setSelectedMicId options s))
    options = true.
Proof.
  intros Hsel Hne. unfold autoSelect.
  destruct options as [| first rest]; [congruence |]. cbv zeta.
  destruct (negb (truthy (localStorage s !! MIC_STORAGE_KEY)));
    [apply hasOption_first |].
  destruct (hasOption (getItemOrEmpty (localStorage s) MIC_STORAGE_KEY)
              (first :: rest)) eqn:Hhas;
    cbn [negb]; [now rewrite Hsel | apply hasOption_first].
Qed.

Lemma autoSelect_camera_listed options s :
  selectedCameraId s = getItemOrEmpty (localStorage s) CAMERA_STORAGE_KEY ->
  options <> [] ->
  hasOption
    (selectedCameraId (autoSelect CAMERA_STORAGE_KEY setSelectedCameraId options s))
    options = true.
Proof.
  intros Hsel Hne. unfold autoSelect.
  destruct options as [| first rest]; [congruence |]. cbv zeta.
  destruct (negb (truthy (localStorage s !! CAMERA_STORAGE_KEY)));
    [apply hasOption_first |].
  destruct (hasOption (getItemOrEmpty (localStorage s) CAMERA_STORAGE_KEY)
              (first :: rest)) eqn:Hhas;
    cbn [negb]; [now rewrite Hsel | apply hasOption_first].
Qed.

Lemma autoSelect_camera_keeps_mic options s :
  selectedMicId (autoSelect CAMERA_STORAGE_KEY setSelectedCameraId options s)
  = selectedMicId s.
Proof. unfold autoSelect. repeat case_match; reflexivity. Qed.

Lemma detectDevices_listed resp p :
  preferencesStored p -> selectionsListed p ->
  selectionsListed (detectDevices resp p).
Proof.
  intros Hp Hl. unfold detectDevices.
  destruct resp as [| err | devices]; [now apply (selections_frame p) .. |].
  cbv zeta.
  set (mics := map (deviceOption "Microphone") (List.filter isAudioInput devices)).
  set (cams := map (deviceOption "Camera") (List.filter isVideoInput devices)).
  set (p0 := p |> setPermissionGranted true |> withCore (setDeviceError None)
               |> setMicrophones mics |> setCameras cams).
  assert (H0 : preferencesStored p0) by (subst p0; stored Hp).
  pose proof (autoSelect_mic_preferencesStored mics p0 H0) as H1.
  split; cbn [microphones cameras core withCore setCore].
  - intros Hne. rewrite autoSelect_camera_keeps_mic.
    apply autoSelect_mic_listed; [apply H0 | exact Hne].
  - intros Hne. apply autoSelect_camera_listed; [apply H1 | exact Hne].
Qed.

Lemma selection_of_preferences s s' :
  preferenceCells s' = preferenceCells s ->
  (selectedMicId s', selectedCameraId s')
  = (selectedMicId s, selectedCameraId s).
Proof. now intros [= _ _ _ _ -> ->]. Qed.

Lemma selections_frame_core p p' :
  microphones p' = microphones p -> cameras p' = cameras p ->
  (selectedMicId (core p'), selectedCameraId (core p'))
  = (selectedMicId (core p), selectedCameraId (core p)) ->
  selectionsListed p -> selectionsListed p'.
Proof. intros Hm Hc [= Hmic Hcam]. now apply selections_frame. Qed.

Lemma click_selection h c s :
  (selectedMicId (click h c s), selectedCameraId (click h c s))
  = (selectedMicId s, selectedCameraId s).
Proof.
  unfold click. cbv zeta. case_match; [| reflexivity].
  destruct c; cbn [onClick].
  - reflexivity.
  - reflexivity.
  - unfold handleToggleScreen. repeat case_match; reflexivity.
  - apply selection_of_preferences, handleStartRecording_preferenceCells.
  - apply selection_of_preferences, handleStopRecording_preferenceCells.
  - apply selection_of_preferences, loadRecordings_preferenceCells.
Qed.

Lemma handle_selectionsListed h api e p :
  preferencesStored p -> selectionsListed p ->
  selectionsListed (handle h api e p).
Proof.
  intros Hs Hp. destruct e; cbn [handle].
  - apply (selections_frame_core p); [reflexivity | reflexivity | | exact Hp].
    apply click_selection.
  - repeat case_match; try exact Hp.
    destruct Hp as [_ Hcam]. split; [| exact Hcam].
    intros _. cbn [core microphones withCore setCore handleMicChange
                   selectedMicId setSelectedMicId setItem setLocalStorage].
    eapply hasOption_lookup; eassumption.
  - repeat case_match; try exact Hp.
    destruct Hp as [Hmic _]. split; [exact Hmic |].
    intros _. cbn [core cameras withCore setCore handleCameraChange
                   selectedCameraId setSelectedCameraId setItem
                   setLocalStorage].
    eapply hasOption_lookup; eassumption.
  - apply (selections_frame_core p); [| | | exact Hp];
      unfold handleSelectFolder, reloadCatalog; repeat case_match;
      try reflexivity;
      cbn [core withCore setCore setFolderPath setError];
      match goal with
      | |- context [loadRecordings ?hh ?f ?ll ?s] =>
          rewrite (selection_of_preferences s (loadRecordings hh f ll s)
                     (loadRecordings_preferenceCells hh f ll s))
      end; reflexivity.
  - apply (selections_frame_core p); [| | | exact Hp];
      unfold handleClearFolder, reloadCatalog; repeat case_match;
      try reflexivity;
      cbn [core withCore setCore setFolderPath setError];
      match goal with
      | |- context [loadRecordings ?hh ?f ?ll ?s] =>
          rewrite (selection_of_preferences s (loadRecordings hh f ll s)
                     (loadRecordings_preferenceCells hh f ll s))
      end; reflexivity.
  - now apply detectDevices_listed.
  - repeat case_match; try exact Hp.
    apply (selections_frame_core p); [| | | exact Hp];
      unfold handlePlayRecording, releasePlayback; repeat case_match;
      reflexivity.
  - repeat case_match; try exact Hp.
    apply (selections_frame_core p); [| | | exact Hp];
      unfold handleDeleteRecording, reloadCatalog, handleClosePlayer,
        releasePlayback;
      repeat case_match; try reflexivity;
      cbn [core folderPath withCore setCore setRemovedEntries
           setSelectedRecording setPlaybackUrl revokeObjectURL setObjectUrls];
      match goal with
      | |- context [loadRecordings ?hh ?f ?ll ?s] =>
          rewrite (selection_of_preferences s (loadRecordings hh f ll s)
                     (loadRecordings_preferenceCells hh f ll s))
      end; reflexivity.
  - case_match; [| exact Hp].
    apply (selections_frame_core p); [| | | exact Hp];
      unfold handleClosePlayer, releasePlayback; repeat case_match;
      reflexivity.
  - case_match; exact Hp.
  - apply (selections_frame_core p); [reflexivity | reflexivity | | exact Hp].
    apply selection_of_preferences, ondataavailable_preferenceCells.
  - apply (selections_frame_core p); [reflexivity | reflexivity | | exact Hp].
    apply selection_of_preferences, onstop_preferenceCells.
  - exact Hp.
  - apply (selections_frame_core p); [reflexivity | reflexivity | | exact Hp].
    apply selection_of_preferences, tick_preferenceCells.
  - exact Hp.
  - exact Hp.
Qed.

Lemma step_selectionsListed h api e p :
  preferencesStored p /\ selectionsListed p ->
  preferencesStored (step h api e p) /\ selectionsListed (step h api e p).
Proof.
  intros [Hs Hp]. split; [now apply step_preferencesStored |].
  unfold step. apply commit_cases; [now apply handle_selectionsListed | |].
  - intros q. apply selections_frame_core; [reflexivity | reflexivity |].
    apply selection_of_preferences, screenEffectCleanup_cells.
  - intros q _. apply selections_frame;
      unfold playbackEffectCleanup; repeat case_match; reflexivity.
Qed.

(** X19. With each handler running to completion before the next event: at any
    point of any run, a device menu that has options has one of them
    selected. Detection replaces a stored choice that names no enumerated
    device by the first one, and the menus only change the choice to one
    of their options. *)
Theorem selected_device_is_always_listed h api ls events :
  let p := run h api events (initialPage api ls) in
  (microphones p <> [] ->
   hasOption (selectedMicId (core p)) (microphones p) = true)
  /\ (cameras p <> [] ->
      hasOption (selectedCameraId (core p)) (cameras p) = true).
Proof.
  intros p. subst p.
  apply (run_invariant h api
           (fun p => preferencesStored p /\ selectionsListed p));
    [apply step_selectionsListed |].
  split; [apply initialPage_preferencesStored |].
  split; intros Hne; now contradiction Hne.
Qed.

Lemma selected_device_is_always_listed_witness :
  let p := run utcHost true
             [DetectionDone (DevicesEnumerated [speakers; builtInMic; webcam])]
             (initialPage true staleMicrophone) in
  selectedMicId (core p) = "default-mic"%string
  /\ hasOption (selectedMicId (core p)) (microphones p) = true
  /\ hasOption (selectedCameraId (core p)) (cameras p) = true.
Proof.
  destruct (selected_device_is_always_listed utcHost true staleMicrophone
              [DetectionDone (DevicesEnumerated [speakers; builtInMic; webcam])])
    as [Hmic Hcam].
  split; [reflexivity |].
  split; [apply Hmic | apply Hcam]; discriminate.
Defined.

(** *** What starts a recorder *)

Lemma no_start_in_stops tracks :
  existsb isRecorderStart (map TrackStop tracks) = false.
Proof. induction tracks; simpl; auto. Qed.

Lemma finalizeCalls_no_start r inp s :
  existsb isRecorderStart (finalizeCalls r inp s) = false.
Proof.
  unfold finalizeCalls, persistenceCalls. rewrite !existsb_app.
  destruct (recordingTimer s), (mediaStream s), (recordedChunks s);
    simpl; rewrite ?no_start_in_stops; try reflexivity;
    destruct (capturedFolderHandle r); try reflexivity;
    destruct (writeOutcome inp); reflexivity.
Qed.

(** The log only grows, and a recorder is started by nothing but a click
    on Start that found a folder handle and no session in progress. *)
Lemma handle_log h api e p :
  exists fx,
    effects (core (handle h api e p)) = effects (core p) ++ fx
    /\ (existsb isRecorderStart fx = true ->
        isSome (folderHandle (core p)) = true
        /\ isRecording (core p) = false).
Proof.
  assert (Hquiet : forall s' : State,
             effects s' = effects (core p) ->
             exists fx,
               effects s' = effects (core p) ++ fx
               /\ (existsb isRecorderStart fx = true ->
                   isSome (folderHandle (core p)) = true
                   /\ isRecording (core p) = false)).
  { intros s' ->. exists []. rewrite app_nil_r. split; [reflexivity |].
    discriminate. }
  destruct e; cbn [handle].
  - cbn [core withCore setCore]. unfold click. cbv zeta.
    destruct (rendered (control (core p) (target c))
              && negb (disabled (control (core p) (target c)))) eqn:Hgate;
      [| now apply Hquiet].
    destruct c; cbn [onClick].
    + now apply Hquiet.
    + now apply Hquiet.
    + unfold handleToggleScreen.
      repeat case_match; try (now apply Hquiet).
      eexists. split; [reflexivity |].
      rewrite <- (map_map FromScreen TrackStop), no_start_in_stops.
      discriminate.
    + destruct (handleStartRecording_persists_nothing inp (core p))
        as (fx & He & _).
      exists fx. split; [exact He |]. intros _.
      simpl in Hgate.
      destruct (isRecording (core p)), (folderHandle (core p));
        simpl in Hgate; try discriminate; auto.
    + unfold handleStopRecording.
      repeat case_match; try (now apply Hquiet).
      eexists. split; [reflexivity | discriminate].
    + apply Hquiet. apply loadRecordings_session.
  - repeat case_match; now apply Hquiet.
  - repeat case_match; now apply Hquiet.
  - apply Hquiet. unfold handleSelectFolder, reloadCatalog.
    repeat case_match; try reflexivity;
      cbn [core withCore setCore setFolderPath setError];
      match goal with
      | |- context [loadRecordings ?hh ?f ?ll ?s] =>
          destruct (loadRecordings_session hh f ll s) as [-> _]
      end; reflexivity.
  - apply Hquiet. unfold handleClearFolder, reloadCatalog.
    repeat case_match; try reflexivity;
      cbn [core withCore setCore setFolderPath setError];
      match goal with
      | |- context [loadRecordings ?hh ?f ?ll ?s] =>
          destruct (loadRecordings_session hh f ll s) as [-> _]
      end; reflexivity.
  - apply Hquiet. unfold detectDevices, autoSelect.
    destruct resp;
      cbn [core withCore setCore setPermissionGranted setMicrophones setCameras];
      repeat case_match; reflexivity.
  - apply Hquiet. repeat case_match; try reflexivity.
    unfold handlePlayRecording, releasePlayback. repeat case_match; reflexivity.
  - apply Hquiet. repeat case_match; try reflexivity.
    unfold handleDeleteRecording, reloadCatalog, handleClosePlayer,
      releasePlayback.
    repeat case_match; try reflexivity;
      cbn [core folderPath withCore setCore setRemovedEntries
           setSelectedRecording setPlaybackUrl revokeObjectURL setObjectUrls];
      match goal with
      | |- context [loadRecordings ?hh ?f ?ll ?s] =>
          destruct (loadRecordings_session hh f ll s) as [-> _]
      end; reflexivity.
  - apply Hquiet. case_match; [| reflexivity].
    unfold handleClosePlayer, releasePlayback. repeat case_match; reflexivity.
  - apply Hquiet. case_match; reflexivity.
  - apply Hquiet. apply ondataavailable_effects.
  - exists (finalizeCalls r inp (core p)). split; [apply onstop_trace |].
    rewrite finalizeCalls_no_start. discriminate.
  - eexists. split; [reflexivity | discriminate].
  - apply Hquiet. cbn [core withCore setCore]. unfold tick.
    case_match; reflexivity.
  - now apply Hquiet.
  - now apply Hquiet.
Qed.

Lemma commit_log before p :
  exists fx,
    effects (core (commit before p)) = effects (core p) ++ fx
    /\ existsb isRecorderStart fx = false
    /\ persisted fx = [].
Proof.
  unfold commit. cbv zeta.
  assert (Hurl : forall q : Page,
             core (if bool_decide (playbackUrl q = playbackUrl before) then q
                   else playbackEffectCleanup (playbackUrl before) q)
             = core q)
    by (intros q; unfold playbackEffectCleanup; repeat case_match;
        reflexivity).
  rewrite Hurl. case_bool_decide.
  - exists []. now rewrite app_nil_r.
  - exists (cleanupCalls (screenStream (core before)) (core p)).
    split; [apply screenEffectCleanup_cells |].
    split; apply cleanupCalls_quiet.
Qed.

Lemma step_log h api e p :
  exists fx,
    effects (core (step h api e p)) = effects (core p) ++ fx
    /\ (existsb isRecorderStart fx = true ->
        isSome (folderHandle (core p)) = true
        /\ isRecording (core p) = false).
Proof.
  unfold step.
  destruct (handle_log h api e p) as (fx & He & Hstart).
  destruct (commit_log p (handle h api e p)) as (fx' & He' & Hquiet & _).
  exists (fx ++ fx'). split; [now rewrite He', He, app_assoc |].
  rewrite existsb_app, Hquiet, orb_false_r. exact Hstart.
Qed.

Lemma handle_folder_idle h api e p :
  grantsFolder api e = false ->
  folderHandle (core p) = None -> isRecording (core p) = false ->
  folderHandle (core (handle h api e p)) = None
  /\ isRecording (core (handle h api e p)) = false.
Proof.
  intros Hok Hf Hr.
  assert (Hframe : forall s' : State,
             handleCells s' = handleCells (core p) ->
             folderHandle s' = None /\ isRecording s' = false)
    by (intros s' [= _ _ -> ->]; auto).
  destruct e; cbn [handle].
  - cbn [core withCore setCore]. unfold click. cbv zeta.
    destruct (rendered (control (core p) (target c))
              && negb (disabled (control (core p) (target c)))) eqn:Hgate;
      [| auto].
    destruct c; simpl in Hgate; rewrite ?Hf, ?Hr in Hgate; simpl in Hgate;
      try discriminate; cbn [onClick].
    + now apply Hframe.
    + now apply Hframe.
    + unfold handleToggleScreen. repeat case_match; auto.
  - repeat case_match; auto.
  - repeat case_match; auto.
  - unfold handleSelectFolder, reloadCatalog.
    destruct resp as [err | handle]; [| simpl in Hok; subst api];
      repeat case_match; auto; discriminate.
  - apply Hframe. unfold handleClearFolder, reloadCatalog.
    repeat case_match; try reflexivity;
      cbn [core withCore setCore setFolderPath setError];
      rewrite ?loadRecordings_handleCells; unfold handleCells; simpl;
      now rewrite Hf.
  - apply Hframe. unfold detectDevices, autoSelect.
    destruct resp;
      cbn [core withCore setCore setPermissionGranted setMicrophones setCameras];
      repeat case_match; reflexivity.
  - apply Hframe. repeat case_match; try reflexivity.
    unfold handlePlayRecording, releasePlayback. repeat case_match; reflexivity.
  - apply Hframe. repeat case_match; try reflexivity.
    unfold handleDeleteRecording, reloadCatalog, handleClosePlayer,
      releasePlayback.
    repeat case_match; try reflexivity;
      cbn [core folderPath withCore setCore setRemovedEntries
           setSelectedRecording setPlaybackUrl revokeObjectURL setObjectUrls];
      rewrite ?loadRecordings_handleCells; reflexivity.
  - apply Hframe. case_match; [| reflexivity].
    unfold handleClosePlayer, releasePlayback. repeat case_match; reflexivity.
  - apply Hframe. case_match; reflexivity.
  - apply Hframe. cbn [core withCore setCore]. unfold ondataavailable.
    repeat case_match; reflexivity.
  - apply Hframe. apply onstop_handleCells.
  - auto.
  - apply Hframe. cbn [core withCore setCore]. unfold tick.
    case_match; reflexivity.
  - now apply Hframe.
  - auto.
Qed.

Lemma commit_handleCells before p :
  handleCells (core (commit before p)) = handleCells (core p).
Proof.
  apply (commit_cases
           (fun q => handleCells (core q) = handleCells (core p)));
    [reflexivity | |].
  - intros q <-. apply screenEffectCleanup_cells.
  - intros q _ <-. unfold playbackEffectCleanup. repeat case_match; reflexivity.
Qed.

(** X20. With each handler running to completion before the next event: as
    long as no folder has been picked since the page was loaded, no
    recorder is ever started and the page never shows a session, whatever
    else is clicked or called back. A folder name remembered from an
    earlier visit does not count: it comes back without its handle. *)
Theorem nothing_is_recorded_before_folder_access h api ls events :
  Forall (fun e => grantsFolder api e = false) events ->
  let s := core (run h api events (initialPage api ls)) in
  folderHandle s = None
  /\ isRecording s = false
  /\ existsb isRecorderStart (effects s) = false.
Proof.
  intros Hok s. subst s.
  apply (run_invariant_on h api (fun e => grantsFolder api e = false)
           (fun p => folderHandle (core p) = None
                     /\ isRecording (core p) = false
                     /\ existsb isRecorderStart (effects (core p)) = false));
    [| exact Hok | repeat split].
  intros e p He (Hf & Hr & Hlog).
  destruct (handle_folder_idle h api e p He Hf Hr) as [Hf' Hr'].
  pose proof (commit_handleCells p (handle h api e p)) as Hc.
  unfold handleCells in Hc. injection Hc as _ _ Hf'' Hr''.
  fold (step h api e p) in Hf'', Hr''.
  split; [congruence |]. split; [congruence |].
  destruct (step_log h api e p) as (fx & -> & Hstart).
  rewrite existsb_app, Hlog. simpl.
  destruct (existsb isRecorderStart fx); [| reflexivity].
  destruct (Hstart eq_refl) as [Hsome _]. now rewrite Hf in Hsome.
Qed.

Lemma nothing_is_recorded_before_folder_access_witness :
  let s := core (run utcHost true
                   [ DetectionDone (DevicesEnumerated []);
                     Clicked (ClickStart (micGranted 7));
                     FolderPicked (inl denied) Done;
                     Clicked (ClickStart (micGranted 8)) ]
                   (initialPage true rememberedFolder)) in
  folderHandle s = None
  /\ isRecording s = false
  /\ existsb isRecorderStart (effects s) = false.
Proof.
  apply (nothing_is_recorded_before_folder_access utcHost true rememberedFolder).
  repeat constructor.
Defined.

(** *** Letting go of a screen stream *)

(** X21. Whenever a step leaves the component with another screen stream than
    the one it held, or with none, that step stops every track of the
    stream it held: the calls it adds to the log contain a stop for each
    of them. *)
Theorem released_screen_stream_is_stopped h api e p stream :
  screenStream (core p) = Some stream ->
  screenStream (core (step h api e p)) <> Some stream ->
  exists fx,
    effects (core (step h api e p)) = effects (core p) ++ fx
    /\ forall t, In t stream -> In (TrackStop (FromScreen t)) fx.
Proof.
  intros Hheld Hgone.
  destruct (handle_log h api e p) as (fx & He & _).
  pose proof (commit_handleCells p (handle h api e p)) as Hc.
  unfold handleCells in Hc. injection Hc as Hs _ _ _.
  fold (step h api e p) in Hs.
  assert (Hchanged : screenStream (core (handle h api e p))
                     <> screenStream (core p))
    by (rewrite <- Hs, Hheld; exact Hgone).
  assert (Hlog : effects (core (step h api e p))
                 = effects (core (handle h api e p))
                   ++ cleanupCalls (Some stream) (core (handle h api e p))).
  { unfold step, commit. cbv zeta.
    assert (Hurl : forall q : Page,
               core (if bool_decide (playbackUrl q = playbackUrl p) then q
                     else playbackEffectCleanup (playbackUrl p) q)
               = core q)
      by (intros q; unfold playbackEffectCleanup; repeat case_match;
          reflexivity).
    rewrite Hurl.
    rewrite (bool_decide_eq_false_2 _ Hchanged), Hheld.
    apply screenEffectCleanup_cells. }
  eexists. split; [rewrite Hlog, He, <- app_assoc; reflexivity |].
  intros t Ht. apply in_or_app. right.
  unfold cleanupCalls. apply in_or_app. right. apply in_or_app. right.
  apply (in_map (fun t => TrackStop (FromScreen t))), Ht.
Qed.

Lemma released_screen_stream_is_stopped_witness :
  exists fx,
    effects (core (step utcHost true ScreenShareEnded (pageOf allSourcesOn)))
    = effects (core (pageOf allSourcesOn)) ++ fx
    /\ forall t, In t [screenTrack] -> In (TrackStop (FromScreen t)) fx.
Proof.
  apply (released_screen_stream_is_stopped utcHost true ScreenShareEnded
           (pageOf allSourcesOn) [screenTrack]).
  - reflexivity.
  - vm_compute. discriminate.
Defined.

(** X22. When screen sharing is ended from the browser while a session is
    running, the render that follows runs the screen effect's cleanup over
    the session's refs: the interval timer is cleared and every track of
    the session's stream is stopped, microphone and camera included,
    followed by the tracks of the screen stream. The recorder's stop is
    not called and the recording indicator stays as it was, over a clock
    that no longer advances. *)
Theorem screen_share_end_halts_session_media h api p stream tracks id :
  screenStream (core p) = Some stream ->
  mediaStream (core p) = Some tracks ->
  recordingTimer (core p) = Some id ->
  let s' := core (step h api ScreenShareEnded p) in
  effects s'
  = effects (core p)
    ++ ClearInterval id :: map TrackStop tracks
    ++ map (fun t => TrackStop (FromScreen t)) stream
  /\ ~ In id (activeIntervals s')
  /\ tick id s' = s'
  /\ isRecording s' = isRecording (core p)
  /\ mediaRecorder s' = mediaRecorder (core p)
  /\ screenStream s' = None /\ isScreenEnabled s' = false.
Proof.
  intros Hscreen Hmedia Htimer s'.
  assert (Hs' : s' = screenEffectCleanup (Some stream) (screenEnded (core p))).
  { subst s'. unfold step, commit. cbv zeta. cbn [handle].
    assert (Hurl : forall q : Page,
               core (if bool_decide (playbackUrl q = playbackUrl p) then q
                     else playbackEffectCleanup (playbackUrl p) q)
               = core q)
      by (intros q; unfold playbackEffectCleanup; repeat case_match;
          reflexivity).
    rewrite Hurl.
    assert (Hchanged : screenStream (core (withCore screenEnded p))
                       <> screenStream (core p))
      by (cbn [core withCore setCore]; rewrite Hscreen; discriminate).
    rewrite (bool_decide_eq_false_2 _ Hchanged), Hscreen. reflexivity. }
  destruct (screenEffectCleanup_cells (Some stream) (screenEnded (core p)))
    as (_ & Hcells & _ & _ & _ & Hact & Hlog).
  rewrite <- Hs' in Hcells, Hact, Hlog.
  unfold cleanupCalls in Hlog. simpl in Hact, Hlog.
  rewrite Htimer in Hact, Hlog. rewrite Hmedia in Hlog.
  assert (Hout : ~ In id (activeIntervals s')).
  { rewrite Hact. intros Hin. apply filter_In in Hin as [_ Hin].
    now rewrite Nat.eqb_refl in Hin. }
  assert (Hnot : existsb (Nat.eqb id) (activeIntervals s') = false).
  { destruct (existsb (Nat.eqb id) (activeIntervals s')) eqn:Hex;
      [| reflexivity].
    apply existsb_exists in Hex as (j & Hj & Heq).
    apply Nat.eqb_eq in Heq. now subst j. }
  split; [exact Hlog |]. split; [exact Hout |].
  split; [unfold tick; now rewrite Hnot |].
  unfold handleCells in Hcells. injection Hcells as Hs He _ Hr.
  assert (Hrec : mediaRecorder s' = mediaRecorder (core p))
    by (rewrite Hs', screenEffectCleanup_recorder; reflexivity).
  repeat split; assumption.
Qed.

Lemma screen_share_end_halts_session_media_witness :
  let s' := core (step utcHost true ScreenShareEnded screenRecording) in
  effects s'
  = effects (core screenRecording)
    ++ ClearInterval 5
       :: map TrackStop [FromScreen screenTrack; FromMic micTrack]
    ++ map (fun t => TrackStop (FromScreen t)) [screenTrack]
  /\ ~ In 5%nat (activeIntervals s')
  /\ tick 5 s' = s'
  /\ isRecording s' = isRecording (core screenRecording)
  /\ mediaRecorder s' = mediaRecorder (core screenRecording)
  /\ screenStream s' = None /\ isScreenEnabled s' = false.
Proof.
  apply (screen_share_end_halts_session_media utcHost true screenRecording
           [screenTrack] [FromScreen screenTrack; FromMic micTrack] 5%nat);
    reflexivity.
Defined.

(** *** Where a finished session is saved *)

Lemma recorder_frame s s' :
  mediaRecorder s' = mediaRecorder s ->
  recorderHasFolder s -> recorderHasFolder s'.
Proof. unfold recorderHasFolder. now intros ->. Qed.

Lemma handleStartRecording_recorder inp s :
  mediaRecorder (handleStartRecording inp s) = mediaRecorder s
  \/ exists r,
       mediaRecorder (handleStartRecording inp s) = Some r
       /\ capturedFolderHandle r = folderHandle s.
Proof.
  unfold handleStartRecording. rewrite buildTracks_after_reset.
  cbn [isCameraEnabled isScreenEnabled isMicEnabled screenStream
       setRecordingError setSaveSuccess setRecordedChunks].
  repeat case_match; try (left; reflexivity);
    right; eexists; split; reflexivity.
Qed.

Lemma click_recorderHasFolder h c s :
  recorderHasFolder s -> recorderHasFolder (click h c s).
Proof.
  intros Hp. unfold click. cbv zeta.
  destruct (rendered (control s (target c))
            && negb (disabled (control s (target c)))) eqn:Hgate;
    [| exact Hp].
  destruct c; cbn [onClick].
  - exact Hp.
  - exact Hp.
  - apply (recorder_frame s); [| exact Hp].
    unfold handleToggleScreen. repeat case_match; reflexivity.
  - destruct (handleStartRecording_recorder inp s) as [Hsame | (r & Hr & Hf)].
    + now apply (recorder_frame s).
    + intros r' Hr'. rewrite Hr in Hr'. injection Hr' as <-. rewrite Hf.
      simpl in Hgate. destruct (folderHandle s); [reflexivity |].
      simpl in Hgate. now rewrite andb_false_r in Hgate.
  - unfold handleStopRecording.
    destruct (mediaRecorder s) as [r |] eqn:Hr; [| exact Hp].
    destruct (recorderState r);
      [now apply (recorder_frame s) |].
    intros r' [= <-]. simpl. now apply Hp.
  - apply (recorder_frame s); [| exact Hp]. apply loadRecordings_session.
Qed.

Lemma handle_recorderHasFolder h api e p :
  recorderHasFolder (core p) -> recorderHasFolder (core (handle h api e p)).
Proof.
  intros Hp. destruct e; cbn [handle].
  - now apply click_recorderHasFolder.
  - repeat case_match; exact Hp.
  - repeat case_match; exact Hp.
  - unfold handleSelectFolder, reloadCatalog.
    repeat case_match; try exact Hp;
      cbn [core withCore setCore setFolderPath setError];
      match goal with
      | |- recorderHasFolder (loadRecordings ?hh ?f ?ll ?s) =>
          apply (recorder_frame s);
          [apply loadRecordings_session | exact Hp]
      end.
  - unfold handleClearFolder, reloadCatalog.
    repeat case_match; try exact Hp;
      cbn [core withCore setCore setFolderPath setError];
      match goal with
      | |- recorderHasFolder (loadRecordings ?hh ?f ?ll ?s) =>
          apply (recorder_frame s);
          [apply loadRecordings_session | exact Hp]
      end.
  - unfold detectDevices, autoSelect.
    destruct resp; try exact Hp;
      cbn [core withCore setCore setPermissionGranted setMicrophones setCameras];
      repeat case_match; exact Hp.
  - repeat case_match; try exact Hp.
    unfold handlePlayRecording, releasePlayback. repeat case_match; exact Hp.
  - repeat case_match; try exact Hp.
    unfold handleDeleteRecording, reloadCatalog, handleClosePlayer,
      releasePlayback.
    repeat case_match; try exact Hp;
      cbn [core folderPath withCore setCore setRemovedEntries
           setSelectedRecording setPlaybackUrl revokeObjectURL setObjectUrls];
      match goal with
      | |- recorderHasFolder (loadRecordings ?hh ?f ?ll ?s) =>
          apply (recorder_frame s);
          [apply loadRecordings_session | exact Hp]
      end.
  - case_match; [| exact Hp].
    unfold handleClosePlayer, releasePlayback. repeat case_match; exact Hp.
  - case_match; exact Hp.
  - cbn [core withCore setCore]. unfold ondataavailable.
    repeat case_match; exact Hp.
  - apply (recorder_frame (core p)); [| exact Hp]. apply onstop_trace.
  - exact Hp.
  - cbn [core withCore setCore]. unfold tick. case_match; exact Hp.
  - exact Hp.
  - exact Hp.
Qed.

Lemma step_recorderHasFolder h api e p :
  recorderHasFolder (core p) -> recorderHasFolder (core (step h api e p)).
Proof.
  intros Hp. unfold step.
  apply (commit_cases (fun q => recorderHasFolder (core q)));
    [now apply handle_recorderHasFolder | |].
  - intros q. apply recorder_frame, screenEffectCleanup_recorder.
  - intros q _. apply recorder_frame.
    unfold playbackEffectCleanup. repeat case_match; reflexivity.
Qed.

(** X23. With each handler running to completion before the next event: the
    recorder the component holds was always created over a folder handle,
    which its stop callback keeps using even if the folder is cleared or
    changed meanwhile. So when the write through the handle succeeds, the
    finished session is written to the folder and never offered as a
    download; a download only ever follows a failed write. *)
Theorem session_is_downloaded_only_after_failed_write h api ls events r inp :
  let s := core (run h api events (initialPage api ls)) in
  mediaRecorder s = Some r ->
  writeOutcome inp = WriteSucceeds ->
  exists fx,
    effects (onstop h r inp s) = effects s ++ fx
    /\ existsb isDownload fx = false
    /\ (recordedChunks s <> [] ->
        In (FileWritten (generateFilename (now inp))
              (newBlob (recordedChunks s) (blobTypeOf r))) fx).
Proof.
  intros s Hr Hw.
  assert (Hinv : recorderHasFolder s).
  { subst s.
    apply (run_invariant h api (fun p => recorderHasFolder (core p)));
      [apply step_recorderHasFolder |].
    intros r'. simpl. discriminate. }
  specialize (Hinv r Hr).
  exists (finalizeCalls r inp s). split; [apply onstop_trace |].
  unfold finalizeCalls, persistenceCalls. rewrite Hw.
  destruct (capturedFolderHandle r); [| discriminate].
  rewrite !existsb_app. split.
  - assert (Hstops : forall tracks,
               existsb isDownload (map TrackStop tracks) = false)
      by (induction tracks; simpl; auto).
    destruct (recordingTimer s), (mediaStream s), (recordedChunks s);
      simpl; rewrite ?Hstops; reflexivity.
  - intros Hne. apply in_or_app. right. apply in_or_app. right.
    destruct (recordedChunks s); [congruence |]. simpl. auto.
Qed.

Lemma session_is_downloaded_only_after_failed_write_witness :
  let s := core (run utcHost true clearedMidSession (initialPage true ∅)) in
  folderHandle s = None
  /\ exists fx,
       effects (onstop utcHost heldRecorder saveOk s) = effects s ++ fx
       /\ existsb isDownload fx = false
       /\ (recordedChunks s <> [] ->
           In (FileWritten (generateFilename (now saveOk))
                 (newBlob (recordedChunks s) (blobTypeOf heldRecorder))) fx).
Proof.
  split; [reflexivity |].
  apply (session_is_downloaded_only_after_failed_write utcHost true ∅
           clearedMidSession heldRecorder saveOk);
    reflexivity.
Defined.

(** *** Deleting a recording *)

(** X24. A delete acts only when it is confirmed and the folder removes the
    entry. Declined, it changes nothing; with a removal that fails, the
    catalog, the player and the folder are left as they are and the
    failure is reported. A removal that succeeds is followed by a fresh
    scan of the folder, and it closes the player, revoking its URL,
    exactly when the recording removed is the one being played. *)
Theorem delete_acts_only_when_confirmed_and_removed
  h confirmed removal l recording p folder :
  folderHandle (core p) = Some folder ->
  urlsAccounted p ->
  let p' := handleDeleteRecording h confirmed removal l recording p in
  match confirmed, removal with
  | false, _ => p' = p
  | true, Some err =>
      recordings (core p') = recordings (core p)
      /\ removedEntries p' = removedEntries p
      /\ selectedRecording p' = selectedRecording p
      /\ playbackUrl p' = playbackUrl p
      /\ objectUrls p' = objectUrls p
      /\ playbackError (core p')
         = Some (String.append "Failed to delete recording: " (errMessage err))
  | true, None =>
      removedEntries p' = removedEntries p ++ [filename recording]
      /\ recordings (core p')
         = match refresh h l with inr found => found | inl _ => [] end
      /\ if isSelected recording p
         then selectedRecording p' = None /\ playbackUrl p' = None
              /\ objectUrls p' = []
         else selectedRecording p' = selectedRecording p
              /\ playbackUrl p' = playbackUrl p
              /\ objectUrls p' = objectUrls p
  end.
Proof.
  intros Hfolder Hurls p'. subst p'. unfold handleDeleteRecording.
  destruct confirmed; cbn [negb]; [| reflexivity].
  rewrite Hfolder. destruct removal as [err |]; [repeat split |].
  cbv beta.
  set (p1 := setRemovedEntries (removedEntries p ++ [filename recording]) p).
  assert (Hsel : isSelected recording p1 = isSelected recording p)
    by reflexivity.
  assert (Hurls1 : urlsAccounted p1) by exact Hurls.
  rewrite Hsel.
  assert (Hload : forall q : Page,
             folderHandle (core q) = Some folder ->
             recordings (core (reloadCatalog h l q))
             = match refresh h l with inr found => found | inl _ => [] end).
  { intros q Hq. unfold reloadCatalog. cbn [core withCore setCore].
    rewrite Hq. unfold loadRecordings. cbv zeta.
    destruct (refresh h l); reflexivity. }
  destruct (isSelected recording p).
  - destruct (releasePlayback_accounted p1 Hurls1) as (Ho & Hu & Hc & _).
    split; [unfold reloadCatalog, handleClosePlayer, releasePlayback;
            repeat case_match; reflexivity |].
    split; [apply Hload; unfold handleClosePlayer;
            cbn [core withCore setCore setSelectedRecording];
            rewrite Hc; exact Hfolder |].
    unfold reloadCatalog, handleClosePlayer.
    cbn [selectedRecording playbackUrl objectUrls withCore setCore
         setSelectedRecording].
    rewrite Ho, Hu. auto.
  - split; [reflexivity |]. split; [now apply Hload |]. auto.
Qed.

Lemma delete_acts_only_when_confirmed_and_removed_witness :
  let p' := handleDeleteRecording utcHost true None
              (Yield (fileEntry marchName 1709283601000 5) Done)
              januaryRecording playing in
  removedEntries p' = removedEntries playing ++ [filename januaryRecording]
  /\ recordings (core p')
     = match refresh utcHost (Yield (fileEntry marchName 1709283601000 5) Done)
       with inr found => found | inl _ => [] end
  /\ if isSelected januaryRecording playing
     then selectedRecording p' = None /\ playbackUrl p' = None
          /\ objectUrls p' = []
     else selectedRecording p' = selectedRecording playing
          /\ playbackUrl p' = playbackUrl playing
          /\ objectUrls p' = objectUrls playing.
Proof.
  apply (delete_acts_only_when_confirmed_and_removed utcHost true None
           (Yield (fileEntry marchName 1709283601000 5) Done)
           januaryRecording playing {| folderName := "Videos" |}).
  - reflexivity.
  - split; [reflexivity | intros u [= <-]; discriminate].
Defined.

End LifecycleFacts.

(* ===================================================================== *)
(** ** Encoder errors *)

Section EncoderError.
Import JSDate JSString Filename Catalog App Samples Observations MoreSamples.
Local Open Scope Z_scope.







End EncoderError.

(* ===================================================================== *)
(** ** The elapsed-time display *)

Section DisplayFacts.
Import JSString Display.
Local Open Scope Z_scope.

Lemma pretty_N_char_digitChar d :
  (d < 10)%N -> pretty_N_char d = digitChar (Z.of_N d).
Proof.
  intros Hd.
  assert (Hcases : (d = 0 \/ d = 1 \/ d = 2 \/ d = 3 \/ d = 4 \/ d = 5
                    \/ d = 6 \/ d = 7 \/ d = 8 \/ d = 9)%N) by lia.
  repeat destruct Hcases as [-> | Hcases]; try reflexivity.
  subst d. reflexivity.
Qed.

Lemma pretty_N_go_length x : forall s,
  (String.length s <= String.length (pretty_N_go x s))%nat.
Proof.
  induction (N.lt_wf_0 x) as [x _ IH]. intros s.
  destruct (N.eq_dec x 0%N) as [-> | Hx]; [now rewrite pretty_N_go_0 |].
  rewrite pretty_N_go_step by lia.
  etransitivity; [| apply IH; apply N.div_lt; lia]. simpl. lia.
Qed.

Lemma pretty_N_go_digit x s :
  (0 < x < 10)%N -> pretty_N_go x s = String (pretty_N_char x) s.
Proof.
  intros Hx. rewrite pretty_N_go_step by lia.
  rewrite N.div_small, N.mod_small by lia. apply pretty_N_go_0.
Qed.

Lemma toStringInt_pos k :
  0 < k -> toStringInt k = pretty_N_go (Z.to_N k) "".
Proof.
  intros Hk. destruct k as [| p | p]; try lia.
  unfold toStringInt, pretty, pretty_Z, pretty, pretty_positive, pretty,
    pretty_N.
  now case_decide.
Qed.

Lemma toStringInt_digit k :
  0 <= k < 10 -> toStringInt k = String (digitChar k) "".
Proof.
  intros Hk. destruct (Z.eq_dec k 0) as [-> | Hne]; [reflexivity |].
  rewrite toStringInt_pos by lia.
  rewrite pretty_N_go_digit, pretty_N_char_digitChar by lia.
  now rewrite Z2N.id by lia.
Qed.

Lemma toStringInt_two k :
  10 <= k < 100 -> toStringInt k = padDigits 2 k "".
Proof.
  intros Hk. rewrite toStringInt_pos by lia.
  assert (Hq : (0 < Z.to_N k / 10 < 10)%N).
  { split; [apply N.div_str_pos; lia |].
    apply N.Div0.div_lt_upper_bound; lia. }
  rewrite pretty_N_go_step by lia.
  rewrite pretty_N_go_digit by exact Hq.
  rewrite !pretty_N_char_digitChar by (try apply N.mod_lt; lia).
  cbn [padDigits]. unfold digitChar.
  rewrite N2Z.inj_div, N2Z.inj_mod, Z2N.id by lia.
  now rewrite Z.mod_mod by lia.
Qed.

Lemma toStringInt_long k :
  100 <= k -> (3 <= String.length (toStringInt k))%nat.
Proof.
  intros Hk. rewrite toStringInt_pos by lia.
  assert (H1 : (0 < Z.to_N k)%N) by lia.
  assert (H2 : (0 < Z.to_N k / 10)%N) by (apply N.div_str_pos; lia).
  assert (H3 : (0 < Z.to_N k / 10 / 10)%N).
  { apply N.div_str_pos. split; [lia |].
    apply N.div_le_lower_bound; lia. }
  rewrite 3!pretty_N_go_step by assumption.
  etransitivity; [| apply pretty_N_go_length]. simpl. lia.
Qed.

Lemma padStart_short k :
  0 <= k < 100 -> padStart 2 "0" (toStringInt k) = padDigits 2 k "".
Proof.
  intros Hk. destruct (Z_lt_dec k 10) as [Hlt | Hge].
  - rewrite toStringInt_digit by lia. cbn [padDigits]. unfold padStart. simpl.
    f_equal. unfold digitChar.
    rewrite (Z.div_small k 10) by lia. reflexivity.
  - rewrite toStringInt_two by lia. reflexivity.
Qed.

Lemma padStart_long s :
  (2 <= String.length s)%nat -> padStart 2 "0" s = s.
Proof.
  intros Hs. unfold padStart.
  replace (2 - String.length s)%nat with 0%nat by lia. reflexivity.
Qed.

Lemma length_append (a b : string) :
  String.length (String.append a b) = (String.length a + String.length b)%nat.
Proof. induction a; simpl; auto. Qed.

Lemma append_inj_length (a a' b b' : string) :
  String.length a = String.length a' ->
  String.append a b = String.append a' b' -> a = a' /\ b = b'.
Proof.
  revert a'. induction a as [| c a IH]; intros [| c' a'] Hlen Heq;
    simpl in *; try discriminate; [auto |].
  injection Heq as -> Heq. injection Hlen as Hlen.
  destruct (IH a' Hlen Heq) as [-> ->]. auto.
Qed.

Lemma padDigits2_inj a b :
  0 <= a < 100 -> 0 <= b < 100 ->
  padDigits 2 a "" = padDigits 2 b "" -> a = b.
Proof.
  intros Ha Hb Heq.
  pose proof (parseInt_pad2 a Ha) as Hpa.
  pose proof (parseInt_pad2 b Hb) as Hpb.
  rewrite Heq in Hpa. congruence.
Qed.

Lemma padDigits2_length k : String.length (padDigits 2 k "") = 2%nat.
Proof. reflexivity. Qed.

(** The minutes field: two digits below 100, the plain numeral above. *)
Lemma minutes_field_inj a b :
  0 <= a -> 0 <= b ->
  padStart 2 "0" (toStringInt a) = padStart 2 "0" (toStringInt b) -> a = b.
Proof.
  intros Ha Hb Heq.
  destruct (Z_lt_dec a 100) as [Hsa | Hla], (Z_lt_dec b 100) as [Hsb | Hlb].
  - rewrite !padStart_short in Heq by lia. apply padDigits2_inj; auto; lia.
  - rewrite padStart_short in Heq by lia.
    pose proof (toStringInt_long b ltac:(lia)) as Hlen.
    rewrite (padStart_long (toStringInt b)) in Heq by lia.
    rewrite <- Heq, padDigits2_length in Hlen. lia.
  - rewrite (padStart_short b) in Heq by lia.
    pose proof (toStringInt_long a ltac:(lia)) as Hlen.
    rewrite (padStart_long (toStringInt a)) in Heq by lia.
    rewrite Heq, padDigits2_length in Hlen. lia.
  - pose proof (toStringInt_long a ltac:(lia)).
    pose proof (toStringInt_long b ltac:(lia)).
    rewrite !padStart_long in Heq by lia.
    unfold toStringInt in Heq. now apply (inj pretty) in Heq.
Qed.

Lemma formatDuration_fields n :
  0 <= n ->
  formatDuration n
  = String.append (padStart 2 "0" (toStringInt (n / 60)))
      (String.append ":" (padDigits 2 (n mod 60) "")).
Proof.
  intros Hn. unfold formatDuration. cbv zeta.
  rewrite Z.rem_mod_nonneg by lia.
  rewrite (padStart_short (n mod 60))
    by (Z.to_euclidean_division_equations; lia).
  reflexivity.
Qed.

(** X25. For a session of under a hundred minutes the clock reads exactly
    MM:SS, both fields zero padded; from a hundred minutes on the minutes
    field grows and the text is longer than five characters. The seconds
    field always has two digits. *)
Theorem formatDuration_is_mm_ss n :
  0 <= n ->
  (n < 6000 ->
   formatDuration n
   = padDigits 2 (n / 60) (String ":" (padDigits 2 (n mod 60) "")))
  /\ (6000 <= n -> (5 < String.length (formatDuration n))%nat).
Proof.
  intros Hn. rewrite formatDuration_fields by exact Hn. split.
  - intros Hlt.
    rewrite padStart_short by (Z.to_euclidean_division_equations; lia).
    reflexivity.
  - intros Hge.
    pose proof (toStringInt_long (n / 60)
                  ltac:(Z.to_euclidean_division_equations; lia)) as Hlen.
    rewrite padStart_long by lia.
    rewrite length_append. simpl. lia.
Qed.

Lemma formatDuration_is_mm_ss_witness :
  (125 < 6000 ->
   formatDuration 125
   = padDigits 2 (125 / 60) (String ":" (padDigits 2 (125 mod 60) "")))
  /\ (6000 <= 125 -> (5 < String.length (formatDuration 125))%nat).
Proof. apply (formatDuration_is_mm_ss 125). lia. Defined.

Lemma formatDuration_inj n m :
  0 <= n -> 0 <= m -> formatDuration n = formatDuration m -> n = m.
Proof.
  intros Hn Hm Heq. rewrite !formatDuration_fields in Heq by assumption.
  assert (Hlen : String.length (padStart 2 "0" (toStringInt (n / 60)))
                 = String.length (padStart 2 "0" (toStringInt (m / 60)))).
  { apply (f_equal String.length) in Heq.
    rewrite !length_append in Heq. simpl in Heq. lia. }
  destruct (append_inj_length _ _ _ _ Hlen Heq) as [Hmins Hsecs].
  apply minutes_field_inj in Hmins;
    [| Z.to_euclidean_division_equations; lia ..].
  apply (append_inj_length ":" ":" _ _ eq_refl) in Hsecs as [_ Hsecs].
  apply padDigits2_inj in Hsecs;
    [| Z.to_euclidean_division_equations; lia ..].
  rewrite (Z.div_mod n 60), (Z.div_mod m 60) by lia. congruence.
Qed.

(** X26. The clock never shows the same text for two different durations,
    however long the session. *)
Theorem formatDuration_tells_durations_apart n m :
  0 <= n -> 0 <= m -> n <> m -> formatDuration n <> formatDuration m.
Proof.
  intros Hn Hm Hne Heq. apply Hne. now apply formatDuration_inj.
Qed.

Lemma formatDuration_tells_durations_apart_witness :
  formatDuration 5999 <> formatDuration 6000.
Proof.
  apply (formatDuration_tells_durations_apart 5999 6000); lia.
Defined.

End DisplayFacts.
